(** * Floorplan layout and export engine: ingest_netlist.py and gui_min.py

    A shallow embedding of the algorithmic core of the ASIC floorplanning
    tool: grid snapping, the placement validator of [BlockItem], the
    perimeter projection of [PinItem], the connectivity and wirelength
    computations of [Main], the pin placement export, and the scaling,
    row packing and net reconstruction of [build_design].

    Numbers.  Python [int] is [Z].  Qt coordinates and Python floats that
    only carry pixel positions are exact rationals [Q]: every operation
    applied to them in the modelled code (adding half a size, dividing by
    the grid, comparing) is exact on the integers and half-integers that
    occur, and [round] is Python 3's, to the nearest integer with ties to
    the even one; what is proved of a value computed by a division
    ([_snap]) is stated for magnitudes below 2^52, where the binary64
    quotient rounds as the exact one does.  The scaling of [build_design]
    and of [autoscale_modules] takes a square root, so it is modelled on
    binary64 itself ([PrimFloat]), an [int] being converted as Python
    does it.

    Containers.  A [dict] that is only looked up is a [gmap]; a [dict] or
    list whose iteration order reaches the output is a list; a Python
    [set] is a [gset]. *)

From Stdlib Require Import ZArith QArith Qround Qminmax Qabs Lia Lqa.
From Stdlib Require Import List String Ascii DecimalString DecimalNat Floats.
From Stdlib Require Import OrderedTypeEx Permutation.
From stdpp Require Import gmap strings sorting.

Import ListNotations.

(** ** Python built-ins used by the two scripts *)
Module Py.

(** [round(x)] of a float, as an [int]: nearest integer, ties to even. *)
Definition round (q : Q) : Z :=
  let n := Qnum q in
  let d := Z.pos (Qden q) in
  let f := (n / d)%Z in
  match (2 * (n mod d) ?= d)%Z with
  | Lt => f
  | Gt => (f + 1)%Z
  | Eq => if Z.even f then f else (f + 1)%Z
  end.

(** [int(x)] of a float: truncation towards zero. *)
Definition int (q : Q) : Z :=
  if Qle_bool 0 q then Qfloor q else Qceiling q.

(** [min(items, key=...)]: the first item whose key is minimal. *)
Fixpoint min_by_key {A : Type} (key : A -> Q) (first : A) (rest : list A) : A :=
  match rest with
  | [] => first
  | a :: rest' =>
      if Qlt_le_dec (key a) (key first)
      then min_by_key key a rest'
      else min_by_key key first rest'
  end.

(** [max(xs)] and [min(xs)] of a non-empty list of floats. *)
Definition max_list (x : Q) (xs : list Q) : Q := fold_left Qmax xs x.
Definition min_list (x : Q) (xs : list Q) : Q := fold_left Qmin xs x.

(** [s.startswith(p)]. *)
Definition startswith (s p : string) : bool := String.prefix p s.

(** [s.split(".", 1)]: the text before the first dot, and the text after
    it when there is a dot. *)
Fixpoint split_dot (s : string) : string * option string :=
  match s with
  | EmptyString => (EmptyString, None)
  | String c r =>
      if Ascii.eqb c "."%char then (EmptyString, Some r)
      else let '(a, b) := split_dot r in (String c a, b)
  end.

(** [str(i)] of a natural number, in decimal. *)
Definition str (i : nat) : string := NilEmpty.string_of_uint (Nat.to_uint i).

(** The order of [str] values: by code point, position by position. *)
Definition str_le (a b : string) : Prop := String.leb a b = true.

Definition str_lt (a b : string) : Prop := String.ltb a b = true.

#[global] Instance str_le_dec : RelDecision str_le.
Proof. intros a b. unfold str_le. apply _. Defined.

(** [sorted(set(xs))] on strings. *)
Definition sorted_set (xs : list string) : list string :=
  merge_sort str_le (remove_dups xs).

(** [list.sort(key=...)]: a stable sort, here by insertion from the right,
    an item going before the later items of the same key. *)
Fixpoint insert_by_key {A : Type} (key : A -> Z) (a : A) (l : list A) : list A :=
  match l with
  | [] => [a]
  | b :: l' =>
      if (key a <=? key b)%Z then a :: b :: l'
      else b :: insert_by_key key a l'
  end.

Definition sort_by_key {A : Type} (key : A -> Z) (l : list A) : list A :=
  fold_right (insert_by_key key) [] l.

(** [dict.get] on a dictionary kept in insertion order. *)
Fixpoint dict_get {A : Type} (d : list (string * A)) (k : string) : option A :=
  match d with
  | [] => None
  | (k', a) :: d' => if String.eqb k' k then Some a else dict_get d' k
  end.

End Py.

(** ** The part of Qt's [QRectF] and [QPointF] the code relies on *)
Module Qt.

Definition QPointF : Type := (Q * Q)%type.

(** [QPointF.__eq__], on exact coordinates. *)
Definition point_eqb (p q : QPointF) : bool :=
  Qeq_bool (fst p) (fst q) && Qeq_bool (snd p) (snd q).

(** [QRectF(x, y, w, h)].  Every rectangle the modelled code builds has
    integer fields. *)
Record QRectF : Type := mkRect { rx : Z; ry : Z; rwidth : Z; rheight : Z }.

Definition left (r : QRectF) : Z := rx r.
Definition top (r : QRectF) : Z := ry r.
Definition right (r : QRectF) : Z := (rx r + rwidth r)%Z.
Definition bottom (r : QRectF) : Z := (ry r + rheight r)%Z.

(** [r.adjusted(dx1, dy1, dx2, dy2)]. *)
Definition adjusted (r : QRectF) (dx1 dy1 dx2 dy2 : Z) : QRectF :=
  mkRect (rx r + dx1) (ry r + dy1)
         (rwidth r + dx2 - dx1) (rheight r + dy2 - dy1).

(** The two ends of a side, a negative extent counted backwards. *)
Definition span (p ext : Z) : Z * Z :=
  if (ext <? 0)%Z then ((p + ext)%Z, p) else (p, (p + ext)%Z).

(** [a.intersects(b)]: a rectangle of no width or no height meets
    nothing, and rectangles that only touch do not intersect. *)
Definition intersects (a b : QRectF) : bool :=
  let '(l1, r1) := span (rx a) (rwidth a) in
  let '(l2, r2) := span (rx b) (rwidth b) in
  let '(t1, b1) := span (ry a) (rheight a) in
  let '(t2, b2) := span (ry b) (rheight b) in
  if (l1 =? r1)%Z || (l2 =? r2)%Z then false
  else if (r2 <=? l1)%Z || (r1 <=? l2)%Z then false
  else if (t1 =? b1)%Z || (t2 =? b2)%Z then false
  else if (b2 <=? t1)%Z || (b1 <=? t2)%Z then false
  else true.

End Qt.

(** ** The persisted design state (design.json) *)
Module Design.

Inductive Side : Type := SideN | SideS | SideW | SideE.

#[global] Instance Side_eq_dec : EqDecision Side.
Proof. solve_decision. Defined.

Record Module_ : Type := mkModule
  { inst : string; type : string; area : float;
    w : Z; h : Z; orient : string; x : Z; y : Z }.

(** A port as the GUI reads it; [width] is missing in some files. *)
Record Port : Type := mkPort
  { port_name : string; dir : string; width : option Z }.

Record Net : Type := mkNet
  { name : string; endpoints : list string; weight : Z; bw : option Z }.

Definition set_xy (m : Module_) (nx ny : Z) : Module_ :=
  mkModule (inst m) (type m) (area m) (w m) (h m) (orient m) nx ny.

Definition set_weight (n : Net) (wt : Z) : Net :=
  mkNet (name n) (endpoints n) wt (bw n).

End Design.

(** ** gui_min.py *)
Module Gui.

Import Qt.

Definition PX_TO_UM : Q := 1.

(** [_snap(v, g)]: [int(round(v / g) * g)]; a zero grid raises
    [ZeroDivisionError], which is [None].  The value [v] is a finite
    coordinate and the ratio is taken exactly: the binary64 quotient of
    the code rounds to the same integer as long as [|v| < 2^52]; beyond,
    the quotient is itself rounded to binary64 first, and what is proved
    of the snapped value itself is stated below that bound. *)
Definition _snap (v : Q) (g : Z) : option Z :=
  if (g =? 0)%Z then None
  else Some (Py.round (v / inject_Z g)%Q * g)%Z.

(** [_pair(a, b)]: [tuple(sorted((a, b)))]. *)
Definition _pair (a b : string) : string * string :=
  if String.ltb b a then (b, a) else (a, b).

(** [_expand_bus(name, width)]. *)
Definition _expand_bus (name : string) (width : Z) : list string :=
  if (width <=? 1)%Z then [name]
  else map (fun i => (name ++ "[" ++ Py.str i ++ "]")%string)
           (seq 0 (Z.to_nat width)).

(** *** BlockItem *)

(** A block holds a reference to its module dictionary, which is the very
    object stored in [Main.modules]: [module_ref] is its index there. *)
Record BlockItem : Type := mkBlock
  { module_ref : nat;
    rect_w : Z; rect_h : Z;
    pos : QPointF;
    block_grid : Z;
    block_core_rect : QRectF;
    _constructed : bool }.

Definition set_pos (it : BlockItem) (p : QPointF) : BlockItem :=
  mkBlock (module_ref it) (rect_w it) (rect_h it) p
          (block_grid it) (block_core_rect it) (_constructed it).

(** The snapped and clamped rectangle [new_rect] of [itemChange]. *)
Definition new_rect (it : BlockItem) (value : QPointF) : option QRectF :=
  x ← _snap (fst value) (block_grid it);
  y ← _snap (snd value) (block_grid it);
  let minx := left (block_core_rect it) in
  let miny := top (block_core_rect it) in
  let maxx := (right (block_core_rect it) - rect_w it)%Z in
  let maxy := (bottom (block_core_rect it) - rect_h it)%Z in
  let x := Z.min (Z.max minx x) maxx in
  let y := Z.min (Z.max miny y) maxy in
  Some (mkRect x y (rect_w it) (rect_h it)).

(** [itemChange(ItemPositionChange, value)]: the position Qt is told to
    apply. *)
Definition itemChange_ItemPositionChange
    (it : BlockItem) (module : Design.Module_)
    (can_place : QRectF -> string -> bool) (value : QPointF) : option QPointF :=
  r ← new_rect it value;
  if negb (can_place r (Design.inst module))
  then Some (inject_Z (Design.x module), inject_Z (Design.y module))
  else Some (inject_Z (rx r), inject_Z (ry r)).

(** [itemChange(ItemPositionHasChanged, _)]: the position is written back
    into the module dictionary once the block is constructed. *)
Definition itemChange_ItemPositionHasChanged
    (modules : list Design.Module_) (it : BlockItem) : list Design.Module_ :=
  if _constructed it
  then match modules !! module_ref it with
       | Some m =>
           <[module_ref it :=
               Design.set_xy m (Py.int (fst (pos it))) (Py.int (snd (pos it)))]>
             modules
       | None => modules
       end
  else modules.

(** *** PinItem *)

Record PinItem : Type := mkPin
  { pin_name : string;
    size : Z;
    pin_grid : Z;
    core : QRectF;
    pin_pos : QPointF }.

Definition side_distances (core : QRectF) (cx cy : Q) : list (Design.Side * Q) :=
  [ (Design.SideN, Qabs (cy - inject_Z (top core))%Q);
    (Design.SideS, Qabs (cy - inject_Z (bottom core))%Q);
    (Design.SideW, Qabs (cx - inject_Z (left core))%Q);
    (Design.SideE, Qabs (cx - inject_Z (right core))%Q) ].

(** The side nearest to the centre: the first of N, S, W, E among the
    nearest ones. *)
Definition nearest_side (core : QRectF) (cx cy : Q) : Design.Side :=
  fst (Py.min_by_key snd
         (hd (Design.SideN, 0%Q) (side_distances core cx cy))
         (tl (side_distances core cx cy))).

Definition _project_to_perimeter (it : PinItem) (x y : Q)
  : option (Z * Z * Design.Side) :=
  let cx := (x + inject_Z (size it) / 2)%Q in
  let cy := (y + inject_Z (size it) / 2)%Q in
  let top := top (core it) in
  let bottom := bottom (core it) in
  let left := left (core it) in
  let right := right (core it) in
  match nearest_side (core it) cx cy with
  | Design.SideN =>
      x ← _snap x (pin_grid it);
      Some (Z.max left (Z.min x (right - size it)), top - size it, Design.SideN)%Z
  | Design.SideS =>
      x ← _snap x (pin_grid it);
      Some (Z.max left (Z.min x (right - size it)), bottom, Design.SideS)%Z
  | Design.SideW =>
      y ← _snap y (pin_grid it);
      Some (left - size it, Z.max top (Z.min y (bottom - size it)), Design.SideW)%Z
  | Design.SideE =>
      y ← _snap y (pin_grid it);
      Some (right, Z.max top (Z.min y (bottom - size it)), Design.SideE)%Z
  end.

(** *** Main *)

Record Main : Type := mkMain
  { grid : Z; w : Z; h : Z; margin : Z;
    modules : list Design.Module_;
    nets : list Design.Net;
    ports : list Design.Port;
    items : gmap string BlockItem;
    pin_items : list (string * PinItem) }.

Definition HALO_PX : Z := 4.

Definition core_rect (self : Main) : QRectF :=
  mkRect (margin self) (margin self)
         (w self - 2 * margin self) (h self - 2 * margin self).

Definition module_rect (m : Design.Module_) : QRectF :=
  mkRect (Design.x m) (Design.y m) (Design.w m) (Design.h m).

(** [_occupied(rect, ignore_inst, halo_px)]. *)
Definition _occupied (modules : list Design.Module_) (rect : QRectF)
    (ignore_inst : option string) (halo_px : Z) : bool :=
  let rx := adjusted rect (- halo_px) (- halo_px) halo_px halo_px in
  existsb
    (fun m =>
       if bool_decide (Some (Design.inst m) = ignore_inst) then false
       else intersects rx
              (adjusted (module_rect m) (- halo_px) (- halo_px) halo_px halo_px))
    modules.

(** The callback [can_place_fn] handed to every block. *)
Definition can_place_fn (modules : list Design.Module_)
    (new_rect : QRectF) (inst : string) : bool :=
  negb (_occupied modules new_rect (Some inst) HALO_PX).

(** [QGraphicsItem.setPos] on a block that sends geometry changes: Qt
    does nothing when the position is already the requested one, asks
    [itemChange] for the position to apply, and notifies the change when
    the position did move. *)
Definition setPos (modules : list Design.Module_) (it : BlockItem)
    (value : QPointF) : option (list Design.Module_ * BlockItem) :=
  if point_eqb value (pos it) then Some (modules, it)
  else
    module ← modules !! module_ref it;
    p ← itemChange_ItemPositionChange it module (can_place_fn modules) value;
    if point_eqb p (pos it) then Some (modules, it)
    else
      let it' := set_pos it p in
      Some (itemChange_ItemPositionHasChanged modules it', it').

(** *** Centres *)

Definition _center_block (self : Main) (inst : string) : option (Q * Q) :=
  match items self !! inst with
  | None => None
  | Some it =>
      Some ((fst (pos it) + inject_Z (rect_w it) / 2)%Q,
            (snd (pos it) + inject_Z (rect_h it) / 2)%Q)
  end.

Definition _center_pin (self : Main) (name : string) : option (Q * Q) :=
  match Py.dict_get (pin_items self) name with
  | None => None
  | Some it =>
      Some ((fst (pin_pos it) + inject_Z (size it) / 2)%Q,
            (snd (pin_pos it) + inject_Z (size it) / 2)%Q)
  end.

(** *** Connectivity *)

(** The text after [top.] of a pin endpoint, and the instance of a module
    endpoint. *)
Definition pin_of (ep : string) : string :=
  match snd (Py.split_dot ep) with Some r => r | None => EmptyString end.
Definition mod_of (ep : string) : string := fst (Py.split_dot ep).

(** The sets [mods] and [pins] of one net. *)
Definition classify (eps : list string) : gset string * gset string :=
  fold_left
    (fun '(mods, pins) ep =>
       if Py.startswith ep "top." then (mods, pins ∪ {[ pin_of ep ]})
       else (mods ∪ {[ mod_of ep ]}, pins))
    eps (∅, ∅).

(** The index pairs [i < j] of the double loop, in its order. *)
Fixpoint pairs {A : Type} (l : list A) : list (A * A) :=
  match l with
  | [] => []
  | a :: r => map (pair a) r ++ pairs r
  end.

(** The cells of the nested loop over [mods] and [pins]. *)
Definition product {A B : Type} (l : list A) (r : list B) : list (A * B) :=
  flat_map (fun a => map (pair a) r) l.

(** The two [defaultdict(float)] and the running maximum.  The weights are
    the [float] of integer bit widths, so their sums are integers. *)
Record Connectivity : Type := mkConn
  { mm : gmap (string * string) Z;
    mp : gmap (string * string) Z;
    maxw : Z }.

(** [d[k]] on a [defaultdict(float)]. *)
Definition weight_of (d : gmap (string * string) Z) (k : string * string) : Z :=
  default 0%Z (d !! k).

Definition add_mm (wt : Z) (c : Connectivity) (ab : string * string) : Connectivity :=
  let k := _pair (fst ab) (snd ab) in
  let v := (weight_of (mm c) k + wt)%Z in
  mkConn (<[k := v]> (mm c)) (mp c) (Z.max (maxw c) v).

Definition add_mp (wt : Z) (c : Connectivity) (k : string * string) : Connectivity :=
  let v := (weight_of (mp c) k + wt)%Z in
  mkConn (mm c) (<[k := v]> (mp c)) (Z.max (maxw c) v).

(** The body of the loop over the nets. *)
Definition connect_net (c : Connectivity) (net : Design.Net) : Connectivity :=
  let wt := default 1%Z (Design.bw net) in
  let '(mods, pins) := classify (Design.endpoints net) in
  let mods := elements mods in
  let c := fold_left (add_mm wt) (pairs mods) c in
  fold_left (add_mp wt) (product mods (elements pins)) c.

(** [_build_connectivity]: the two weight tables and [max_weight]. *)
Definition _build_connectivity (nets : list Design.Net)
  : gmap (string * string) Z * gmap (string * string) Z * Z :=
  let c := fold_left connect_net nets (mkConn ∅ ∅ 0) in
  (mm c, mp c, if (0 <? maxw c)%Z then maxw c else 1%Z).

(** *** HPWL *)

(** The resolved centre points of a net's endpoints, the unknown ones
    skipped. *)
Definition resolve (self : Main) (ep : string) : option (Q * Q) :=
  if Py.startswith ep "top." then _center_pin self (pin_of ep)
  else _center_block self (mod_of ep).

Definition points (self : Main) (endpoints : list string) : list (Q * Q) :=
  omap (resolve self) endpoints.

Definition spread (vs : list Q) : Q :=
  match vs with
  | [] => 0
  | v :: vs' => (Py.max_list v vs' - Py.min_list v vs')%Q
  end.

Definition _hpwl_net (self : Main) (endpoints : list string) : Q :=
  let pts := points self endpoints in
  if (length pts <? 2)%nat then 0%Q
  else (spread (map fst pts) + spread (map snd pts))%Q.

(** The total of [_update_hpwl]. *)
Definition _update_hpwl (self : Main) : Q :=
  fold_left (fun total net => (total + _hpwl_net self (Design.endpoints net))%Q)
            (take 500 (nets self)) 0%Q.

(** *** Export to OpenLane *)

(** [int(round(v * PX_TO_UM))] of an integer. *)
Definition to_um (v : Z) : Z := Py.round (inject_Z v * PX_TO_UM)%Q.

(** [_gui_to_ll(x_gui, y_gui, h_box)]. *)
Definition _gui_to_ll (self : Main) (x_gui y_gui h_box : Z) : Z * Z :=
  let '(x_ll, y_ll) :=
    if negb (h_box =? 0)%Z then (x_gui, h self - (y_gui + h_box))%Z
    else (x_gui, h self - y_gui)%Z in
  (to_um x_ll, to_um y_ll).

(** [_infer_pin_side(it)]. *)
Definition _infer_pin_side (self : Main) (it : PinItem) : Design.Side :=
  let cx := (fst (pin_pos it) + inject_Z (size it) / 2)%Q in
  let cy := (snd (pin_pos it) + inject_Z (size it) / 2)%Q in
  nearest_side (core_rect self) cx cy.

(** The dictionary [groups] of [_pins_grouped_sorted]. *)
Record Groups : Type := mkGroups
  { group_N : list (string * Z); group_S : list (string * Z);
    group_E : list (string * Z); group_W : list (string * Z) }.

Definition group (g : Groups) (side : Design.Side) : list (string * Z) :=
  match side with
  | Design.SideN => group_N g
  | Design.SideS => group_S g
  | Design.SideE => group_E g
  | Design.SideW => group_W g
  end.

Definition group_append (g : Groups) (side : Design.Side) (e : string * Z) : Groups :=
  match side with
  | Design.SideN => mkGroups (group_N g ++ [e]) (group_S g) (group_E g) (group_W g)
  | Design.SideS => mkGroups (group_N g) (group_S g ++ [e]) (group_E g) (group_W g)
  | Design.SideE => mkGroups (group_N g) (group_S g) (group_E g ++ [e]) (group_W g)
  | Design.SideW => mkGroups (group_N g) (group_S g) (group_E g) (group_W g ++ [e])
  end.

Definition _pins_grouped_sorted (self : Main) : Groups :=
  let groups :=
    fold_left
      (fun groups '(name, it) =>
         let side := _infer_pin_side self it in
         let '(x_ll, y_ll) :=
           _gui_to_ll self (Py.int (fst (pin_pos it))) (Py.int (snd (pin_pos it))) 0 in
         let key_um :=
           match side with
           | Design.SideN | Design.SideS => (x_ll - to_um (left (core_rect self)))%Z
           | _ => (y_ll - to_um (h self - bottom (core_rect self)))%Z
           end in
         group_append groups side (name, key_um))
      (pin_items self) (mkGroups [] [] [] []) in
  mkGroups (Py.sort_by_key snd (group_N groups)) (Py.sort_by_key snd (group_S groups))
           (Py.sort_by_key snd (group_E groups)) (Py.sort_by_key snd (group_W groups)).

(** One line [<bit> <side> <offset>] of pin_placement.cfg. *)
Record Line : Type := mkLine
  { bit_name : string; line_side : Design.Side; off : Z }.

(** [int(port.get("width", 1))] of the first port of that name, 1 when
    there is none. *)
Definition port_width (ports : list Design.Port) (name : string) : Z :=
  match find (fun p => String.eqb (Design.port_name p) name) ports with
  | Some p => default 1%Z (Design.width p)
  | None => 1%Z
  end.

(** The loop over the bits of one pin: the lines and the final cursor. *)
Fixpoint place_bits (side : Design.Side) (step_um min_off max_off start : Z)
    (i : Z) (bits : list string) (cursor : Z) : list Line * Z :=
  match bits with
  | [] => ([], cursor)
  | bit_name :: bits' =>
      let off := (start + i * step_um)%Z in
      let off := Z.max min_off (Z.min off max_off) in
      let off :=
        if (off <=? cursor)%Z then Z.min (cursor + step_um) max_off else off in
      let '(lines, cursor') :=
        place_bits side step_um min_off max_off start (i + 1) bits' off in
      (mkLine bit_name side off :: lines, cursor')
  end.

(** The loop over the pins of one side. *)
Fixpoint place_pins (ports : list Design.Port) (side : Design.Side)
    (step_um min_off max_off : Z) (pins : list (string * Z)) (cursor : Z)
  : list Line :=
  match pins with
  | [] => []
  | (name, base) :: pins' =>
      let width := port_width ports name in
      let total_span := (step_um * (width - 1))%Z in
      let ideal_start := Py.round (inject_Z base - inject_Z total_span / 2)%Q in
      let lo := Z.max min_off (cursor + step_um) in
      let hi := Z.max min_off (max_off - total_span) in
      let start := Z.max lo (Z.min ideal_start hi) in
      let '(lines, cursor') :=
        place_bits side step_um min_off max_off start 0 (_expand_bus name width) cursor in
      lines ++ place_pins ports side step_um min_off max_off pins' cursor'
  end.

Definition step_um (self : Main) : Z := Z.max (to_um (grid self)) 1.

(** The length of a side in micrometres, [max_off]. *)
Definition max_off (self : Main) (side : Design.Side) : Z :=
  let core_left_um := to_um (left (core_rect self)) in
  let core_right_um := to_um (right (core_rect self)) in
  let core_top_um := to_um (h self - top (core_rect self)) in
  let core_bot_um := to_um (h self - bottom (core_rect self)) in
  match side with
  | Design.SideN | Design.SideS => (core_right_um - core_left_um)%Z
  | _ => (core_top_um - core_bot_um)%Z
  end.

(** The lines written for one side, and [_write_pin_placement_cfg]: the
    lines of the file, the sides in the order N, S, E, W. *)
Definition side_lines (self : Main) (side : Design.Side) : list Line :=
  place_pins (ports self) side (step_um self) 0 (max_off self side)
             (group (_pins_grouped_sorted self) side) (- 10 ^ 9).

Definition _write_pin_placement_cfg (self : Main) : list Line :=
  flat_map (side_lines self)
           [Design.SideN; Design.SideS; Design.SideE; Design.SideW].

(** The offsets of the lines of the file that name a given side, in the
    order of the file. *)
Definition offsets_of_side (self : Main) (side : Design.Side) : list Z :=
  map off (filter (fun l => line_side l = side) (_write_pin_placement_cfg self)).

(** *** Export *)

(** One line [<inst> <x> <y> <orient>] of macro.cfg. *)
Record MacroLine : Type := mkMacro
  { macro_inst : string; macro_x : Z; macro_y : Z; macro_orient : string }.

(** The lines of macro.cfg, one for each module. *)
Definition macro_lines (self : Main) : list MacroLine :=
  map (fun m =>
         let '(x_ll_um, y_ll_um) :=
           _gui_to_ll self (Design.x m) (Design.y m) (Design.h m) in
         mkMacro (Design.inst m) x_ll_um y_ll_um (Design.orient m))
      (modules self).

(** [sum(int(p.get("width", 1)) for p in self.ports)]. *)
Definition total_pin_bits (self : Main) : Z :=
  fold_left (fun acc p => (acc + default 1 (Design.width p))%Z) (ports self) 0%Z.

(** A rectangle of config.tcl, [x0 y0 x1 y1]. *)
Record Area : Type := mkArea { x0 : Z; y0 : Z; x1 : Z; y1 : Z }.

(** What [_on_export_clicked] writes: macro.cfg and pin_placement.cfg,
    each when it is written, the two areas of config.tcl, and the names
    of the files produced. *)
Record Export : Type := mkExport
  { macro_cfg : option (list MacroLine);
    pin_placement_cfg : option (list Line);
    die_area : Area;
    core_area : Area;
    produced : list string }.

Definition _on_export_clicked (self : Main) : Export :=
  let wrote_macro := (0 <? length (modules self))%nat in
  let total_pin_bits := total_pin_bits self in
  mkExport
    (if wrote_macro then Some (macro_lines self) else None)
    (if (0 <? total_pin_bits)%Z then Some (_write_pin_placement_cfg self) else None)
    (mkArea 0 0 (to_um (w self)) (to_um (h self)))
    (mkArea (to_um (margin self)) (to_um (margin self))
            (to_um (w self - margin self)) (to_um (h self - margin self)))
    (["config.tcl"%string]
       ++ (if wrote_macro then ["macro.cfg"%string] else [])
       ++ (if (0 <? total_pin_bits)%Z then ["pin_placement.cfg"%string] else [])).

End Gui.

(** ** ingest_netlist.py *)
Module Ingest.

(** *** binary64 *)

(** [float(i)] of an [int], as Python converts it where an [int] meets a
    float: the nearest binary64 value, a tie going to the even one; an
    [int] beyond the range of binary64 raises [OverflowError]. *)
Definition float_of_Z (z : Z) : option float :=
  let f := SF2Prim (binary_normalize prec emax z 0 false) in
  if is_infinity f then None else Some f.

(** The exact value of a finite float. *)
Definition Q_of_float (f : float) : option Q :=
  match Prim2SF f with
  | S754_zero _ => Some 0%Q
  | S754_finite s m e =>
      let n := if s then Z.neg m else Z.pos m in
      Some match e with
           | Z0 => inject_Z n
           | Z.pos p => inject_Z (n * 2 ^ Z.pos p)
           | Z.neg p => Qmake n (2 ^ p)%positive
           end
  | _ => None
  end.

(** [int(round(f))]; [round] raises on an infinity or a NaN. *)
Definition round_float (f : float) : option Z := Py.round <$> Q_of_float f.

(** [math.sqrt(a)]; a negative argument raises [ValueError]. *)
Definition math_sqrt (a : float) : option float :=
  if (a <? 0)%float then None else Some (PrimFloat.sqrt a).

(** [max(a, b)] on floats: [b] only when it is greater. *)
Definition fmax (a b : float) : float := if (a <? b)%float then b else a.

(** *** The Yosys netlist *)

(** A bit of a Yosys netlist: a net number, or a constant such as "0". *)
Definition bit : Type := (Z + string)%type.

Record PortObj : Type := mkPortObj
  { direction : option string; port_bits : list bit }.

Record Cell : Type := mkCell
  { cell_type : string; connections : list (string * list bit) }.

(** A module of the netlist; [area_hint] is the attribute as [to_float]
    reads it, [None] when it is missing or is no number. *)
Record YosysModule : Type := mkYosysModule
  { ym_ports : list (string * PortObj);
    cells : list (string * Cell);
    netnames : list (string * list bit);
    area_hint : option float }.

Record Die : Type := mkDie
  { die_width : Z; die_height : Z; die_grid : Z; die_core_margin : Z }.

Record DesignOut : Type := mkDesign
  { die : Die; top : string;
    modules_out : list Design.Module_;
    ports : list Design.Port;
    nets_out : list Design.Net }.

(** [to_float(v, default)] on an attribute already read as a number. *)
Definition to_float (v : option float) (default : float) : float :=
  match v with Some f => f | None => default end.

(** *** Ports and base sizes *)

Definition ports_of (topm : YosysModule) : list Design.Port :=
  map (fun '(pname, pobj) =>
         let n := Z.of_nat (length (port_bits pobj)) in
         Design.mkPort pname (default "in"%string (direction pobj))
                       (Some (if (n =? 0)%Z then 1%Z else n)))
      (ym_ports topm).

Record ModBase : Type := mkModBase
  { mb_inst : string; mb_type : string; mb_area : float; base : float }.

Fixpoint mods_base_of (modules : list (string * YosysModule))
    (cells : list (string * Cell)) : option (list ModBase) :=
  match cells with
  | [] => Some []
  | (inst, cobj) :: cells' =>
      let mtype := cell_type cobj in
      let attrs := Py.dict_get modules mtype ≫= area_hint in
      let area := to_float attrs 300%float in
      s ← math_sqrt area;
      rest ← mods_base_of modules cells';
      Some (mkModBase inst mtype area (fmax 1%float s) :: rest)
  end.

(** *** Scaling and row packing *)

(** [max((m["base"] for m in mods_base), default=1.0)]. *)
Definition max_base_of (mods_base : list ModBase) : float :=
  match mods_base with
  | [] => 1%float
  | m :: ms => fold_left (fun acc m' => fmax acc (base m')) ms (base m)
  end.

Record Scale : Type := mkScale { k : float; min_side : Z }.

Definition scale_of (mods_base : list ModBase)
    (die_w die_h grid core_margin : Z) (max_side_frac : float) (min_side_px : Z)
  : option Scale :=
  let core_w := Z.max 1 (die_w - 2 * core_margin) in
  let core_h := Z.max 1 (die_h - 2 * core_margin) in
  let die_min := Z.min core_w core_h in
  let max_base := max_base_of mods_base in
  die_min_f ← float_of_Z die_min;
  r ← round_float (die_min_f * max_side_frac)%float;
  let target_max_side := Z.max min_side_px r in
  target_f ← float_of_Z target_max_side;
  if (max_base =? 0)%float then None
  else Some (mkScale (target_f / max_base)%float
                     (Z.max (2 * grid) min_side_px)).

(** [max(min_side, int(round(m["base"] * k)))]. *)
Definition side_of (sc : Scale) (m : ModBase) : option Z :=
  r ← round_float (base m * k sc)%float;
  Some (Z.max (min_side sc) r).

(** The packing loop, with its cursor [x], [y] and the row height. *)
Fixpoint pack (sc : Scale) (die_w grid core_margin : Z)
    (mods_base : list ModBase) (x y row_h : Z) : option (list Design.Module_) :=
  match mods_base with
  | [] => Some []
  | m :: ms =>
      side ← side_of sc m;
      let '(x, y, row_h) :=
        if (die_w - core_margin <? x + side)%Z
        then (core_margin + grid, y + (row_h + grid), 0)%Z
        else (x, y, row_h) in
      rest ← pack sc die_w grid core_margin ms (x + (side + grid))%Z y (Z.max row_h side);
      Some (Design.mkModule (mb_inst m) (mb_type m) (mb_area m) side side "N" x y
              :: rest)
  end.

(** *** Connectivity *)

(** [bit_eps.setdefault(bit, []).append(ep)]. *)
Definition add_ep (bit_eps : gmap bit (list string)) (b : bit) (ep : string)
  : gmap bit (list string) :=
  <[b := default [] (bit_eps !! b) ++ [ep]]> bit_eps.

Definition add_conn (owner : string) (bit_eps : gmap bit (list string))
    (conn : string * list bit) : gmap bit (list string) :=
  fold_left (fun acc b => add_ep acc b (owner ++ "." ++ fst conn)%string)
            (snd conn) bit_eps.

Definition bit_eps_of (topm : YosysModule) : gmap bit (list string) :=
  let from_cells :=
    fold_left
      (fun acc '(inst, cobj) => fold_left (add_conn inst) (connections cobj) acc)
      (cells topm) ∅ in
  fold_left
    (fun acc '(pname, pobj) => add_conn "top" acc (pname, port_bits pobj))
    (ym_ports topm) from_cells.

(** The endpoints of a declared net: [sorted(set(eps))]. *)
Definition net_eps (bit_eps : gmap bit (list string)) (bits : list bit) : list string :=
  Py.sorted_set (flat_map (fun b => default [] (bit_eps !! b)) bits).

(** One turn of the loop over [netnames]: the net, when it is kept. *)
Definition net_of (bit_eps : gmap bit (list string)) (n : string * list bit)
  : option Design.Net :=
  let eps := net_eps bit_eps (snd n) in
  if (2 <=? length eps)%nat
  then Some (Design.mkNet (fst n) eps (Z.of_nat (length eps) - 1)
               (Some (Z.max 1 (Z.of_nat (length (snd n))))))
  else None.

(** *** build_design *)

(** [None] stands for the [SystemExit] of an unknown top module, and for
    an exception of the float computations. *)
Definition build_design (modules : list (string * YosysModule)) (top : string)
    (die_w die_h grid core_margin : Z) (max_side_frac : float) (min_side_px : Z)
  : option DesignOut :=
  topm ← Py.dict_get modules top;
  mods_base ← mods_base_of modules (cells topm);
  sc ← scale_of mods_base die_w die_h grid core_margin max_side_frac min_side_px;
  modules_out ← pack sc die_w grid core_margin mods_base
                  (core_margin + grid)%Z (core_margin + grid)%Z 0%Z;
  let bit_eps := bit_eps_of topm in
  Some (mkDesign (mkDie die_w die_h grid core_margin) top modules_out
          (ports_of topm) (omap (net_of bit_eps) (netnames topm))).

End Ingest.

(** ** gui_min.py: [Main.autoscale_modules] *)
Module Autoscale.

(** A run of a function whose loop is unfolded a bounded number of
    times: it returns, raises an exception, or is cut short. *)
Inductive Outcome (A : Type) : Type :=
| Returns (a : A)
| Raises
| OutOfFuel.
Arguments Returns {A} a.
Arguments Raises {A}.
Arguments OutOfFuel {A}.

(** [_core_rect_tuple()]: [(cx, cy, cw, ch)]. *)
Definition _core_rect_tuple (self : Gui.Main) : Z * Z * Z * Z :=
  (Gui.margin self, Gui.margin self,
   Gui.w self - 2 * Gui.margin self, Gui.h self - 2 * Gui.margin self)%Z.

(** [max(1.0, math.sqrt(float(area)))]; every module of the design state
    carries its [area]. *)
Definition base_of (m : Design.Module_) : option float :=
  s ← Ingest.math_sqrt (Design.area m);
  Some (Ingest.fmax 1%float s).

(** The bases of the list [bases], taken before any module is resized. *)
Definition bases_of (modules : list Design.Module_) : option (list float) :=
  mapM base_of modules.

(** [max(b for _, b in bases)]. *)
Definition max_base_of (bases : list float) : float :=
  match bases with
  | [] => 1%float
  | b :: bs => fold_left Ingest.fmax bs b
  end.

(** The factor [k] and the least side [min_side]. *)
Definition scale_of (self : Gui.Main) (bases : list float)
    (max_side_frac : float) (min_side_px : Z) : option Ingest.Scale :=
  let '(_, _, cw, ch) := _core_rect_tuple self in
  let die_min := Z.min cw ch in
  let max_base := max_base_of bases in
  die_min_f ← Ingest.float_of_Z die_min;
  r ← Ingest.round_float (die_min_f * max_side_frac)%float;
  let target_max := Z.max min_side_px r in
  target_f ← Ingest.float_of_Z target_max;
  if (max_base =? 0)%float then None
  else Some (Ingest.mkScale (target_f / max_base)%float
                            (Z.max (2 * Gui.grid self) min_side_px)).

(** [m["w"], m["h"] = side, side] and [it.setRect(0, 0, side, side)]. *)
Definition set_wh (m : Design.Module_) (side : Z) : Design.Module_ :=
  Design.mkModule (Design.inst m) (Design.type m) (Design.area m) side side
                  (Design.orient m) (Design.x m) (Design.y m).

Definition setRect (it : Gui.BlockItem) (w h : Z) : Gui.BlockItem :=
  Gui.mkBlock (Gui.module_ref it) w h (Gui.pos it)
              (Gui.block_grid it) (Gui.block_core_rect it) (Gui._constructed it).

(** The [while] loop: the block moves right by one grid step as long as
    its place is taken and a further step stays inside the Core; [None]
    when the fuel runs out. *)
Fixpoint slide (fuel : nat) (modules : list Design.Module_) (inst : string)
    (grid cx cw side y x : Z) : option Z :=
  if Gui._occupied modules (Qt.mkRect x y side side) (Some inst) Gui.HALO_PX
     && (x + side + grid <=? cx + cw)%Z
  then match fuel with
       | O => None
       | S fuel' => slide fuel' modules inst grid cx cw side y (x + grid)%Z
       end
  else Some x.

(** The module dictionaries and the block items, both updated in place. *)
Definition State : Type := (list Design.Module_ * gmap string Gui.BlockItem)%type.

(** One turn of the loop over [bases], for the module of index [i]. *)
Definition rescale (fuel : nat) (self : Gui.Main) (sc : Ingest.Scale)
    (st : State) (i : nat) (base : float) : Outcome State :=
  let '(cx, cy, cw, ch) := _core_rect_tuple self in
  match Ingest.round_float (base * Ingest.k sc)%float with
  | None => Raises
  | Some r =>
      let side := Z.max (Ingest.min_side sc) r in
      match fst st !! i with
      | None => Raises
      | Some m =>
          let modules := <[i := set_wh m side]> (fst st) in
          match snd st !! Design.inst m with
          | None => Raises
          | Some it =>
              let it := setRect it side side in
              let x := Z.max cx (Z.min (Design.x m) (cx + cw - side)) in
              let y := Z.max cy (Z.min (Design.y m) (cy + ch - side)) in
              match slide fuel modules (Design.inst m) (Gui.grid self) cx cw side y x with
              | None => OutOfFuel
              | Some x =>
                  let modules := <[i := Design.set_xy (set_wh m side) x y]> modules in
                  match Gui.setPos modules it (inject_Z x, inject_Z y) with
                  | None => Raises
                  | Some (modules, it) =>
                      Returns (modules, <[Design.inst m := it]> (snd st))
                  end
              end
          end
      end
  end.

(** The loop over [bases], from the module of index [i] on. *)
Fixpoint rescale_all (fuel : nat) (self : Gui.Main) (sc : Ingest.Scale)
    (i : nat) (bases : list float) (st : State) : Outcome State :=
  match bases with
  | [] => Returns st
  | base :: bases' =>
      match rescale fuel self sc st i base with
      | Returns st' => rescale_all fuel self sc (S i) bases' st'
      | Raises => Raises
      | OutOfFuel => OutOfFuel
      end
  end.

(** [_utilization()]: the percentage of the Core's area that the modules
    take; the conversion of too large an area to a float raises. *)
Definition _utilization (self : Gui.Main) : option float :=
  let '(_, _, cw, ch) := _core_rect_tuple self in
  let core_area := (cw * ch)%Z in
  let mods_area :=
    fold_left (fun acc m => (acc + Design.w m * Design.h m)%Z) (Gui.modules self) 0%Z in
  if (0 <? core_area)%Z
  then
    mods_area_f ← Ingest.float_of_Z mods_area;
    core_area_f ← Ingest.float_of_Z core_area;
    Some (100 * mods_area_f / core_area_f)%float
  else Some 0%float.

(** [autoscale_modules(max_side_frac, min_side_px)]: the window with its
    modules and blocks rescaled; the status line written at the end
    shows the utilisation. *)
Definition autoscale_modules (fuel : nat) (self : Gui.Main)
    (max_side_frac : float) (min_side_px : Z) : Outcome Gui.Main :=
  match bases_of (Gui.modules self) with
  | None => Raises
  | Some [] => Returns self
  | Some bases =>
      match scale_of self bases max_side_frac min_side_px with
      | None => Raises
      | Some sc =>
          match rescale_all fuel self sc 0 bases (Gui.modules self, Gui.items self) with
          | Returns (modules, items) =>
              let self' :=
                Gui.mkMain (Gui.grid self) (Gui.w self) (Gui.h self)
                           (Gui.margin self) modules (Gui.nets self) (Gui.ports self)
                           items (Gui.pin_items self) in
              match _utilization self' with
              | Some _ => Returns self'
              | None => Raises
              end
          | Raises => Raises
          | OutOfFuel => OutOfFuel
          end
      end
  end.

(** Every module has its block: the item stored under the module's
    instance name refers to that very module, and is bounded by the
    Core of the window. *)
Definition in_step (self : Gui.Main) (st : State) : Prop :=
  forall (i : nat) (m : Design.Module_),
    fst st !! i = Some m ->
    exists it, snd st !! Design.inst m = Some it /\ Gui.module_ref it = i /\
               Gui.block_core_rect it = Gui.core_rect self.

(** The positions [x], [x + grid], ... tried before [x']. *)
Definition tried (grid x x' : Z) (p : Z) : Prop :=
  exists j : Z, (0 <= j)%Z /\ p = (x + j * grid)%Z /\ (p < x')%Z.

(** What a module [m] has become once rescaled: a square of at least the
    least side, still the same instance, and inside the Core when the
    Core is large enough for it. *)
Definition rescaled (self : Gui.Main) (min_side : Z) (m m' : Design.Module_) : Prop :=
  Design.inst m' = Design.inst m /\ Design.type m' = Design.type m /\
  Design.area m' = Design.area m /\ Design.orient m' = Design.orient m /\
  Design.h m' = Design.w m' /\ (min_side <= Design.w m')%Z /\
  ((Design.w m' <= Qt.rwidth (Gui.core_rect self))%Z ->
   (Design.w m' <= Qt.rheight (Gui.core_rect self))%Z ->
   (Qt.left (Gui.core_rect self) <= Design.x m' /\
    Design.x m' + Design.w m' <= Qt.right (Gui.core_rect self) /\
    Qt.top (Gui.core_rect self) <= Design.y m' /\
    Design.y m' + Design.h m' <= Qt.bottom (Gui.core_rect self))%Z).

End Autoscale.

(** ** Geometric predicates *)
Module Geometry.

(** The order N, S, W, E in which the sides are compared. *)
Definition priority (side : Design.Side) : nat :=
  match side with
  | Design.SideN => 0 | Design.SideS => 1 | Design.SideW => 2 | Design.SideE => 3
  end.

(** The distance from a point to the line of a Core side. *)
Definition distance (core : Qt.QRectF) (cx cy : Q) (side : Design.Side) : Q :=
  match side with
  | Design.SideN => Qabs (cy - inject_Z (Qt.top core))
  | Design.SideS => Qabs (cy - inject_Z (Qt.bottom core))
  | Design.SideW => Qabs (cx - inject_Z (Qt.left core))
  | Design.SideE => Qabs (cx - inject_Z (Qt.right core))
  end.




(** The rectangle grown by the halo on its four sides. *)
Definition expand (halo : Z) (r : Qt.QRectF) : Qt.QRectF :=
  Qt.adjusted r (- halo) (- halo) halo halo.

(** Two rectangles of positive extent share interior points. *)
Definition overlap (a b : Qt.QRectF) : Prop :=
  (Qt.left a < Qt.right b /\ Qt.left b < Qt.right a /\
   Qt.top a < Qt.bottom b /\ Qt.top b < Qt.bottom a)%Z.



(** No two modules of the design come nearer than twice the halo: the
    expanded rectangles of different entries do not intersect. *)
Definition halo_clear (modules : list Design.Module_) : Prop :=
  forall (i j : nat) (mi mj : Design.Module_),
    i <> j -> modules !! i = Some mi -> modules !! j = Some mj ->
    Qt.intersects (expand Gui.HALO_PX (Gui.module_rect mi))
                  (expand Gui.HALO_PX (Gui.module_rect mj)) = false.

(** Twice the distance from the centre of a square of integer position
    and size to the line of a Core side. *)
Definition twice_distance (core : Qt.QRectF) (size px py : Z) (side : Design.Side) : Z :=
  match side with
  | Design.SideN => Z.abs (2 * py + size - 2 * Qt.top core)
  | Design.SideS => Z.abs (2 * py + size - 2 * Qt.bottom core)
  | Design.SideW => Z.abs (2 * px + size - 2 * Qt.left core)
  | Design.SideE => Z.abs (2 * px + size - 2 * Qt.right core)
  end.

End Geometry.

(** ** Keys of the weight tables *)
Module Tables.

(** The key under which the pair of the double loop is stored. *)
Definition key (ab : string * string) : string * string :=
  Gui._pair (fst ab) (snd ab).


(** The key of a pin along its side: from the left end of the Core on N
    and S, from the bottom end on E and W. *)
Definition along_key (self : Gui.Main) (it : Gui.PinItem) : Z :=
  match Gui._infer_pin_side self it with
  | Design.SideN | Design.SideS =>
      (Py.int (fst (Gui.pin_pos it)) - Qt.left (Gui.core_rect self))%Z
  | _ => (Qt.bottom (Gui.core_rect self) - Py.int (snd (Gui.pin_pos it)))%Z
  end.

(** The pins whose inferred side is [side], in the order of the
    dictionary, each with its key. *)
Definition entries_of_side (self : Gui.Main) (side : Design.Side) : list (string * Z) :=
  omap (fun '(name, it) =>
          if decide (Gui._infer_pin_side self it = side)
          then Some (name, along_key self it) else None)
       (Gui.pin_items self).

(** The bit names of the pins of a group, bus by bus. *)
Definition bus_names (ports : list Design.Port) (pins : list (string * Z)) : list string :=
  flat_map (fun '(name, _) => Gui._expand_bus name (Gui.port_width ports name)) pins.


(** No dot in a name. *)
Fixpoint dotless (s : string) : bool :=
  match s with
  | EmptyString => true
  | String c r => negb (Ascii.eqb c "."%char) && dotless r
  end.

End Tables.

(** ** The specification's wording, where it is compared with the code *)
Module Claimed.

(** Rounding to the nearest integer, a tie going away from zero. *)
Definition round_half_away (q : Q) : Z :=
  if Qle_bool 0 q then Qfloor (q + (1 # 2))%Q
  else (- Qfloor (- q + (1 # 2))%Q)%Z.

(** [snap(v, grid) -> round(v/grid) * grid], half away from zero. *)
Definition snap (v : Q) (g : Z) : Z :=
  (round_half_away (v / inject_Z g)%Q * g)%Z.


(** A module rectangle inside the Core. *)
Definition within (core r : Qt.QRectF) : Prop :=
  (Qt.left core <= Qt.left r /\ Qt.right r <= Qt.right core /\
   Qt.top core <= Qt.top r /\ Qt.bottom r <= Qt.bottom core)%Z.

(** Offsets that are strictly increasing in emission order. *)
Definition strictly_increasing (offs : list Z) : Prop :=
  forall (i j : nat) (a b : Z),
    (i < j)%nat -> offs !! i = Some a -> offs !! j = Some b -> (a < b)%Z.





(** The greatest and the least value of a list. *)
Definition is_max (m : Q) (vs : list Q) : Prop :=
  (exists v, v ∈ vs /\ (v == m)%Q) /\ forall v, v ∈ vs -> (v <= m)%Q.

Definition is_min (m : Q) (vs : list Q) : Prop :=
  (exists v, v ∈ vs /\ (v == m)%Q) /\ forall v, v ∈ vs -> (m <= v)%Q.

(** The sum of a list of lengths. *)
Definition sum_Q (vs : list Q) : Q := fold_right Qplus 0%Q vs.

(** An endpoint of a bit: a cell port connected to the bit, or a top-level
    port that lists it. *)
Definition bit_endpoint (topm : Ingest.YosysModule) (b : Ingest.bit) (ep : string) : Prop :=
  (exists inst cobj port conn_bits,
      (inst, cobj) ∈ Ingest.cells topm /\
      (port, conn_bits) ∈ Ingest.connections cobj /\
      b ∈ conn_bits /\ ep = (inst ++ "." ++ port)%string) \/
  (exists pname pobj,
      (pname, pobj) ∈ Ingest.ym_ports topm /\
      b ∈ Ingest.port_bits pobj /\ ep = ("top." ++ pname)%string).

(** The centre of an item of the given width and height standing at
    [p]. *)
Definition centre (p : Qt.QPointF) (width height : Z) : Q * Q :=
  ((fst p + inject_Z width / 2)%Q, (snd p + inject_Z height / 2)%Q).

End Claimed.

(** ** Concrete designs *)
Module Examples.

Definition core_200 : Qt.QRectF := Qt.mkRect 40 40 200 200.

(** A pin of 10 pixels on a grid of 20 around [core_200]. *)
Definition pin_a : Gui.PinItem := Gui.mkPin "a" 10 20 core_200 (0%Q, 0%Q).

(** A block wider than [core_200], alone in the design. *)
Definition wide_module : Design.Module_ :=
  Design.mkModule "u1" "blk" 300%float 300 50 "N" 40 40.
Definition wide_block : Gui.BlockItem :=
  Gui.mkBlock 0 300 50 (40%Q, 40%Q) 20 core_200 true.

(** Two blocks of 40 by 40 next to each other in [core_200]. *)
Definition u1 : Design.Module_ := Design.mkModule "u1" "blk" 300%float 40 40 "N" 40 40.
Definition u2 : Design.Module_ := Design.mkModule "u2" "blk" 300%float 40 40 "N" 100 40.
Definition block_u1 : Gui.BlockItem := Gui.mkBlock 0 40 40 (40%Q, 40%Q) 20 core_200 true.

(** A die of 120 by 120 with a Core of 40 by 40, a grid of 20, and one
    port of four bits whose pin sits on the north edge. *)
Definition pin_bus : Gui.PinItem :=
  Gui.mkPin "a" 10 20 (Qt.mkRect 40 40 40 40) (40%Q, 30%Q).
Definition main_bus : Gui.Main :=
  Gui.mkMain 20 120 120 40 [] [] [Design.mkPort "a" "in" (Some 4%Z)] ∅
             [("a"%string, pin_bus)].


(** Two blocks of 10 by 10 whose centres are (0, 0) and (10, 6). *)
Definition main_two : Gui.Main :=
  Gui.mkMain 20 1000 1000 40 [] [] []
    (<["a"%string := Gui.mkBlock 0 10 10 ((-5)%Q, (-5)%Q) 20 core_200 true]>
       (<["b"%string := Gui.mkBlock 1 10 10 (5%Q, 1%Q) 20 core_200 true]> ∅))
    [].

(** A netlist with two cells [u1] and [u2] whose module types carry the
    area hints 100 and 400, a clock port that drives both, and a net
    [n3] that reaches one endpoint only. *)
Definition netlist : list (string * Ingest.YosysModule) :=
  [ ("top"%string,
     Ingest.mkYosysModule
       [ ("clk"%string, Ingest.mkPortObj (Some "input"%string) [inl 2%Z]) ]
       [ ("u1"%string,
          Ingest.mkCell "A" [ ("d"%string, [inl 2%Z]); ("q"%string, [inl 3%Z]) ]);
         ("u2"%string,
          Ingest.mkCell "B" [ ("d"%string, [inl 2%Z]); ("q"%string, [inl 4%Z]) ]) ]
       [ ("clk"%string, [inl 2%Z]); ("n3"%string, [inl 3%Z]) ]
       None);
    ("A"%string, Ingest.mkYosysModule [] [] [] (Some 100%float));
    ("B"%string, Ingest.mkYosysModule [] [] [] (Some 400%float)) ].

Definition netlist_top : Ingest.YosysModule :=
  default (Ingest.mkYosysModule [] [] [] None) (Py.dict_get netlist "top").

(** A die of 280 by 280 whose Core is [core_200], with the blocks [u1]
    and [u2] and one port of four bits on the north edge. *)
Definition main_floor : Gui.Main :=
  Gui.mkMain 20 280 280 40 [u1; u2] [] [Design.mkPort "a" "in" (Some 4%Z)] ∅
             [("a"%string, Gui.mkPin "a" 10 20 core_200 (40%Q, 30%Q))].

(** The window of [main_floor] with the blocks of its two modules. *)
Definition main_auto : Gui.Main :=
  Gui.mkMain 20 280 280 40 [u1; u2] [] [] 
    (<["u1"%string := Gui.mkBlock 0 40 40 (40%Q, 40%Q) 20 core_200 true]>
       (<["u2"%string := Gui.mkBlock 1 40 40 (100%Q, 40%Q) 20 core_200 true]> ∅))
    [].

(** Two blocks of 70 by 70 in [core_200]; the first is stored at an
    abscissa of 45, off the grid of 20.  [block_new] is its block as the
    constructor starts, [block_off] the constructed block, which stands
    at the snapped position. *)
Definition u1_off : Design.Module_ := Design.mkModule "u1" "blk" 300%float 70 70 "N" 45 40.
Definition u2_far : Design.Module_ := Design.mkModule "u2" "blk" 300%float 70 70 "N" 160 40.
Definition block_new : Gui.BlockItem := Gui.mkBlock 0 70 70 (0%Q, 0%Q) 20 core_200 false.
Definition block_off : Gui.BlockItem := Gui.mkBlock 0 70 70 (40%Q, 40%Q) 20 core_200 true.

(** The window of [main_bus] with the pin as the GUI sizes it for a
    grid of 20: a square of 16, flush above the north edge. *)
Definition main_bus16 : Gui.Main :=
  Gui.mkMain 20 120 120 40 [] [] [Design.mkPort "a" "in" (Some 4%Z)] ∅
             [("a"%string, Gui.mkPin "a" 16 20 (Qt.mkRect 40 40 40 40) (40%Q, 24%Q))].

(** A block of 10 by 10 whose centre is (0, 0) and a pin of 4 by 4 whose
    centre is (10, 6). *)
Definition main_pin : Gui.Main :=
  Gui.mkMain 20 1000 1000 40 [] [] []
    (<["a"%string := Gui.mkBlock 0 10 10 ((-5)%Q, (-5)%Q) 20 core_200 true]> ∅)
    [("p"%string, Gui.mkPin "p" 4 20 core_200 (8%Q, 4%Q))].

End Examples.

(** * Properties *)

(** ** Python's [round] *)

Lemma round_cases (q : Q) :
  let n := Qnum q in
  let d := Z.pos (Qden q) in
  (2 * (n mod d) < d /\ Py.round q = n / d)%Z \/
  (d < 2 * (n mod d) /\ Py.round q = n / d + 1)%Z \/
  (2 * (n mod d) = d /\ Z.even (Py.round q) = true /\
   (Py.round q = n / d \/ Py.round q = n / d + 1))%Z.
Proof.
  intros n d. unfold Py.round. fold n d.
  destruct (Z.compare_spec (2 * (n mod d)) d) as [He|Hl|Hg].
  - right; right. split; [exact He|].
    destruct (Z.even (n / d)) eqn:Hev.
    + split; [exact Hev | left; reflexivity].
    + split; [| right; reflexivity].
      rewrite Z.even_add, Hev. reflexivity.
  - left. split; [exact Hl | reflexivity].
  - right; left. split; [lia | reflexivity].
Qed.

(** The rounded value is within one half of the argument. *)
Lemma round_nearest (q : Q) : (Qabs (q - inject_Z (Py.round q)) <= 1 # 2)%Q.
Proof.
  destruct q as [a b].
  pose proof (round_cases (a # b)) as H. cbn [Qnum Qden] in H.
  pose proof (Z.div_mod a (Z.pos b) ltac:(lia)) as Hdm.
  pose proof (Z.mod_pos_bound a (Z.pos b) ltac:(lia)) as Hb.
  set (n := Py.round (a # b)) in *.
  unfold Qle, Qabs, Qminus, Qplus, Qopp, inject_Z. cbn [Qnum Qden].
  rewrite Pos.mul_1_r.
  destruct H as [[H1 H2]|[[H1 H2]|[H1 [_ [H2|H2]]]]]; rewrite H2; nia.
Qed.

(** At a tie the rounded value is the even neighbour. *)
Lemma round_tie_even (q : Q) :
  (Qabs (q - inject_Z (Py.round q)) == 1 # 2)%Q -> Z.even (Py.round q) = true.
Proof.
  destruct q as [a b].
  pose proof (round_cases (a # b)) as H. cbn [Qnum Qden] in H.
  pose proof (Z.div_mod a (Z.pos b) ltac:(lia)) as Hdm.
  pose proof (Z.mod_pos_bound a (Z.pos b) ltac:(lia)) as Hb.
  set (n := Py.round (a # b)) in *.
  unfold Qeq, Qabs, Qminus, Qplus, Qopp, inject_Z. cbn [Qnum Qden].
  rewrite Pos.mul_1_r. intros Htie.
  destruct H as [[H1 H2]|[[H1 H2]|[H1 [Hev _]]]]; [exfalso; nia | exfalso; nia | exact Hev].
Qed.

(** An integer rounds to itself. *)
Lemma round_inject_Z (z : Z) : Py.round (inject_Z z) = z.
Proof.
  unfold Py.round, inject_Z. cbn [Qnum Qden].
  rewrite Z.mod_1_r, Z.div_1_r. reflexivity.
Qed.

(** ** Grid snapping *)

(** C3, as the specification words it, fails: a ratio of exactly one half
    is rounded to 0 by the code, not away from zero to 1. *)
Lemma snap_half_away_counterexample :
  Gui._snap (10 # 1) 20 = Some 0%Z /\ Claimed.snap (10 # 1) 20 = 20%Z.
Proof. split; reflexivity. Qed.

(** The ratio of the code is a binary64 quotient: beyond 2^53 it is
    rounded before [round] sees it (here to ...994, the exact ratio being
    ...993 and a third), which is why the snapped value is described for
    values below 2^52 only. *)
Lemma binary64_quotient_is_rounded :
  Ingest.round_float (27021597764222980 / 3)%float = Some 9007199254740994%Z /\
  Py.round (27021597764222980 # 3) = 9007199254740993%Z.
Proof. split; vm_compute; reflexivity. Qed.

(** C3, amended: for a value below 2^52 in magnitude and a positive grid
    below 2^52, [_snap v g] is [n * g] where [n] is the integer nearest
    to the ratio [v / g], and at a tie (the ratio exactly halfway between
    two integers) [n] is the even one. *)
Theorem snap_round_half_even (v : Q) (g : Z)
    (Hv : (Qabs v < inject_Z (2 ^ 52))%Q) (Hg : (0 < g < 2 ^ 52)%Z) :
  exists n : Z,
    Gui._snap v g = Some (n * g)%Z /\
    (Qabs (v / inject_Z g - inject_Z n) <= 1 # 2)%Q /\
    ((Qabs (v / inject_Z g - inject_Z n) == 1 # 2)%Q -> Z.even n = true).
Proof.
  exists (Py.round (v / inject_Z g)). split; [| split].
  - unfold Gui._snap. destruct (Z.eqb_spec g 0) as [->|_]; [lia | reflexivity].
  - apply round_nearest.
  - apply round_tie_even.
Qed.

Lemma snap_round_half_even_witness :
  (Qabs (30 # 1) < inject_Z (2 ^ 52))%Q /\ (0 < 20 < 2 ^ 52)%Z /\
  exists n : Z,
    Gui._snap (30 # 1) 20 = Some (n * 20)%Z /\
    (Qabs ((30 # 1) / inject_Z 20 - inject_Z n) <= 1 # 2)%Q /\
    ((Qabs ((30 # 1) / inject_Z 20 - inject_Z n) == 1 # 2)%Q -> Z.even n = true).
Proof.
  assert (Hv : (Qabs (30 # 1) < inject_Z (2 ^ 52))%Q) by reflexivity.
  assert (Hg : (0 < 20 < 2 ^ 52)%Z) by (split; reflexivity).
  split; [exact Hv |]. split; [exact Hg |].
  exact (snap_round_half_even (30 # 1) 20 Hv Hg).
Defined.


(** ** Perimeter projection *)

(** The chosen side is a nearest one, and strictly nearer than every side
    that comes before it in the order N, S, W, E. *)
Lemma nearest_side_spec (core : Qt.QRectF) (cx cy : Q) (s' : Design.Side) :
  let s := Gui.nearest_side core cx cy in
  (Geometry.distance core cx cy s <= Geometry.distance core cx cy s')%Q /\
  ((Geometry.priority s' < Geometry.priority s)%nat ->
   (Geometry.distance core cx cy s < Geometry.distance core cx cy s')%Q).
Proof.
  unfold Gui.nearest_side, Gui.side_distances. cbn [hd tl Py.min_by_key snd fst].
  repeat (destruct (Qlt_le_dec _ _); cbn [hd tl Py.min_by_key snd fst]);
    destruct s'; cbn [Geometry.distance Geometry.priority];
    (split; [lra | intros Hp; try lia; lra]).
Qed.

Lemma snap_some (v : Q) (g : Z) :
  g <> 0%Z -> Gui._snap v g = Some (Py.round (v / inject_Z g) * g)%Z.
Proof.
  intros Hg. unfold Gui._snap. destruct (Z.eqb_spec g 0); [contradiction | reflexivity].
Qed.






(** ** Placement validator *)

(** Qt's test on rectangles of positive extent is the overlap of their
    interiors. *)
Lemma intersects_overlap (a b : Qt.QRectF) :
  (0 < Qt.rwidth a)%Z -> (0 < Qt.rheight a)%Z ->
  (0 < Qt.rwidth b)%Z -> (0 < Qt.rheight b)%Z ->
  Qt.intersects a b = true <-> Geometry.overlap a b.
Proof.
  intros Hwa Hha Hwb Hhb.
  unfold Qt.intersects, Qt.span, Geometry.overlap, Qt.left, Qt.right, Qt.top, Qt.bottom.
  repeat match goal with
         | |- context [(?u <? ?v)%Z] => destruct (Z.ltb_spec u v); [lia |]
         end.
  repeat match goal with
         | |- context [(?u =? ?v)%Z] => destruct (Z.eqb_spec u v); [lia |]
         | |- context [(?u <=? ?v)%Z] => destruct (Z.leb_spec u v)
         end; cbn; split; intros; try lia; discriminate.
Qed.

(** [_occupied] is false exactly when no other module's expanded
    rectangle meets the expanded candidate. *)
Lemma occupied_false (modules : list Design.Module_) (rect : Qt.QRectF)
    (inst : string) (halo : Z) :
  Gui._occupied modules rect (Some inst) halo = false <->
  forall m, m ∈ modules -> Design.inst m <> inst ->
    Qt.intersects (Geometry.expand halo rect)
                  (Geometry.expand halo (Gui.module_rect m)) = false.
Proof.
  unfold Gui._occupied, Geometry.expand.
  induction modules as [|m0 ms IH]; cbn [existsb].
  - split; [intros _ m Hm; inversion Hm | reflexivity].
  - rewrite orb_false_iff, IH. split.
    + intros [H0 Hms] m Hm Hne. apply elem_of_cons in Hm as [->|Hm].
      * rewrite bool_decide_eq_false_2 in H0 by congruence. exact H0.
      * apply Hms; assumption.
    + intros H. split.
      * destruct (bool_decide (Some (Design.inst m0) = Some inst)) eqn:Hd; [reflexivity|].
        apply bool_decide_eq_false_1 in Hd.
        apply H; [left | congruence].
      * intros m Hm Hne. apply H; [right; exact Hm | exact Hne].
Qed.

(** C5, as worded, fails for a block larger than the Core: the clamp
    prefers the far bound, and the accepted rectangle leaves the Core. *)
Lemma accepted_move_counterexample :
  Gui.new_rect Examples.wide_block (40 # 1, 40 # 1) = Some (Qt.mkRect (-60) 40 300 50) /\
  Gui.can_place_fn [Examples.wide_module] (Qt.mkRect (-60) 40 300 50) "u1" = true /\
  Gui.itemChange_ItemPositionChange Examples.wide_block Examples.wide_module
      (Gui.can_place_fn [Examples.wide_module]) (40 # 1, 40 # 1)
    = Some (inject_Z (-60), inject_Z 40) /\
  ~ Claimed.within (Gui.block_core_rect Examples.wide_block) (Qt.mkRect (-60) 40 300 50).
Proof.
  repeat split; try reflexivity.
  unfold Claimed.within. cbn. lia.
Qed.

(** C5, amended: every move the validator accepts yields the snapped and
    clamped rectangle, whose expansion by the halo of 4 meets the
    expanded rectangle of no other module; the rectangle lies within the
    Core from left to right when the block is no wider than the Core, and
    from top to bottom when it is no higher. *)
Theorem accepted_move_within_core_and_clear
    (modules : list Design.Module_) (it : Gui.BlockItem)
    (module : Design.Module_) (value : Qt.QPointF)
    (Hgrid : Gui.block_grid it <> 0%Z) :
  exists r : Qt.QRectF,
    Gui.new_rect it value = Some r /\
    Qt.rwidth r = Gui.rect_w it /\ Qt.rheight r = Gui.rect_h it /\
    (Gui.can_place_fn modules r (Design.inst module) = true ->
     Gui.itemChange_ItemPositionChange it module (Gui.can_place_fn modules) value
       = Some (inject_Z (Qt.rx r), inject_Z (Qt.ry r)) /\
     ((Gui.rect_w it <= Qt.rwidth (Gui.block_core_rect it))%Z ->
      (Qt.left (Gui.block_core_rect it) <= Qt.left r /\
       Qt.right r <= Qt.right (Gui.block_core_rect it))%Z) /\
     ((Gui.rect_h it <= Qt.rheight (Gui.block_core_rect it))%Z ->
      (Qt.top (Gui.block_core_rect it) <= Qt.top r /\
       Qt.bottom r <= Qt.bottom (Gui.block_core_rect it))%Z) /\
     ((Gui.rect_w it <= Qt.rwidth (Gui.block_core_rect it))%Z ->
      (Gui.rect_h it <= Qt.rheight (Gui.block_core_rect it))%Z ->
      Claimed.within (Gui.block_core_rect it) r) /\
     forall m, m ∈ modules -> Design.inst m <> Design.inst module ->
       Qt.intersects (Geometry.expand Gui.HALO_PX r)
                     (Geometry.expand Gui.HALO_PX (Gui.module_rect m)) = false).
Proof.
  unfold Gui.itemChange_ItemPositionChange, Gui.new_rect.
  rewrite !(snap_some _ _ Hgrid). cbn [mbind option_bind].
  eexists. split; [reflexivity |]. cbn [Qt.rwidth Qt.rheight Qt.rx Qt.ry].
  split; [reflexivity |]. split; [reflexivity |].
  intros Hok. rewrite Hok. cbn [negb]. split; [reflexivity |].
  unfold Claimed.within, Qt.left, Qt.right, Qt.top, Qt.bottom in *.
  cbn [Qt.rwidth Qt.rheight Qt.rx Qt.ry].
  split; [lia |]. split; [lia |]. split; [lia |].
  unfold Gui.can_place_fn in Hok. apply negb_true_iff in Hok.
  apply occupied_false. exact Hok.
Qed.

Lemma int_inject_Z (z : Z) : Py.int (inject_Z z) = z.
Proof.
  unfold Py.int. destruct (Qle_bool 0 (inject_Z z)).
  - apply Qfloor_Z.
  - apply Qceiling_Z.
Qed.

Lemma point_eqb_sym (p q : Qt.QPointF) : Qt.point_eqb p q = Qt.point_eqb q p.
Proof.
  unfold Qt.point_eqb.
  assert (Hs : forall a b, Qeq_bool a b = Qeq_bool b a).
  { intros a b. destruct (Qeq_bool a b) eqn:H1, (Qeq_bool b a) eqn:H2; try reflexivity.
    - apply Qeq_bool_iff in H1. symmetry in H1. apply Qeq_bool_iff in H1. congruence.
    - apply Qeq_bool_iff in H2. symmetry in H2. apply Qeq_bool_iff in H2. congruence. }
  rewrite (Hs (fst p)), (Hs (snd p)). reflexivity.
Qed.

Lemma set_xy_same (m : Design.Module_) : Design.set_xy m (Design.x m) (Design.y m) = m.
Proof. destruct m; reflexivity. Qed.

(** C6, the code at the failing input.  The module [u1] is stored at
    (45, 40); the constructor's [setPos] shows its block at the snapped
    (40, 40) and, the block not yet being constructed, leaves the
    dictionary alone.  A drag to (110, 40) snaps to (120, 40), collides
    with [u2] and is rejected; [itemChange] answers the stored (45, 40),
    so the block does not keep its position but moves to a place off the
    grid that no validation ever accepted. *)
Theorem rejected_move_jumps_to_stored_position :
  Gui.setPos [Examples.u1_off; Examples.u2_far] Examples.block_new
             (inject_Z 45, inject_Z 40)
    = Some ([Examples.u1_off; Examples.u2_far],
            Gui.set_pos Examples.block_new (inject_Z 40, inject_Z 40)) /\
  Gui.new_rect Examples.block_off (110 # 1, 40 # 1) = Some (Qt.mkRect 120 40 70 70) /\
  Gui.can_place_fn [Examples.u1_off; Examples.u2_far] (Qt.mkRect 120 40 70 70) "u1"
    = false /\
  Gui.setPos [Examples.u1_off; Examples.u2_far] Examples.block_off (110 # 1, 40 # 1)
    = Some ([Examples.u1_off; Examples.u2_far],
            Gui.set_pos Examples.block_off (inject_Z 45, inject_Z 40)) /\
  Qt.point_eqb (Gui.pos Examples.block_off) (inject_Z 45, inject_Z 40) = false.
Proof. repeat split; vm_compute; reflexivity. Qed.

(** A move rejected for a collision answers the position stored in the
    module dictionary; the dictionaries are left as they were, and the
    block stays where it is or goes to that stored position; it stays
    whenever it already stands at the stored position. *)
Theorem rejected_move_returns_stored_position
    (modules : list Design.Module_) (it : Gui.BlockItem)
    (module : Design.Module_) (value : Qt.QPointF) (r : Qt.QRectF)
    (Hmod : modules !! Gui.module_ref it = Some module)
    (Hrect : Gui.new_rect it value = Some r)
    (Hrej : Gui.can_place_fn modules r (Design.inst module) = false) :
  let known_good := (inject_Z (Design.x module), inject_Z (Design.y module)) in
  Gui.itemChange_ItemPositionChange it module (Gui.can_place_fn modules) value
    = Some known_good /\
  exists it' : Gui.BlockItem,
    Gui.setPos modules it value = Some (modules, it') /\
    (it' = it \/ it' = Gui.set_pos it known_good) /\
    (Qt.point_eqb (Gui.pos it) known_good = true -> it' = it).
Proof.
  intros known_good.
  assert (Hchange : Gui.itemChange_ItemPositionChange it module
                      (Gui.can_place_fn modules) value = Some known_good).
  { unfold Gui.itemChange_ItemPositionChange. rewrite Hrect. cbn [mbind option_bind].
    rewrite Hrej. reflexivity. }
  split; [exact Hchange |].
  unfold Gui.setPos.
  destruct (Qt.point_eqb value (Gui.pos it)).
  { exists it. split; [reflexivity |]. split; [left; reflexivity | reflexivity]. }
  rewrite Hmod. cbn [mbind option_bind]. rewrite Hchange. cbn [mbind option_bind].
  destruct (Qt.point_eqb known_good (Gui.pos it)) eqn:Hsame.
  { exists it. split; [reflexivity |]. split; [left; reflexivity | reflexivity]. }
  exists (Gui.set_pos it known_good). split; [| split].
  - f_equal. f_equal.
    unfold Gui.itemChange_ItemPositionHasChanged.
    cbn [Gui.set_pos Gui._constructed Gui.module_ref Gui.pos].
    destruct (Gui._constructed it); [| reflexivity].
    rewrite Hmod. unfold known_good. cbn [fst snd].
    rewrite !int_inject_Z, set_xy_same.
    apply list_insert_id. exact Hmod.
  - right; reflexivity.
  - rewrite point_eqb_sym, Hsame. discriminate.
Qed.


Lemma accepted_move_within_core_and_clear_witness :
  Gui.block_grid Examples.block_u1 <> 0%Z /\
  exists r : Qt.QRectF,
    Gui.new_rect Examples.block_u1 (190 # 1, 400 # 1) = Some r /\
    Gui.can_place_fn [Examples.u1; Examples.u2] r (Design.inst Examples.u1) = true /\
    Claimed.within (Gui.block_core_rect Examples.block_u1) r /\
    forall m, m ∈ [Examples.u1; Examples.u2] -> Design.inst m <> Design.inst Examples.u1 ->
      Qt.intersects (Geometry.expand Gui.HALO_PX r)
                    (Geometry.expand Gui.HALO_PX (Gui.module_rect m)) = false.
Proof.
  assert (Hg : Gui.block_grid Examples.block_u1 <> 0%Z) by (cbn; lia).
  split; [exact Hg |].
  destruct (accepted_move_within_core_and_clear
              [Examples.u1; Examples.u2] Examples.block_u1 Examples.u1
              (190 # 1, 400 # 1) Hg) as (r & Hr & Hrw & Hrh & Hacc).
  exists r. split; [exact Hr |].
  assert (Hr' : Gui.new_rect Examples.block_u1 (190 # 1, 400 # 1)
                = Some (Qt.mkRect 200 200 40 40)) by reflexivity.
  rewrite Hr' in Hr. injection Hr as <-.
  assert (Hok : Gui.can_place_fn [Examples.u1; Examples.u2] (Qt.mkRect 200 200 40 40)
                  (Design.inst Examples.u1) = true) by reflexivity.
  split; [exact Hok |].
  destruct (Hacc Hok) as (_ & _ & _ & Hin & Hclear).
  split; [apply Hin; vm_compute; discriminate | exact Hclear].
Defined.

Lemma rejected_move_returns_stored_position_witness :
  [Examples.u1; Examples.u2] !! Gui.module_ref Examples.block_u1 = Some Examples.u1 /\
  Gui.new_rect Examples.block_u1 (90 # 1, 40 # 1) = Some (Qt.mkRect 80 40 40 40) /\
  Gui.can_place_fn [Examples.u1; Examples.u2] (Qt.mkRect 80 40 40 40)
    (Design.inst Examples.u1) = false /\
  Gui.itemChange_ItemPositionChange Examples.block_u1 Examples.u1
      (Gui.can_place_fn [Examples.u1; Examples.u2]) (90 # 1, 40 # 1)
    = Some (inject_Z 40, inject_Z 40).
Proof.
  split; [reflexivity |]. split; [reflexivity |]. split; [reflexivity |].
  apply (rejected_move_returns_stored_position
           [Examples.u1; Examples.u2] Examples.block_u1 Examples.u1
           (90 # 1, 40 # 1) (Qt.mkRect 80 40 40 40));
    reflexivity.
Defined.

(** ** Pin placement offsets *)

(** With one pixel to the micrometre the conversion keeps an integer. *)
Lemma to_um_id (v : Z) : Gui.to_um v = v.
Proof.
  unfold Gui.to_um, Gui.PX_TO_UM.
  change (inject_Z v * 1)%Q with ((v * 1) # 1)%Q.
  unfold Py.round. cbn [Qnum Qden].
  rewrite Z.mod_1_r, Z.div_1_r. change (2 * 0 ?= 1)%Z with Lt. cbv iota. lia.
Qed.


Section Offsets.

Variables (cap step : Z).
Hypothesis Hcap : (0 <= cap)%Z.
Hypothesis Hstep : (1 <= step)%Z.






End Offsets.





Lemma StronglySorted_lookup {A : Type} (R : A -> A -> Prop) (l : list A) :
  StronglySorted R l ->
  forall (i j : nat) (a b : A),
    (i < j)%nat -> l !! i = Some a -> l !! j = Some b -> R a b.
Proof.
  induction 1 as [|x l Hs IH Hall]; intros i j a b Hij Hi Hj.
  - discriminate.
  - destruct j as [|j]; [lia |]. cbn in Hj.
    destruct i as [|i]; cbn in Hi.
    + injection Hi as <-.
      rewrite Forall_forall in Hall. apply Hall.
      eapply list_elem_of_lookup_2. exact Hj.
    + eapply IH; [| exact Hi | exact Hj]. lia.
Qed.

(** C1, the code at the failing input: a bus of four bits on a side of
    length 40 with a step of 20 gets the offsets 0, 20, 40 and 40 again.
    The offset forced for a bit that does not pass the cursor is cut at
    the length of the side, so two bits share an offset, against the
    separation the code announces for the cursor and for the forced
    step. *)
Lemma pin_offsets_counterexample :
  Gui.offsets_of_side Examples.main_bus Design.SideN = [0; 20; 40; 40]%Z /\
  Gui.offsets_of_side Examples.main_bus16 Design.SideN = [0; 20; 40; 40]%Z /\
  map Gui.bit_name (Gui._write_pin_placement_cfg Examples.main_bus16)
    = ["a[0]"; "a[1]"; "a[2]"; "a[3]"]%string /\
  ~ Claimed.strictly_increasing (Gui.offsets_of_side Examples.main_bus Design.SideN) /\
  ~ Claimed.strictly_increasing (Gui.offsets_of_side Examples.main_bus16 Design.SideN).
Proof.
  assert (H : Gui.offsets_of_side Examples.main_bus Design.SideN = [0; 20; 40; 40]%Z)
    by (vm_compute; reflexivity).
  assert (H' : Gui.offsets_of_side Examples.main_bus16 Design.SideN = [0; 20; 40; 40]%Z)
    by (vm_compute; reflexivity).
  split; [exact H |]. split; [exact H' |]. split; [vm_compute; reflexivity |].
  rewrite H, H'.
  split; intros Hinc;
    specialize (Hinc 2%nat 3%nat 40%Z 40%Z ltac:(lia) eq_refl eq_refl); lia.
Qed.



(** ** Connectivity aggregation *)

(** The order of strings. *)
Lemma ltb_asym (a b : string) : String.ltb a b = true -> String.ltb b a = false.
Proof.
  unfold String.ltb. rewrite (String.compare_antisym a b).
  destruct (String.compare b a); cbn; congruence.
Qed.

Lemma ltb_total (a b : string) :
  String.ltb a b = false -> String.ltb b a = false -> a = b.
Proof.
  unfold String.ltb. rewrite (String.compare_antisym a b).
  destruct (String.compare b a) eqn:Hc; cbn; try congruence.
  intros _ _. symmetry. apply String.compare_eq_iff. exact Hc.
Qed.

(** [_pair] forgets the order of its arguments, and nothing else. *)
Lemma pair_sym (a b : string) : Gui._pair a b = Gui._pair b a.
Proof.
  unfold Gui._pair.
  destruct (String.ltb b a) eqn:Hba, (String.ltb a b) eqn:Hab; try reflexivity.
  - apply ltb_asym in Hba. congruence.
  - rewrite (ltb_total a b Hab Hba). reflexivity.
Qed.









Lemma weight_of_insert (d : gmap (string * string) Z) (k k' : string * string) (v : Z) :
  Gui.weight_of (<[k := v]> d) k' = if decide (k = k') then v else Gui.weight_of d k'.
Proof.
  unfold Gui.weight_of. rewrite lookup_insert.
  destruct (decide (k = k')); reflexivity.
Qed.







(** ** Half-perimeter wirelength *)

Lemma max_list_spec (vs : list Q) :
  forall v : Q, Claimed.is_max (Py.max_list v vs) (v :: vs).
Proof.
  unfold Py.max_list, Claimed.is_max.
  induction vs as [|u vs IH]; intros v; cbn [fold_left].
  - split.
    + exists v. split; [left | reflexivity].
    + intros x Hx. apply list_elem_of_singleton in Hx as ->. apply Qle_refl.
  - destruct (IH (Qmax v u)) as [(x & Hx & Hxe) Hub]. split.
    + apply elem_of_cons in Hx as [->|Hx].
      * destruct (Q.max_spec v u) as [[_ He]|[_ He]].
        -- exists u. split; [right; left |]. rewrite <- Hxe. symmetry. exact He.
        -- exists v. split; [left |]. rewrite <- Hxe. symmetry. exact He.
      * exists x. split; [right; right; exact Hx | exact Hxe].
    + intros w Hw. apply elem_of_cons in Hw as [->|Hx'].
      * eapply Qle_trans; [apply Q.le_max_l | apply Hub; left].
      * apply elem_of_cons in Hx' as [->|Hx'].
        -- eapply Qle_trans; [apply Q.le_max_r | apply Hub; left].
        -- apply Hub. right. exact Hx'.
Qed.

Lemma min_list_spec (vs : list Q) :
  forall v : Q, Claimed.is_min (Py.min_list v vs) (v :: vs).
Proof.
  unfold Py.min_list, Claimed.is_min.
  induction vs as [|u vs IH]; intros v; cbn [fold_left].
  - split.
    + exists v. split; [left | reflexivity].
    + intros x Hx. apply list_elem_of_singleton in Hx as ->. apply Qle_refl.
  - destruct (IH (Qmin v u)) as [(x & Hx & Hxe) Hlb]. split.
    + apply elem_of_cons in Hx as [->|Hx].
      * destruct (Q.min_spec v u) as [[_ He]|[_ He]].
        -- exists v. split; [left |]. rewrite <- Hxe. symmetry. exact He.
        -- exists u. split; [right; left |]. rewrite <- Hxe. symmetry. exact He.
      * exists x. split; [right; right; exact Hx | exact Hxe].
    + intros w Hw. apply elem_of_cons in Hw as [->|Hx'].
      * eapply Qle_trans; [apply Hlb; left | apply Q.le_min_l].
      * apply elem_of_cons in Hx' as [->|Hx'].
        -- eapply Qle_trans; [apply Hlb; left | apply Q.le_min_r].
        -- apply Hlb. right. exact Hx'.
Qed.

Lemma spread_spec (vs : list Q) :
  vs <> [] ->
  exists hi lo : Q,
    Claimed.is_max hi vs /\ Claimed.is_min lo vs /\ Gui.spread vs = (hi - lo)%Q.
Proof.
  destruct vs as [|v vs]; [congruence |]. intros _.
  exists (Py.max_list v vs), (Py.min_list v vs).
  split; [apply max_list_spec |]. split; [apply min_list_spec | reflexivity].
Qed.

(** An endpoint that does not resolve counts for nothing. *)
Lemma points_skip (self : Gui.Main) (eps1 eps2 : list string) (ep : string) :
  Gui.resolve self ep = None ->
  Gui.points self (eps1 ++ ep :: eps2) = Gui.points self (eps1 ++ eps2).
Proof.
  intros Hnone. unfold Gui.points.
  induction eps1 as [|e eps1 IH]; cbn [app omap list_omap].
  - rewrite Hnone. reflexivity.
  - rewrite IH. reflexivity.
Qed.

Lemma fold_total (f : Design.Net -> Q) (l : list Design.Net) :
  forall a : Q,
    (fold_left (fun total net => total + f net) l a == a + Claimed.sum_Q (map f l))%Q.
Proof.
  induction l as [|n l IH]; intros a; cbn [fold_left map Claimed.sum_Q fold_right].
  - lra.
  - rewrite IH. fold (Claimed.sum_Q (map f l)). lra.
Qed.

(** ** Nets of the ingested netlist *)

Lemma leb_compare (a b : string) : String.leb a b = true <-> String.compare a b <> Gt.
Proof. unfold String.leb. destruct (String.compare a b); split; congruence. Qed.

Lemma str_le_lt_eq (a b : string) : Py.str_le a b <-> String_as_OT.lt a b \/ a = b.
Proof.
  unfold Py.str_le. rewrite leb_compare.
  rewrite <- String_as_OT.cmp_lt. unfold String_as_OT.cmp.
  destruct (String.compare a b) eqn:Hc.
  - apply String.compare_eq_iff in Hc. intuition congruence.
  - intuition congruence.
  - split; [congruence |]. intros [H| ->]; [discriminate |].
    assert (String.compare b b = Eq) by (apply String_as_OT.cmp_eq; reflexivity).
    congruence.
Qed.

#[local] Instance str_le_trans : Transitive Py.str_le.
Proof.
  intros a b c. rewrite !str_le_lt_eq.
  intros [H1| ->] [H2| ->]; auto.
  left. eapply String_as_OT.lt_trans; eassumption.
Qed.

#[local] Instance str_le_total : Total Py.str_le.
Proof. intros a b. apply String.leb_total. Qed.

Lemma str_le_ne_lt (a b : string) : Py.str_le a b -> a <> b -> Py.str_lt a b.
Proof.
  unfold Py.str_le, Py.str_lt, String.leb, String.ltb. intros Hle Hne.
  destruct (String.compare a b) eqn:Hc; try congruence.
  apply String.compare_eq_iff in Hc. contradiction.
Qed.

(** [sorted(set(xs))] holds the members of [xs], once each, in strictly
    increasing order. *)
Lemma sorted_set_spec (xs : list string) :
  StronglySorted Py.str_lt (Py.sorted_set xs) /\
  NoDup (Py.sorted_set xs) /\
  forall x, x ∈ Py.sorted_set xs <-> x ∈ xs.
Proof.
  unfold Py.sorted_set.
  pose proof (merge_sort_Permutation Py.str_le (remove_dups xs)) as Hperm.
  pose proof (StronglySorted_merge_sort Py.str_le (remove_dups xs)) as Hsort.
  assert (Hnd : NoDup (merge_sort Py.str_le (remove_dups xs))).
  { rewrite Hperm. apply NoDup_remove_dups. }
  split; [| split].
  - revert Hnd Hsort. generalize (merge_sort Py.str_le (remove_dups xs)).
    intros l Hnd Hs. induction Hs as [|x l Hs IH Hall]; constructor.
    + apply IH. apply NoDup_cons in Hnd. tauto.
    + apply NoDup_cons in Hnd as [Hx _].
      rewrite Forall_forall in *. intros y Hy.
      apply str_le_ne_lt; [apply Hall; exact Hy |].
      intros ->. contradiction.
  - exact Hnd.
  - intros x. rewrite Hperm. apply elem_of_remove_dups.
Qed.

Lemma net_eps_elem (bit_eps : gmap Ingest.bit (list string)) (bits : list Ingest.bit)
    (ep : string) :
  ep ∈ Ingest.net_eps bit_eps bits <->
  exists b, b ∈ bits /\ ep ∈ default [] (bit_eps !! b).
Proof.
  unfold Ingest.net_eps.
  destruct (sorted_set_spec (flat_map (fun b => default [] (bit_eps !! b)) bits))
    as (_ & _ & Hel).
  rewrite Hel, list_elem_of_In, in_flat_map.
  split; intros (b & Hb & Hep); exists b; split;
    first [apply list_elem_of_In; assumption | apply list_elem_of_In; assumption | assumption].
Qed.

(** The table [bit_eps] lists, for every bit, the endpoints found by the
    scan of the cell connections and of the top-level ports. *)
Lemma add_ep_lookup (m : gmap Ingest.bit (list string)) (b b' : Ingest.bit) (ep ep' : string) :
  ep' ∈ default [] (Ingest.add_ep m b ep !! b') <->
  ep' ∈ default [] (m !! b') \/ (b' = b /\ ep' = ep).
Proof.
  unfold Ingest.add_ep. rewrite lookup_insert.
  destruct (decide (b = b')) as [->|Hne]; simpl.
  - rewrite elem_of_app, list_elem_of_singleton. intuition.
  - intuition congruence.
Qed.

Lemma add_conn_lookup (owner : string) (conn : string * list Ingest.bit) (b' : Ingest.bit)
    (ep' : string) :
  forall m : gmap Ingest.bit (list string),
    ep' ∈ default [] (Ingest.add_conn owner m conn !! b') <->
    ep' ∈ default [] (m !! b') \/
    (b' ∈ snd conn /\ ep' = (owner ++ "." ++ fst conn)%string).
Proof.
  unfold Ingest.add_conn. generalize (snd conn) as bits.
  induction bits as [|b bits IH]; intros m; cbn [fold_left].
  - rewrite elem_of_nil. tauto.
  - rewrite IH, add_ep_lookup, elem_of_cons. intuition.
Qed.

Lemma add_conns_lookup (owner : string) (conns : list (string * list Ingest.bit))
    (b' : Ingest.bit) (ep' : string) :
  forall m : gmap Ingest.bit (list string),
    ep' ∈ default [] (fold_left (Ingest.add_conn owner) conns m !! b') <->
    ep' ∈ default [] (m !! b') \/
    exists port conn_bits,
      (port, conn_bits) ∈ conns /\ b' ∈ conn_bits /\ ep' = (owner ++ "." ++ port)%string.
Proof.
  induction conns as [|[port cb] conns IH]; intros m; cbn [fold_left].
  - split; [tauto |]. intros [H|(p & c & H & _)]; [exact H | inversion H].
  - rewrite IH, add_conn_lookup. cbn [fst snd]. split.
    + intros [[H|[Hb ->]]|(p & c & Hin & Hb & ->)].
      * left; exact H.
      * right. exists port, cb. split; [left | split; [exact Hb | reflexivity]].
      * right. exists p, c. split; [right; exact Hin | split; [exact Hb | reflexivity]].
    + intros [H|(p & c & Hin & Hb & ->)]; [left; left; exact H |].
      apply elem_of_cons in Hin as [Heq|Hin].
      * injection Heq as -> ->. left; right. split; [exact Hb | reflexivity].
      * right. exists p, c. split; [exact Hin | split; [exact Hb | reflexivity]].
Qed.

Lemma bit_eps_of_spec (topm : Ingest.YosysModule) (b : Ingest.bit) (ep : string) :
  ep ∈ default [] (Ingest.bit_eps_of topm !! b) <-> Claimed.bit_endpoint topm b ep.
Proof.
  unfold Ingest.bit_eps_of, Claimed.bit_endpoint.
  assert (Hports : forall (ports : list (string * Ingest.PortObj)) m,
    ep ∈ default [] (fold_left
            (fun acc '(pname, pobj) =>
               Ingest.add_conn "top" acc (pname, Ingest.port_bits pobj)) ports m !! b) <->
    ep ∈ default [] (m !! b) \/
    exists pname pobj, (pname, pobj) ∈ ports /\ b ∈ Ingest.port_bits pobj /\
                       ep = ("top." ++ pname)%string).
  { induction ports as [|[pname pobj] ports IH]; intros m; cbn [fold_left].
    - split; [tauto |]. intros [H|(p & c & H & _)]; [exact H | inversion H].
    - rewrite IH, add_conn_lookup. cbn [fst snd]. split.
      + intros [[H|[Hb ->]]|(p & c & Hin & Hb & ->)].
        * left; exact H.
        * right. exists pname, pobj. split; [left | split; [exact Hb | reflexivity]].
        * right. exists p, c. split; [right; exact Hin | split; [exact Hb | reflexivity]].
      + intros [H|(p & c & Hin & Hb & ->)]; [left; left; exact H |].
        apply elem_of_cons in Hin as [Heq|Hin].
        * injection Heq as -> ->. left; right. split; [exact Hb | reflexivity].
        * right. exists p, c. split; [exact Hin | split; [exact Hb | reflexivity]]. }
  assert (Hcells : forall (cells : list (string * Ingest.Cell)) m,
    ep ∈ default [] (fold_left
            (fun acc '(inst, cobj) =>
               fold_left (Ingest.add_conn inst) (Ingest.connections cobj) acc) cells m !! b) <->
    ep ∈ default [] (m !! b) \/
    exists inst cobj port conn_bits,
      (inst, cobj) ∈ cells /\ (port, conn_bits) ∈ Ingest.connections cobj /\
      b ∈ conn_bits /\ ep = (inst ++ "." ++ port)%string).
  { induction cells as [|[inst cobj] cells IH]; intros m; cbn [fold_left].
    - split; [tauto |]. intros [H|(i & c & p & cb & H & _)]; [exact H | inversion H].
    - rewrite IH, add_conns_lookup. split.
      + intros [[H|(p & cb & Hin & Hb & ->)]|(i & c & p & cb & Hin & Hc & Hb & ->)].
        * left; exact H.
        * right. exists inst, cobj, p, cb. split; [left | auto].
        * right. exists i, c, p, cb. split; [right; exact Hin | auto].
      + intros [H|(i & c & p & cb & Hin & Hc & Hb & ->)]; [left; left; exact H |].
        apply elem_of_cons in Hin as [Heq|Hin].
        * injection Heq as -> ->. left; right. exists p, cb. auto.
        * right. exists i, c, p, cb. auto. }
  rewrite Hports, Hcells. rewrite lookup_empty. simpl. rewrite elem_of_nil. tauto.
Qed.

(** A kept net, and when a net is kept. *)
Lemma net_of_spec (bit_eps : gmap Ingest.bit (list string)) (n : string * list Ingest.bit) :
  let eps := Ingest.net_eps bit_eps (snd n) in
  Ingest.net_of bit_eps n
  = if decide (2 <= length eps)%nat
    then Some (Design.mkNet (fst n) eps (Z.of_nat (length eps) - 1)
                 (Some (Z.max 1 (Z.of_nat (length (snd n))))))
    else None.
Proof.
  cbv zeta. unfold Ingest.net_of.
  destruct (Nat.leb_spec 2 (length (Ingest.net_eps bit_eps (snd n)))).
  - rewrite decide_True by lia. reflexivity.
  - rewrite decide_False by lia. reflexivity.
Qed.

Lemma build_design_nets_out (modules : list (string * Ingest.YosysModule)) (top : string)
    (die_w die_h grid core_margin : Z) (max_side_frac : float) (min_side_px : Z)
    (topm : Ingest.YosysModule) (d : Ingest.DesignOut) :
  Py.dict_get modules top = Some topm ->
  Ingest.build_design modules top die_w die_h grid core_margin max_side_frac min_side_px
    = Some d ->
  Ingest.nets_out d = omap (Ingest.net_of (Ingest.bit_eps_of topm)) (Ingest.netnames topm).
Proof.
  intros Htop Hb. unfold Ingest.build_design in Hb. rewrite Htop in Hb.
  cbn [mbind option_bind] in Hb.
  destruct (Ingest.mods_base_of modules (Ingest.cells topm)) as [mb|]; [| discriminate].
  cbn [mbind option_bind] in Hb.
  destruct (Ingest.scale_of mb die_w die_h grid core_margin max_side_frac min_side_px)
    as [sc|]; [| discriminate].
  cbn [mbind option_bind] in Hb.
  destruct (Ingest.pack sc die_w grid core_margin mb (core_margin + grid)
              (core_margin + grid) 0) as [mo|]; [| discriminate].
  cbn [mbind option_bind] in Hb. injection Hb as <-. reflexivity.
Qed.

(** C7: for every declared net of an ingested netlist, the endpoint list
    is sorted and without duplicates and holds exactly the endpoints of
    the net's bits; the design holds a net of that name with these
    endpoints and with [bw = max(1, number of bits)] if and only if there
    are at least two endpoints. *)
Theorem declared_net_endpoints (modules : list (string * Ingest.YosysModule)) (top : string)
    (die_w die_h grid core_margin : Z) (max_side_frac : float) (min_side_px : Z)
    (topm : Ingest.YosysModule) (d : Ingest.DesignOut)
    (Htop : Py.dict_get modules top = Some topm)
    (Hbuild : Ingest.build_design modules top die_w die_h grid core_margin
                max_side_frac min_side_px = Some d)
    (nname : string) (bits : list Ingest.bit)
    (Hdecl : (nname, bits) ∈ Ingest.netnames topm) :
  let eps := Ingest.net_eps (Ingest.bit_eps_of topm) bits in
  StronglySorted Py.str_lt eps /\
  NoDup eps /\
  (forall ep, ep ∈ eps <-> exists b, b ∈ bits /\ Claimed.bit_endpoint topm b ep) /\
  ((exists net, net ∈ Ingest.nets_out d /\ Design.name net = nname /\
                Design.endpoints net = eps /\
                Design.bw net = Some (Z.max 1 (Z.of_nat (length bits))))
   <-> (2 <= length eps)%nat).
Proof.
  intros eps.
  destruct (sorted_set_spec
              (flat_map (fun b => default [] (Ingest.bit_eps_of topm !! b)) bits))
    as (Hs & Hnd & _).
  split; [exact Hs |]. split; [exact Hnd |]. split.
  { intros ep. unfold eps. rewrite net_eps_elem.
    split; intros (b & Hb & Hep); exists b; (split; [exact Hb |]);
      apply bit_eps_of_spec; exact Hep. }
  rewrite (build_design_nets_out _ _ _ _ _ _ _ _ _ _ Htop Hbuild).
  split.
  - intros (net & Hin & _ & Heps & _).
    apply list_elem_of_omap in Hin as ([n' bits'] & _ & Hnet).
    rewrite net_of_spec in Hnet. cbn [fst snd] in Hnet.
    destruct (decide (2 <= length (Ingest.net_eps (Ingest.bit_eps_of topm) bits'))%nat)
      as [Hlen|]; [| discriminate].
    injection Hnet as <-. cbn [Design.endpoints] in Heps.
    subst eps. rewrite <- Heps. exact Hlen.
  - intros Hlen.
    exists (Design.mkNet nname eps (Z.of_nat (length eps) - 1)
              (Some (Z.max 1 (Z.of_nat (length bits))))).
    split; [| repeat split].
    apply list_elem_of_omap. exists (nname, bits). split; [exact Hdecl |].
    rewrite net_of_spec. cbn [fst snd]. fold eps.
    rewrite decide_True by exact Hlen. reflexivity.
Qed.

(** The aggregation does not read the [weight] of a net. *)
Lemma connect_net_set_weight (c : Gui.Connectivity) (net : Design.Net) (wt : Z) :
  Gui.connect_net c (Design.set_weight net wt) = Gui.connect_net c net.
Proof. reflexivity. Qed.

(** The aggregation reads the endpoints and [bw] of a net only. *)
Lemma connect_net_reads (c : Gui.Connectivity) (a b : Design.Net) :
  Design.endpoints a = Design.endpoints b -> Design.bw a = Design.bw b ->
  Gui.connect_net c a = Gui.connect_net c b.
Proof. intros He Hb. unfold Gui.connect_net. rewrite He, Hb. reflexivity. Qed.

(** C10: every declared net that reaches two distinct endpoints or more
    is emitted, and every emitted net has distinct endpoints and the
    weight [len(endpoints) - 1], the number of its distinct endpoints
    less one, which is at least 1; the connectivity aggregation gives
    the same tables for nets that differ in their weights only. *)
Theorem emitted_net_weight (modules : list (string * Ingest.YosysModule)) (top : string)
    (die_w die_h grid core_margin : Z) (max_side_frac : float) (min_side_px : Z)
    (topm : Ingest.YosysModule) (d : Ingest.DesignOut)
    (Htop : Py.dict_get modules top = Some topm)
    (Hbuild : Ingest.build_design modules top die_w die_h grid core_margin
                max_side_frac min_side_px = Some d) :
  (forall net, net ∈ Ingest.nets_out d ->
     NoDup (Design.endpoints net) /\
     Design.weight net = (Z.of_nat (length (Design.endpoints net)) - 1)%Z /\
     (1 <= Design.weight net)%Z) /\
  (forall (nname : string) (bits : list Ingest.bit) (eps : list string),
     (nname, bits) ∈ Ingest.netnames topm ->
     NoDup eps ->
     (forall ep, ep ∈ eps <-> exists b, b ∈ bits /\ Claimed.bit_endpoint topm b ep) ->
     (2 <= length eps)%nat ->
     exists net, net ∈ Ingest.nets_out d /\ Design.name net = nname /\
                 Design.endpoints net ≡ₚ eps /\
                 Design.weight net = (Z.of_nat (length eps) - 1)%Z) /\
  (forall nets nets' : list Design.Net,
     Forall2 (fun a b => Design.endpoints a = Design.endpoints b /\
                         Design.bw a = Design.bw b) nets nets' ->
     Gui._build_connectivity nets = Gui._build_connectivity nets').
Proof.
  rewrite (build_design_nets_out _ _ _ _ _ _ _ _ _ _ Htop Hbuild).
  split; [| split].
  - intros net Hin.
    apply list_elem_of_omap in Hin as ([n' bits'] & _ & Hnet).
    rewrite net_of_spec in Hnet. cbn [fst snd] in Hnet.
    destruct (decide (2 <= length (Ingest.net_eps (Ingest.bit_eps_of topm) bits'))%nat)
      as [Hlen|]; [| discriminate].
    injection Hnet as <-. cbn [Design.endpoints Design.weight].
    split; [| split; lia].
    unfold Ingest.net_eps. apply sorted_set_spec.
  - intros nname bits eps Hdecl Hnd Hel Hlen.
    assert (Hperm : Ingest.net_eps (Ingest.bit_eps_of topm) bits ≡ₚ eps).
    { apply NoDup_Permutation; [unfold Ingest.net_eps; apply sorted_set_spec | exact Hnd |].
      intros ep. rewrite Hel, net_eps_elem.
      split; intros (b & Hb & Hep); exists b; (split; [exact Hb |]);
        apply bit_eps_of_spec; exact Hep. }
    pose proof (Permutation_length Hperm) as Hl.
    exists (Design.mkNet nname (Ingest.net_eps (Ingest.bit_eps_of topm) bits)
              (Z.of_nat (length (Ingest.net_eps (Ingest.bit_eps_of topm) bits)) - 1)
              (Some (Z.max 1 (Z.of_nat (length bits))))).
    cbn [Design.name Design.endpoints Design.weight].
    split; [| split; [reflexivity | split; [exact Hperm | lia]]].
    apply list_elem_of_omap. exists (nname, bits). split; [exact Hdecl |].
    rewrite net_of_spec. cbn [fst snd]. rewrite decide_True by lia. reflexivity.
  - intros nets nets' H. unfold Gui._build_connectivity.
    assert (Hfold : forall c, fold_left Gui.connect_net nets c
                              = fold_left Gui.connect_net nets' c).
    { induction H as [|a b nets nets' [He Hb] _ IH]; intros c; cbn [fold_left];
        [reflexivity |].
      rewrite (connect_net_reads c a b He Hb). apply IH. }
    rewrite Hfold. reflexivity.
Qed.

Lemma declared_net_endpoints_witness :
  exists d : Ingest.DesignOut,
    Py.dict_get Examples.netlist "top" = Some Examples.netlist_top /\
    Ingest.build_design Examples.netlist "top" 200 200 5 0 0.5%float 10 = Some d /\
    ("clk"%string, [inl 2%Z]) ∈ Ingest.netnames Examples.netlist_top /\
    StronglySorted Py.str_lt
      (Ingest.net_eps (Ingest.bit_eps_of Examples.netlist_top) [inl 2%Z]).
Proof.
  assert (Hb : exists d, Ingest.build_design Examples.netlist "top" 200 200 5 0 0.5%float 10
                         = Some d) by (eexists; vm_compute; reflexivity).
  destruct Hb as [d Hb]. exists d.
  assert (Htop : Py.dict_get Examples.netlist "top" = Some Examples.netlist_top)
    by reflexivity.
  assert (Hdecl : ("clk"%string, [inl 2%Z]) ∈ Ingest.netnames Examples.netlist_top)
    by (apply list_elem_of_In; left; reflexivity).
  split; [exact Htop |]. split; [exact Hb |]. split; [exact Hdecl |].
  apply (declared_net_endpoints Examples.netlist "top" 200 200 5 0 0.5%float 10
           Examples.netlist_top d Htop Hb "clk" [inl 2%Z] Hdecl).
Defined.

Lemma emitted_net_weight_witness :
  exists (d : Ingest.DesignOut) (net : Design.Net),
    Ingest.build_design Examples.netlist "top" 200 200 5 0 0.5%float 10 = Some d /\
    net ∈ Ingest.nets_out d /\ Design.name net = "clk"%string /\
    Design.weight net = 2%Z.
Proof.
  assert (Hb : exists d, Ingest.build_design Examples.netlist "top" 200 200 5 0 0.5%float 10
                         = Some d) by (eexists; vm_compute; reflexivity).
  destruct Hb as [d Hb]. exists d.
  assert (Htop : Py.dict_get Examples.netlist "top" = Some Examples.netlist_top)
    by reflexivity.
  assert (Hdecl : ("clk"%string, [inl 2%Z]) ∈ Ingest.netnames Examples.netlist_top)
    by (apply list_elem_of_In; left; reflexivity).
  assert (Hnd : NoDup ["top.clk"; "u1.d"; "u2.d"]%string)
    by (apply NoDup_ListNoDup; repeat constructor; cbn; intuition discriminate).
  assert (Hel : forall ep, ep ∈ ["top.clk"; "u1.d"; "u2.d"]%string <->
                  exists b, b ∈ [inl 2%Z] /\ Claimed.bit_endpoint Examples.netlist_top b ep).
  { intros ep.
    assert (He : ["top.clk"; "u1.d"; "u2.d"]%string
                 = Ingest.net_eps (Ingest.bit_eps_of Examples.netlist_top) [inl 2%Z])
      by (vm_compute; reflexivity).
    rewrite He, net_eps_elem.
    split; intros (b & Hin & Hep); exists b; (split; [exact Hin |]);
      apply bit_eps_of_spec; exact Hep. }
  destruct (proj1 (proj2 (emitted_net_weight Examples.netlist "top" 200 200 5 0 0.5%float 10
                            Examples.netlist_top d Htop Hb))
              "clk"%string [inl 2%Z] ["top.clk"; "u1.d"; "u2.d"]%string
              Hdecl Hnd Hel (le_n_S _ _ (le_n_S _ _ (Nat.le_0_l _))))
    as (net & Hin & Hname & _ & Hw).
  exists net. repeat split; assumption.
Defined.

(** ** Initial packing *)

(** C2, as worded, fails: with the stated parameters (and a grid of 5 on
    a die without margin) the sides are 50 and 100, not 10 and 20. *)
Lemma initial_packing_counterexample :
  (map Design.w <$> (Ingest.modules_out
     <$> Ingest.build_design Examples.netlist "top" 200 200 5 0 0.5%float 10))
  = Some [50; 100]%Z /\
  (map Design.w <$> (Ingest.modules_out
     <$> Ingest.build_design Examples.netlist "top" 200 200 5 0 0.5%float 10))
  <> Some [10; 20]%Z.
Proof.
  assert (H : (map Design.w <$> (Ingest.modules_out
     <$> Ingest.build_design Examples.netlist "top" 200 200 5 0 0.5%float 10))
     = Some [50; 100]%Z) by (vm_compute; reflexivity).
  split; [exact H |]. rewrite H. discriminate.
Qed.

(** The base sizes of the two cells: the square roots 10 and 20. *)
Lemma example_mods_base :
  Ingest.mods_base_of Examples.netlist (Ingest.cells Examples.netlist_top)
  = Some [ Ingest.mkModBase "u1" "A" 100 10; Ingest.mkModBase "u2" "B" 400 20 ].
Proof. vm_compute. reflexivity. Qed.

(** On a Core of 200 by 200 the largest block aims at a side of 100, so
    the scale factor is 5. *)
Lemma example_scale (die_w die_h grid core_margin : Z) :
  (die_w - 2 * core_margin = 200)%Z -> (die_h - 2 * core_margin = 200)%Z ->
  Ingest.scale_of
    [ Ingest.mkModBase "u1" "A" 100 10; Ingest.mkModBase "u2" "B" 400 20 ]
    die_w die_h grid core_margin 0.5%float 10
  = Some (Ingest.mkScale 5 (Z.max (2 * grid) 10)).
Proof.
  intros Hw Hh. unfold Ingest.scale_of. rewrite Hw, Hh.
  change (Z.min (Z.max 1 200) (Z.max 1 200)) with 200%Z.
  assert (Hf : Ingest.float_of_Z 200 = Some 200%float) by (vm_compute; reflexivity).
  rewrite Hf. cbn [mbind option_bind].
  assert (Hr : Ingest.round_float (200 * 0.5)%float = Some 100%Z)
    by (vm_compute; reflexivity).
  rewrite Hr. cbn [mbind option_bind].
  change (Z.max 10 100) with 100%Z.
  assert (Hf' : Ingest.float_of_Z 100 = Some 100%float) by (vm_compute; reflexivity).
  rewrite Hf'. cbn [mbind option_bind].
  assert (Hmb : Ingest.max_base_of
            [ Ingest.mkModBase "u1" "A" 100 10; Ingest.mkModBase "u2" "B" 400 20 ]
          = 20%float) by (vm_compute; reflexivity).
  rewrite Hmb.
  assert (Hz : (20 =? 0)%float = false) by (vm_compute; reflexivity).
  rewrite Hz.
  assert (Hk : (100 / 20)%float = 5%float) by (vm_compute; reflexivity).
  rewrite Hk. reflexivity.
Qed.

Lemma example_sides (ms : Z) :
  Ingest.side_of (Ingest.mkScale 5 ms) (Ingest.mkModBase "u1" "A" 100 10)
    = Some (Z.max ms 50) /\
  Ingest.side_of (Ingest.mkScale 5 ms) (Ingest.mkModBase "u2" "B" 400 20)
    = Some (Z.max ms 100).
Proof.
  unfold Ingest.side_of. cbn [Ingest.base Ingest.k Ingest.min_side].
  assert (H1 : Ingest.round_float (10 * 5)%float = Some 50%Z) by (vm_compute; reflexivity).
  assert (H2 : Ingest.round_float (20 * 5)%float = Some 100%Z) by (vm_compute; reflexivity).
  rewrite H1, H2. split; reflexivity.
Qed.

(** C2, amended: two modules of area 100 and 400 with
    [max_side_frac = 0.5] and [min_side_px = 10] on a Core of 200 by 200
    get the sides max(2 grid, 50) and max(2 grid, 100), that is 50 and
    100 for a grid of at most 25; they are placed without overlap, the
    second to the right of the first in the same row, or at the start of
    the next row. *)
Theorem initial_packing_two_modules (die_w die_h grid core_margin : Z)
    (Hw : (die_w - 2 * core_margin = 200)%Z)
    (Hh : (die_h - 2 * core_margin = 200)%Z)
    (Hgrid : (0 < grid)%Z) :
  exists (d : Ingest.DesignOut) (a b : Design.Module_),
    Ingest.build_design Examples.netlist "top" die_w die_h grid core_margin 0.5%float 10
      = Some d /\
    Ingest.modules_out d = [a; b] /\
    Design.inst a = "u1"%string /\ Design.inst b = "u2"%string /\
    Design.w a = Z.max (2 * grid) 50 /\ Design.h a = Design.w a /\
    Design.w b = Z.max (2 * grid) 100 /\ Design.h b = Design.w b /\
    ((2 * grid <= 50)%Z -> Design.w a = 50%Z /\ Design.w b = 100%Z) /\
    ~ Geometry.overlap (Gui.module_rect a) (Gui.module_rect b) /\
    (Design.y a = Design.y b /\ (Design.x a + Design.w a + grid = Design.x b)%Z \/
     Design.x b = (core_margin + grid)%Z /\
     (Design.y a + Design.h a + grid = Design.y b)%Z).
Proof.
  unfold Ingest.build_design.
  change (Py.dict_get Examples.netlist "top") with (Some Examples.netlist_top).
  cbn [mbind option_bind].
  rewrite example_mods_base. cbn [mbind option_bind].
  rewrite (example_scale die_w die_h grid core_margin Hw Hh). cbn [mbind option_bind].
  cbn [Ingest.pack].
  destruct (example_sides (Z.max (2 * grid) 10)) as [-> ->].
  cbn [mbind option_bind].
  replace (Z.max (Z.max (2 * grid) 10) 50) with (Z.max (2 * grid) 50) by lia.
  replace (Z.max (Z.max (2 * grid) 10) 100) with (Z.max (2 * grid) 100) by lia.
  repeat match goal with
         | |- context [(?u <? ?v)%Z] => destruct (Z.ltb_spec u v)
         end;
    cbn [mbind option_bind];
    eexists _, _, _; (split; [reflexivity |]);
    cbn [Ingest.modules_out Design.inst Design.w Design.h Design.x Design.y
         Ingest.mb_inst Ingest.mb_type Ingest.mb_area];
    (split; [reflexivity |]);
    unfold Geometry.overlap, Gui.module_rect, Qt.left, Qt.right, Qt.top, Qt.bottom;
    cbn [Qt.rx Qt.ry Qt.rwidth Qt.rheight Design.inst Design.w Design.h Design.x Design.y];
    repeat split; try reflexivity; try lia.
Qed.

Lemma initial_packing_two_modules_witness :
  (200 - 2 * 0 = 200)%Z /\ (0 < 5)%Z /\
  exists (d : Ingest.DesignOut) (a b : Design.Module_),
    Ingest.build_design Examples.netlist "top" 200 200 5 0 0.5%float 10 = Some d /\
    Ingest.modules_out d = [a; b] /\
    Design.w a = 50%Z /\ Design.w b = 100%Z.
Proof.
  assert (H200 : (200 - 2 * 0 = 200)%Z) by reflexivity.
  assert (H5 : (0 < 5)%Z) by reflexivity.
  split; [exact H200 |]. split; [exact H5 |].
  destruct (initial_packing_two_modules 200 200 5 0 H200 H200 H5)
    as (d & a & b & Hb & Hm & _ & _ & _ & _ & _ & _ & Hs & _).
  exists d, a, b. split; [exact Hb |]. split; [exact Hm |].
  apply Hs. discriminate.
Defined.

(** * Further properties of the code *)

(** ** Helpers: [_snap], [_pair], [_expand_bus] *)

(** [round] does not depend on how the fraction is written. *)
Lemma round_Qeq_Z (q : Q) (n : Z) : (q == inject_Z n)%Q -> Py.round q = n.
Proof.
  intros Hq. unfold Py.round. destruct q as [a b].
  unfold Qeq, inject_Z in Hq. cbn [Qnum Qden] in *.
  assert (Ha : a = (n * Z.pos b)%Z) by lia.
  rewrite Ha, Z.mod_mul, Z.div_mul by lia.
  reflexivity.
Qed.

(** A multiple of the grid snaps to itself. *)
Lemma snap_multiple (n g : Z) :
  g <> 0%Z -> Gui._snap (inject_Z (n * g)) g = Some (n * g)%Z.
Proof.
  intros Hg. rewrite snap_some by exact Hg. f_equal. f_equal.
  apply round_Qeq_Z. rewrite inject_Z_mult. field.
  unfold Qeq, inject_Z. cbn. lia.
Qed.

(** What [_snap] yields on exact ratios. *)
Lemma snap_spec (v : Q) (g : Z) :
  match Gui._snap v g with
  | None => g = 0%Z
  | Some s =>
      g <> 0%Z /\ (g | s)%Z /\
      (Qabs (v - inject_Z s) <= Qabs (inject_Z g) / 2)%Q /\
      Gui._snap (inject_Z s) g = Some s
  end.
Proof.
  unfold Gui._snap at 1. destruct (Z.eqb_spec g 0) as [->|Hg]; [reflexivity |].
  split; [exact Hg |]. split; [exists (Py.round (v / inject_Z g)); reflexivity |].
  assert (Hgq : ~ (inject_Z g == 0)%Q).
  { unfold Qeq, inject_Z. cbn. lia. }
  split; [| apply snap_multiple; exact Hg].
  rewrite inject_Z_mult.
  assert (He : (v - inject_Z (Py.round (v / inject_Z g)) * inject_Z g
                == inject_Z g * (v / inject_Z g - inject_Z (Py.round (v / inject_Z g))))%Q)
    by (field; exact Hgq).
  rewrite He, Qabs_Qmult.
  pose proof (round_nearest (v / inject_Z g)) as Hn.
  pose proof (Qabs_nonneg (inject_Z g)) as Hp.
  set (a := Qabs (inject_Z g)) in *.
  set (b := Qabs (v / inject_Z g - inject_Z (Py.round (v / inject_Z g)))) in *.
  assert (Hab : (a * b <= a * (1 # 2))%Q).
  { rewrite (Qmult_comm a b), (Qmult_comm a (1 # 2)).
    apply Qmult_le_compat_r; assumption. }
  eapply Qle_trans; [exact Hab |].
  unfold Qdiv. apply Qle_refl.
Qed.

(** [_snap] on a finite value below 2^52 in magnitude, the grid below
    2^52 as well: a zero grid is the only failure; otherwise the result
    is a multiple of the grid, at most half a grid step away from the
    value, and snapping it again changes nothing. *)
Theorem snap_multiple_nearest_idempotent (v : Q) (g : Z)
    (Hv : (Qabs v < inject_Z (2 ^ 52))%Q) (Hg : (Z.abs g < 2 ^ 52)%Z) :
  match Gui._snap v g with
  | None => g = 0%Z
  | Some s =>
      g <> 0%Z /\ (g | s)%Z /\
      (Qabs (v - inject_Z s) <= Qabs (inject_Z g) / 2)%Q /\
      Gui._snap (inject_Z s) g = Some s
  end.
Proof. exact (snap_spec v g). Qed.

Lemma snap_multiple_nearest_idempotent_witness :
  Gui._snap (47 # 2) 20 = Some 20%Z /\ Gui._snap (inject_Z 20) 20 = Some 20%Z.
Proof.
  assert (Hv : (Qabs (47 # 2) < inject_Z (2 ^ 52))%Q) by reflexivity.
  assert (Hg : (Z.abs 20 < 2 ^ 52)%Z) by reflexivity.
  pose proof (snap_multiple_nearest_idempotent (47 # 2) 20 Hv Hg) as H.
  assert (Hs : Gui._snap (47 # 2) 20 = Some 20%Z) by reflexivity.
  rewrite Hs in H. split; [exact Hs | exact (proj2 (proj2 (proj2 H)))].
Defined.

(** [_pair]: the same key whatever the order of the two names, its
    components in increasing order and being the two names. *)
Theorem pair_orientation_independent (a b : string) :
  Gui._pair a b = Gui._pair b a /\
  Py.str_le (fst (Gui._pair a b)) (snd (Gui._pair a b)) /\
  ((Gui._pair a b = (a, b)) \/ (Gui._pair a b = (b, a))).
Proof.
  split; [apply pair_sym |]. unfold Gui._pair, Py.str_le.
  destruct (String.ltb b a) eqn:Hba; cbn [fst snd].
  - split; [| right; reflexivity].
    unfold String.ltb, String.leb in *. destruct (String.compare b a); congruence.
  - split; [| left; reflexivity].
    unfold String.ltb, String.leb in *. rewrite (String.compare_antisym b a) in Hba.
    destruct (String.compare a b); cbn in *; congruence.
Qed.

(** Decimal printing and bit names. *)
Lemma str_inj (i j : nat) : Py.str i = Py.str j -> i = j.
Proof.
  unfold Py.str. intros H.
  apply DecimalNat.Unsigned.to_uint_inj.
  pose proof (NilEmpty.usu (Nat.to_uint i)) as Hi.
  pose proof (NilEmpty.usu (Nat.to_uint j)) as Hj.
  rewrite H in Hi. congruence.
Qed.

Lemma append_inv_head (p s t : string) : (p ++ s = p ++ t)%string -> s = t.
Proof. induction p as [|c p IH]; cbn; intros H; [exact H | injection H; auto]. Qed.

Lemma append_inv_bracket (s t : string) : (s ++ "]" = t ++ "]")%string -> s = t.
Proof.
  revert t. induction s as [|c s IH]; intros [|d t]; cbn; intros H.
  - reflexivity.
  - injection H as _ H. destruct t; discriminate.
  - injection H as _ H. destruct s; discriminate.
  - injection H as -> H. f_equal. apply IH. exact H.
Qed.

Lemma expand_bus_length (name : string) (width : Z) :
  length (Gui._expand_bus name width) = Z.to_nat (Z.max 1 width) /\
  Gui._expand_bus name width <> [].
Proof.
  unfold Gui._expand_bus. destruct (Z.leb_spec width 1) as [Hle|Hgt].
  - split; [cbn; lia | discriminate].
  - split; [rewrite length_map, length_seq; lia |].
    intros H. apply (f_equal length) in H. rewrite length_map, length_seq in H.
    cbn in H. lia.
Qed.

(** [_expand_bus]: a scalar keeps its name, a bus of [width] bits gives
    [width] distinct names, the bit [i] at position [i]. *)
Theorem expand_bus_names (name : string) (width : Z) :
  length (Gui._expand_bus name width) = Z.to_nat (Z.max 1 width) /\
  NoDup (Gui._expand_bus name width) /\
  ((width <= 1)%Z -> Gui._expand_bus name width = [name]) /\
  ((1 < width)%Z -> forall i : nat, (i < Z.to_nat width)%nat ->
     Gui._expand_bus name width !! i
     = Some (name ++ "[" ++ Py.str i ++ "]")%string).
Proof.
  unfold Gui._expand_bus. destruct (Z.leb_spec width 1) as [Hle|Hgt].
  - split; [cbn; lia |]. split; [repeat constructor; apply not_elem_of_nil |].
    split; [reflexivity | lia].
  - split; [rewrite length_map, length_seq; lia |]. split; [| split; [lia |]].
    + change (map ?f ?l) with (f <$> l).
      apply NoDup_fmap_2_strong; [| apply NoDup_seq].
      intros i j _ _ H. apply append_inv_head in H. cbn in H. injection H as H.
      apply append_inv_bracket in H. apply str_inj. exact H.
    + intros _ i Hi. change (map ?f ?l) with (f <$> l).
      rewrite list_lookup_fmap, lookup_seq_lt by lia. reflexivity.
Qed.

(** ** Moving a block *)

Lemma intersects_sym (a b : Qt.QRectF) : Qt.intersects a b = Qt.intersects b a.
Proof.
  unfold Qt.intersects.
  destruct (Qt.span (Qt.rx a) (Qt.rwidth a)) as [l1 r1],
           (Qt.span (Qt.rx b) (Qt.rwidth b)) as [l2 r2],
           (Qt.span (Qt.ry a) (Qt.rheight a)) as [t1 b1],
           (Qt.span (Qt.ry b) (Qt.rheight b)) as [t2 b2].
  rewrite (orb_comm (l1 =? r1)%Z), (orb_comm (r2 <=? l1)%Z),
          (orb_comm (t1 =? b1)%Z), (orb_comm (b2 <=? t1)%Z).
  reflexivity.
Qed.

Lemma inject_Z_eqb (a b : Z) : Qeq_bool (inject_Z a) (inject_Z b) = true -> a = b.
Proof.
  intros H. apply Qeq_bool_iff in H. unfold Qeq, inject_Z in H. cbn in H. lia.
Qed.

(** A position on the grid and inside the Core is proposed back
    unchanged. *)
Theorem on_grid_position_kept (it : Gui.BlockItem) (x y : Z)
    (Hgrid : Gui.block_grid it <> 0%Z)
    (Hx : (Gui.block_grid it | x)%Z) (Hy : (Gui.block_grid it | y)%Z)
    (Hxin : (Qt.left (Gui.block_core_rect it) <= x
             <= Qt.right (Gui.block_core_rect it) - Gui.rect_w it)%Z)
    (Hyin : (Qt.top (Gui.block_core_rect it) <= y
             <= Qt.bottom (Gui.block_core_rect it) - Gui.rect_h it)%Z) :
  Gui.new_rect it (inject_Z x, inject_Z y)
  = Some (Qt.mkRect x y (Gui.rect_w it) (Gui.rect_h it)).
Proof.
  destruct Hx as [nx ->], Hy as [ny ->].
  unfold Gui.new_rect. cbn [fst snd].
  rewrite !snap_multiple by exact Hgrid. cbn [mbind option_bind]. cbv zeta.
  unfold Qt.left, Qt.right, Qt.top, Qt.bottom in *.
  f_equal. rewrite !Z.max_r, !Z.min_l by lia. reflexivity.
Qed.

Lemma on_grid_position_kept_witness :
  Gui.block_grid Examples.block_u1 <> 0%Z /\
  Gui.new_rect Examples.block_u1 (inject_Z 60, inject_Z 80)
  = Some (Qt.mkRect 60 80 40 40).
Proof.
  assert (Hg : Gui.block_grid Examples.block_u1 <> 0%Z) by (cbn; lia).
  split; [exact Hg |].
  apply (on_grid_position_kept Examples.block_u1 60 80 Hg).
  - exists 3%Z. reflexivity.
  - exists 4%Z. reflexivity.
  - split; vm_compute; discriminate.
  - split; vm_compute; discriminate.
Defined.

(** An accepted move of a constructed block that is in step with its
    module dictionary is written into that dictionary, and the block is
    at the corrected position. *)
Theorem accepted_move_persisted
    (modules : list Design.Module_) (it : Gui.BlockItem)
    (module : Design.Module_) (value : Qt.QPointF) (r : Qt.QRectF)
    (Hmod : modules !! Gui.module_ref it = Some module)
    (Hcons : Gui._constructed it = true)
    (Hsync : Gui.pos it = (inject_Z (Design.x module), inject_Z (Design.y module)))
    (Hmoved : Qt.point_eqb value (Gui.pos it) = false)
    (Hrect : Gui.new_rect it value = Some r)
    (Hacc : Gui.can_place_fn modules r (Design.inst module) = true) :
  Gui.setPos modules it value
  = Some (<[Gui.module_ref it := Design.set_xy module (Qt.rx r) (Qt.ry r)]> modules,
          Gui.set_pos it (inject_Z (Qt.rx r), inject_Z (Qt.ry r))).
Proof.
  unfold Gui.setPos. rewrite Hmoved, Hmod. cbn [mbind option_bind].
  unfold Gui.itemChange_ItemPositionChange. rewrite Hrect. cbn [mbind option_bind].
  rewrite Hacc. cbn [negb mbind option_bind].
  destruct (Qt.point_eqb (inject_Z (Qt.rx r), inject_Z (Qt.ry r)) (Gui.pos it)) eqn:Hsame.
  - rewrite Hsync in Hsame. unfold Qt.point_eqb in Hsame. cbn [fst snd] in Hsame.
    apply andb_true_iff in Hsame as [H1 H2].
    apply inject_Z_eqb in H1. apply inject_Z_eqb in H2.
    rewrite H1, H2, set_xy_same, list_insert_id by exact Hmod.
    f_equal. f_equal. destruct it. cbn in *. rewrite Hsync. reflexivity.
  - f_equal. f_equal.
    unfold Gui.itemChange_ItemPositionHasChanged.
    cbn [Gui.set_pos Gui._constructed Gui.module_ref Gui.pos fst snd].
    rewrite Hcons, Hmod, !int_inject_Z. reflexivity.
Qed.

Lemma accepted_move_persisted_witness :
  exists modules' : list Design.Module_,
    Gui.setPos [Examples.u1; Examples.u2] Examples.block_u1 (190 # 1, 400 # 1)
    = Some (modules', Gui.set_pos Examples.block_u1 (inject_Z 200, inject_Z 200)) /\
    modules' !! 0%nat = Some (Design.set_xy Examples.u1 200 200).
Proof.
  eexists. split.
  - apply (accepted_move_persisted [Examples.u1; Examples.u2] Examples.block_u1
             Examples.u1 (190 # 1, 400 # 1) (Qt.mkRect 200 200 40 40));
      reflexivity.
  - reflexivity.
Defined.

(** Whatever a move does, accepted or not, the modules of a design whose
    instance names are distinct stay clear of each other by the halo. *)
Theorem setPos_keeps_halo_clear
    (modules modules' : list Design.Module_) (it it' : Gui.BlockItem)
    (module : Design.Module_) (value : Qt.QPointF)
    (Hclear : Geometry.halo_clear modules)
    (Hnames : NoDup (map Design.inst modules))
    (Hmod : modules !! Gui.module_ref it = Some module)
    (Hw : Design.w module = Gui.rect_w it)
    (Hh : Design.h module = Gui.rect_h it)
    (Hset : Gui.setPos modules it value = Some (modules', it')) :
  Geometry.halo_clear modules'.
Proof.
  unfold Gui.setPos in Hset.
  destruct (Qt.point_eqb value (Gui.pos it)); [injection Hset as <- _; exact Hclear |].
  rewrite Hmod in Hset. cbn [mbind option_bind] in Hset.
  unfold Gui.itemChange_ItemPositionChange in Hset.
  destruct (Gui.new_rect it value) as [r|] eqn:Hrect; [| discriminate].
  cbn [mbind option_bind] in Hset.
  assert (Hr : Qt.rwidth r = Gui.rect_w it /\ Qt.rheight r = Gui.rect_h it).
  { unfold Gui.new_rect in Hrect.
    destruct (Gui._snap (fst value) (Gui.block_grid it)); [| discriminate].
    destruct (Gui._snap (snd value) (Gui.block_grid it)); [| discriminate].
    cbn [mbind option_bind] in Hrect. injection Hrect as <-. split; reflexivity. }
  destruct (Gui.can_place_fn modules r (Design.inst module)) eqn:Hacc;
    cbn [negb mbind option_bind] in Hset.
  2: { (* rejected: the dictionaries are as before *)
    destruct (Qt.point_eqb _ (Gui.pos it)); [injection Hset as <- _; exact Hclear |].
    injection Hset as <- _.
    unfold Gui.itemChange_ItemPositionHasChanged.
    cbn [Gui.set_pos Gui._constructed Gui.module_ref Gui.pos fst snd].
    destruct (Gui._constructed it); [| exact Hclear].
    rewrite Hmod, !int_inject_Z, set_xy_same, list_insert_id by exact Hmod.
    exact Hclear. }
  destruct (Qt.point_eqb _ (Gui.pos it)); [injection Hset as <- _; exact Hclear |].
  injection Hset as <- _.
  unfold Gui.itemChange_ItemPositionHasChanged.
  cbn [Gui.set_pos Gui._constructed Gui.module_ref Gui.pos fst snd].
  destruct (Gui._constructed it); [| exact Hclear].
  rewrite Hmod, !int_inject_Z.
  assert (Hnew : Gui.module_rect (Design.set_xy module (Qt.rx r) (Qt.ry r)) = r).
  { destruct r, Hr as [Hr1 Hr2]. unfold Gui.module_rect. cbn in *. congruence. }
  unfold Gui.can_place_fn in Hacc. apply negb_true_iff in Hacc.
  pose proof (proj1 (occupied_false modules r (Design.inst module) Gui.HALO_PX) Hacc)
    as Hfree.
  assert (Hother : forall j mj, j <> Gui.module_ref it -> modules !! j = Some mj ->
            Design.inst mj <> Design.inst module).
  { intros j mj Hj Hmj Heq. apply Hj.
    eapply NoDup_lookup; [exact Hnames | |].
    - change (map ?f ?l) with (f <$> l). rewrite list_lookup_fmap, Hmj. reflexivity.
    - change (map ?f ?l) with (f <$> l). rewrite list_lookup_fmap, Hmod. cbn.
      rewrite Heq. reflexivity. }
  intros i j mi mj Hij Hi Hj.
  destruct (decide (i = Gui.module_ref it)) as [->|Hi'];
    destruct (decide (j = Gui.module_ref it)) as [->|Hj'].
  - contradiction.
  - rewrite list_lookup_insert_eq in Hi by (eapply lookup_lt_Some; exact Hmod).
    injection Hi as <-. rewrite list_lookup_insert_ne in Hj by congruence.
    rewrite Hnew. apply Hfree.
    + eapply list_elem_of_lookup_2. exact Hj.
    + eapply Hother; eassumption.
  - rewrite list_lookup_insert_eq in Hj by (eapply lookup_lt_Some; exact Hmod).
    injection Hj as <-. rewrite list_lookup_insert_ne in Hi by congruence.
    rewrite Hnew, intersects_sym. apply Hfree.
    + eapply list_elem_of_lookup_2. exact Hi.
    + eapply Hother; eassumption.
  - rewrite list_lookup_insert_ne in Hi by congruence.
    rewrite list_lookup_insert_ne in Hj by congruence.
    exact (Hclear i j mi mj Hij Hi Hj).
Qed.

(** What an accepted rectangle keeps between itself and every other
    module: twice the halo, horizontally or vertically. *)
Theorem accepted_gap_twice_halo
    (modules : list Design.Module_) (r : Qt.QRectF) (inst : string)
    (m : Design.Module_)
    (Hacc : Gui.can_place_fn modules r inst = true)
    (Hrw : (0 < Qt.rwidth r)%Z) (Hrh : (0 < Qt.rheight r)%Z)
    (Hin : m ∈ modules) (Hne : Design.inst m <> inst)
    (Hmw : (0 < Design.w m)%Z) (Hmh : (0 < Design.h m)%Z) :
  (Qt.right r + 2 * Gui.HALO_PX <= Design.x m \/
   Design.x m + Design.w m + 2 * Gui.HALO_PX <= Qt.left r \/
   Qt.bottom r + 2 * Gui.HALO_PX <= Design.y m \/
   Design.y m + Design.h m + 2 * Gui.HALO_PX <= Qt.top r)%Z.
Proof.
  unfold Gui.can_place_fn in Hacc. apply negb_true_iff in Hacc.
  pose proof (proj1 (occupied_false modules r inst Gui.HALO_PX) Hacc m Hin Hne) as Hfree.
  assert (Hno : ~ Geometry.overlap (Geometry.expand Gui.HALO_PX r)
                    (Geometry.expand Gui.HALO_PX (Gui.module_rect m))).
  { intros Hov. apply intersects_overlap in Hov; [congruence | | | |];
      unfold Geometry.expand, Qt.adjusted, Gui.module_rect, Gui.HALO_PX; cbn; lia. }
  unfold Geometry.overlap, Geometry.expand, Qt.adjusted, Gui.module_rect, Gui.HALO_PX,
    Qt.left, Qt.right, Qt.top, Qt.bottom in *.
  cbn [Qt.rx Qt.ry Qt.rwidth Qt.rheight] in *. lia.
Qed.

Lemma accepted_gap_twice_halo_witness :
  Gui.can_place_fn [Examples.u1; Examples.u2] (Qt.mkRect 200 200 40 40) "u1" = true /\
  (Qt.right (Qt.mkRect 200 200 40 40) + 2 * Gui.HALO_PX <= Design.x Examples.u2 \/
   Design.x Examples.u2 + Design.w Examples.u2 + 2 * Gui.HALO_PX
     <= Qt.left (Qt.mkRect 200 200 40 40) \/
   Qt.bottom (Qt.mkRect 200 200 40 40) + 2 * Gui.HALO_PX <= Design.y Examples.u2 \/
   Design.y Examples.u2 + Design.h Examples.u2 + 2 * Gui.HALO_PX
     <= Qt.top (Qt.mkRect 200 200 40 40))%Z.
Proof.
  split; [reflexivity |].
  apply (accepted_gap_twice_halo [Examples.u1; Examples.u2] (Qt.mkRect 200 200 40 40)
           "u1" Examples.u2).
  - reflexivity.
  - cbn. lia.
  - cbn. lia.
  - right. left.
  - cbn. discriminate.
  - cbn. lia.
  - cbn. lia.
Defined.

Lemma setPos_keeps_halo_clear_witness :
  Geometry.halo_clear [Examples.u1; Examples.u2] /\
  exists (modules' : list Design.Module_) (it' : Gui.BlockItem),
    Gui.setPos [Examples.u1; Examples.u2] Examples.block_u1 (190 # 1, 400 # 1)
    = Some (modules', it') /\
    Geometry.halo_clear modules'.
Proof.
  assert (Hclear : Geometry.halo_clear [Examples.u1; Examples.u2]).
  { intros i j mi mj Hij Hi Hj.
    destruct i as [|[|i]], j as [|[|j]]; cbn in Hi, Hj;
      try discriminate; try contradiction;
      injection Hi as <-; injection Hj as <-; reflexivity. }
  split; [exact Hclear |].
  assert (Hset : Gui.setPos [Examples.u1; Examples.u2] Examples.block_u1 (190 # 1, 400 # 1)
                 = Some ([Design.set_xy Examples.u1 200 200; Examples.u2],
                         Gui.set_pos Examples.block_u1 (inject_Z 200, inject_Z 200)))
    by reflexivity.
  eexists _, _. split; [exact Hset |].
  apply (setPos_keeps_halo_clear [Examples.u1; Examples.u2]
           [Design.set_xy Examples.u1 200 200; Examples.u2] Examples.block_u1
           (Gui.set_pos Examples.block_u1 (inject_Z 200, inject_Z 200))
           Examples.u1 (190 # 1, 400 # 1) Hclear).
  - repeat constructor; [intros H; apply list_elem_of_singleton in H; discriminate
                        | apply not_elem_of_nil].
  - reflexivity.
  - reflexivity.
  - reflexivity.
  - exact Hset.
Defined.

(** ** The side of a pin, projected and inferred again *)

Lemma twice_distance_spec (core : Qt.QRectF) (size px py : Z) (side : Design.Side) :
  (Geometry.distance core (inject_Z px + inject_Z size / 2)
     (inject_Z py + inject_Z size / 2) side
   == inject_Z (Geometry.twice_distance core size px py side) / 2)%Q.
Proof.
  destruct side; cbn [Geometry.distance Geometry.twice_distance];
    unfold Qeq, Qabs, Qdiv, Qminus, Qplus, Qmult, Qinv, Qopp, inject_Z;
    cbn [Qnum Qden Z.mul Pos.mul]; lia.
Qed.

Lemma distance_le (core : Qt.QRectF) (size px py : Z) (a b : Design.Side) :
  (Geometry.twice_distance core size px py a
   <= Geometry.twice_distance core size px py b)%Z ->
  (Geometry.distance core (inject_Z px + inject_Z size / 2)
     (inject_Z py + inject_Z size / 2) a
   <= Geometry.distance core (inject_Z px + inject_Z size / 2)
        (inject_Z py + inject_Z size / 2) b)%Q.
Proof.
  intros H. rewrite !twice_distance_spec.
  rewrite Zle_Qle in H. unfold Qdiv.
  apply Qmult_le_compat_r; [exact H | discriminate].
Qed.

Lemma distance_lt (core : Qt.QRectF) (size px py : Z) (a b : Design.Side) :
  (Geometry.twice_distance core size px py a
   < Geometry.twice_distance core size px py b)%Z ->
  (Geometry.distance core (inject_Z px + inject_Z size / 2)
     (inject_Z py + inject_Z size / 2) a
   < Geometry.distance core (inject_Z px + inject_Z size / 2)
       (inject_Z py + inject_Z size / 2) b)%Q.
Proof.
  intros H. rewrite !twice_distance_spec.
  rewrite Zlt_Qlt in H. unfold Qdiv.
  apply Qmult_lt_compat_r; [reflexivity | exact H].
Qed.

(** The nearest side is the one that is nowhere beaten: no side is
    nearer, and the sides before it in the order are strictly farther. *)
Lemma nearest_side_is (core : Qt.QRectF) (cx cy : Q) (t : Design.Side) :
  (forall c, (Geometry.distance core cx cy t <= Geometry.distance core cx cy c)%Q) ->
  (forall c, (Geometry.priority c < Geometry.priority t)%nat ->
             (Geometry.distance core cx cy t < Geometry.distance core cx cy c)%Q) ->
  Gui.nearest_side core cx cy = t.
Proof.
  intros Hmin Hstrict.
  pose proof (nearest_side_spec core cx cy t) as [Hle Hlt]. cbv zeta in *.
  destruct (Gui.nearest_side core cx cy) eqn:Hs, t; try reflexivity;
    cbn [Geometry.priority] in *;
    first [ (* the found side comes after [t] *)
            specialize (Hlt ltac:(lia));
            match goal with
            | |- ?s = _ => pose proof (Hmin s)
            end; lra
          | (* the found side comes before [t] *)
            match goal with
            | |- ?s = _ => pose proof (Hstrict s ltac:(cbn; lia))
            end; lra ].
Qed.

(** The export infers the side of a pin from its position.  For a pin
    placed by the projection this is the projected side on N and S; a pin
    on W or E that was clamped into a corner is taken for a pin of the
    adjacent N or S side. *)
Theorem inferred_side_of_projected_pin
    (self : Gui.Main) (it : Gui.PinItem) (x y : Q) (x' y' : Z) (side : Design.Side)
    (Hcore : Gui.core it = Gui.core_rect self)
    (Hsize : (0 <= Gui.size it)%Z)
    (Hw : (Gui.size it <= Qt.rwidth (Gui.core it))%Z)
    (Hh : (Gui.size it <= Qt.rheight (Gui.core it))%Z)
    (Hw0 : (0 < Qt.rwidth (Gui.core it))%Z)
    (Hh0 : (0 < Qt.rheight (Gui.core it))%Z)
    (Hproj : Gui._project_to_perimeter it x y = Some (x', y', side)) :
  Gui._infer_pin_side self
    (Gui.mkPin (Gui.pin_name it) (Gui.size it) (Gui.pin_grid it) (Gui.core it)
               (inject_Z x', inject_Z y'))
  = match side with
    | Design.SideN => Design.SideN
    | Design.SideS => Design.SideS
    | _ =>
        if (y' =? Qt.top (Gui.core it))%Z then Design.SideN
        else if (y' =? Qt.bottom (Gui.core it) - Gui.size it)%Z then Design.SideS
        else side
    end.
Proof.
  unfold Gui._infer_pin_side. cbn [Gui.pin_pos Gui.size fst snd]. rewrite <- Hcore.
  unfold Gui._project_to_perimeter in Hproj.
  destruct (Gui.nearest_side (Gui.core it) _ _);
    match type of Hproj with
    | context [Gui._snap ?v ?g] => destruct (Gui._snap v g) as [s|]; [| discriminate]
    end;
    cbn [mbind option_bind] in Hproj; injection Hproj as <- <- <-;
    repeat match goal with
           | |- context [(?u =? ?v)%Z] => destruct (Z.eqb_spec u v)
           end;
    (apply nearest_side_is; intros c;
     [ apply distance_le | intros Hp; apply distance_lt ];
     destruct c; cbn [Geometry.priority] in *;
     unfold Geometry.twice_distance, Qt.left, Qt.right, Qt.top, Qt.bottom in *;
     lia).
Qed.

Lemma inferred_side_of_projected_pin_witness :
  Gui._project_to_perimeter Examples.pin_a (45 # 1) (-60 # 1)
    = Some (30%Z, 40%Z, Design.SideW) /\
  Gui._infer_pin_side
    (Gui.mkMain 20 280 280 40 [] [] [] ∅ [])
    (Gui.mkPin "a" 10 20 Examples.core_200 (inject_Z 30, inject_Z 40))
  = Design.SideN.
Proof.
  assert (Hp : Gui._project_to_perimeter Examples.pin_a (45 # 1) (-60 # 1)
               = Some (30%Z, 40%Z, Design.SideW)) by reflexivity.
  split; [exact Hp |].
  apply (inferred_side_of_projected_pin (Gui.mkMain 20 280 280 40 [] [] [] ∅ [])
           Examples.pin_a (45 # 1) (-60 # 1) 30 40 Design.SideW);
    first [reflexivity | exact Hp | vm_compute; discriminate].
Defined.

(** ** The weight tables *)







(** The running maximum bounds every weight of both tables, and
    [max_weight] is positive; when no [bw] is negative and some weight is
    positive, [max_weight] is the greatest weight. *)
Lemma maxw_invariant (nets : list Design.Net) :
  forall c : Gui.Connectivity,
    ((forall k, (Gui.weight_of (Gui.mm c) k <= Gui.maxw c)%Z) /\
     (forall k, (Gui.weight_of (Gui.mp c) k <= Gui.maxw c)%Z) /\
     (0 <= Gui.maxw c)%Z) ->
    let c' := fold_left Gui.connect_net nets c in
    (forall k, (Gui.weight_of (Gui.mm c') k <= Gui.maxw c')%Z) /\
    (forall k, (Gui.weight_of (Gui.mp c') k <= Gui.maxw c')%Z) /\
    (0 <= Gui.maxw c')%Z.
Proof.
  assert (Hmm : forall wt l c,
    ((forall k, (Gui.weight_of (Gui.mm c) k <= Gui.maxw c)%Z) /\
     (forall k, (Gui.weight_of (Gui.mp c) k <= Gui.maxw c)%Z) /\
     (0 <= Gui.maxw c)%Z) ->
    let c' := fold_left (Gui.add_mm wt) l c in
    (forall k, (Gui.weight_of (Gui.mm c') k <= Gui.maxw c')%Z) /\
    (forall k, (Gui.weight_of (Gui.mp c') k <= Gui.maxw c')%Z) /\
    (0 <= Gui.maxw c')%Z).
  { intros wt l. induction l as [|ab l IH]; intros c Hc; cbn [fold_left]; [exact Hc |].
    apply IH. destruct Hc as (H1 & H2 & H3). unfold Gui.add_mm.
    cbn [Gui.mm Gui.mp Gui.maxw]. split; [| split].
    - intros k. rewrite weight_of_insert. destruct (decide _); [lia |].
      specialize (H1 k). lia.
    - intros k. specialize (H2 k). lia.
    - lia. }
  assert (Hmp : forall wt l c,
    ((forall k, (Gui.weight_of (Gui.mm c) k <= Gui.maxw c)%Z) /\
     (forall k, (Gui.weight_of (Gui.mp c) k <= Gui.maxw c)%Z) /\
     (0 <= Gui.maxw c)%Z) ->
    let c' := fold_left (Gui.add_mp wt) l c in
    (forall k, (Gui.weight_of (Gui.mm c') k <= Gui.maxw c')%Z) /\
    (forall k, (Gui.weight_of (Gui.mp c') k <= Gui.maxw c')%Z) /\
    (0 <= Gui.maxw c')%Z).
  { intros wt l. induction l as [|ab l IH]; intros c Hc; cbn [fold_left]; [exact Hc |].
    apply IH. destruct Hc as (H1 & H2 & H3). unfold Gui.add_mp.
    cbn [Gui.mm Gui.mp Gui.maxw]. split; [| split].
    - intros k. specialize (H1 k). lia.
    - intros k. rewrite weight_of_insert. destruct (decide _); [lia |].
      specialize (H2 k). lia.
    - lia. }
  induction nets as [|net nets IH]; intros c Hc; cbn [fold_left]; [exact Hc |].
  apply IH. unfold Gui.connect_net.
  destruct (Gui.classify (Design.endpoints net)) as [mods pins].
  apply Hmp, Hmm, Hc.
Qed.

(** With no negative [bw] the running maximum is one of the weights, or
    still 0. *)
Lemma maxw_attained (nets : list Design.Net) :
  (forall net, net ∈ nets -> (0 <= default 1 (Design.bw net))%Z) ->
  forall c : Gui.Connectivity,
    (Gui.maxw c = 0%Z \/
     exists k, Gui.weight_of (Gui.mm c) k = Gui.maxw c \/
               Gui.weight_of (Gui.mp c) k = Gui.maxw c) ->
    let c' := fold_left Gui.connect_net nets c in
    Gui.maxw c' = 0%Z \/
    exists k, Gui.weight_of (Gui.mm c') k = Gui.maxw c' \/
              Gui.weight_of (Gui.mp c') k = Gui.maxw c'.
Proof.
  assert (Hmm : forall wt l c, (0 <= wt)%Z ->
    (Gui.maxw c = 0%Z \/
     exists k, Gui.weight_of (Gui.mm c) k = Gui.maxw c \/
               Gui.weight_of (Gui.mp c) k = Gui.maxw c) ->
    let c' := fold_left (Gui.add_mm wt) l c in
    Gui.maxw c' = 0%Z \/
    exists k, Gui.weight_of (Gui.mm c') k = Gui.maxw c' \/
              Gui.weight_of (Gui.mp c') k = Gui.maxw c').
  { intros wt l. induction l as [|ab l IH]; intros c Hwt Hc; cbn [fold_left];
      [exact Hc |].
    apply IH; [exact Hwt |]. unfold Gui.add_mm. cbn [Gui.mm Gui.mp Gui.maxw].
    set (k0 := Gui._pair (fst ab) (snd ab)).
    destruct (Z.le_gt_cases (Gui.maxw c) (Gui.weight_of (Gui.mm c) k0 + wt)) as [Hge|Hlt].
    - right. exists k0. left. rewrite weight_of_insert, decide_True by reflexivity. lia.
    - destruct Hc as [H0|(k & [Hk|Hk])].
      + left. lia.
      + right. exists k. left. rewrite weight_of_insert.
        destruct (decide (k0 = k)) as [<-|_]; lia.
      + right. exists k. right. lia. }
  assert (Hmp : forall wt l c, (0 <= wt)%Z ->
    (Gui.maxw c = 0%Z \/
     exists k, Gui.weight_of (Gui.mm c) k = Gui.maxw c \/
               Gui.weight_of (Gui.mp c) k = Gui.maxw c) ->
    let c' := fold_left (Gui.add_mp wt) l c in
    Gui.maxw c' = 0%Z \/
    exists k, Gui.weight_of (Gui.mm c') k = Gui.maxw c' \/
              Gui.weight_of (Gui.mp c') k = Gui.maxw c').
  { intros wt l. induction l as [|ab l IH]; intros c Hwt Hc; cbn [fold_left];
      [exact Hc |].
    apply IH; [exact Hwt |]. unfold Gui.add_mp. cbn [Gui.mm Gui.mp Gui.maxw].
    destruct (Z.le_gt_cases (Gui.maxw c) (Gui.weight_of (Gui.mp c) ab + wt)) as [Hge|Hlt].
    - right. exists ab. right. rewrite weight_of_insert, decide_True by reflexivity. lia.
    - destruct Hc as [H0|(k & [Hk|Hk])].
      + left. lia.
      + right. exists k. left. lia.
      + right. exists k. right. rewrite weight_of_insert.
        destruct (decide (ab = k)) as [<-|_]; lia. }
  intros Hbw. induction nets as [|net nets IH]; intros c Hc; cbn [fold_left];
    [exact Hc |].
  apply IH; [intros n Hn; apply Hbw; right; exact Hn |].
  unfold Gui.connect_net.
  destruct (Gui.classify (Design.endpoints net)) as [mods pins].
  assert (Hwt : (0 <= default 1 (Design.bw net))%Z) by (apply Hbw; left).
  apply Hmp; [exact Hwt |]. apply Hmm; [exact Hwt | exact Hc].
Qed.

(** The running maximum bounds every weight of both tables, and
    [max_weight] is positive; when no [bw] is negative, [max_weight] is
    the greatest of the weights, or 1 when no weight is positive. *)
Theorem max_weight_bounds_every_edge (nets : list Design.Net) :
  let '(mm, mp, max_weight) := Gui._build_connectivity nets in
  (forall k, (Gui.weight_of mm k <= max_weight)%Z /\
             (Gui.weight_of mp k <= max_weight)%Z) /\
  (0 < max_weight)%Z /\
  ((forall net, net ∈ nets -> (0 <= default 1 (Design.bw net))%Z) ->
   (exists k, Gui.weight_of mm k = max_weight \/ Gui.weight_of mp k = max_weight) \/
   (max_weight = 1%Z /\
    forall k, (Gui.weight_of mm k <= 0)%Z /\ (Gui.weight_of mp k <= 0)%Z)).
Proof.
  unfold Gui._build_connectivity.
  destruct (maxw_invariant nets (Gui.mkConn ∅ ∅ 0)) as (H1 & H2 & H3).
  { cbn [Gui.mm Gui.mp Gui.maxw]. unfold Gui.weight_of.
    split; [| split]; intros; rewrite ?lookup_empty; cbn; lia. }
  cbv zeta in *.
  set (c' := fold_left Gui.connect_net nets (Gui.mkConn ∅ ∅ 0)) in *.
  destruct (Z.ltb_spec 0 (Gui.maxw c')) as [Hpos|Hzero].
  - split; [intros k; specialize (H1 k); specialize (H2 k); lia |].
    split; [exact Hpos |]. intros Hbw.
    destruct (maxw_attained nets Hbw (Gui.mkConn ∅ ∅ 0)) as [H0|Hk].
    { left. reflexivity. }
    + fold c' in H0. lia.
    + left. exact Hk.
  - split; [intros k; specialize (H1 k); specialize (H2 k); lia |].
    split; [lia |]. intros _. right. split; [reflexivity |].
    intros k. specialize (H1 k). specialize (H2 k). lia.
Qed.

(** ** More on the wirelength *)

Lemma spread_nonneg (vs : list Q) : (0 <= Gui.spread vs)%Q.
Proof.
  destruct vs as [|v vs]; cbn [Gui.spread]; [apply Qle_refl |].
  destruct (max_list_spec vs v) as [_ Hmax], (min_list_spec vs v) as [_ Hmin].
  specialize (Hmax v ltac:(left)). specialize (Hmin v ltac:(left)). lra.
Qed.

Lemma hpwl_net_nonneg (self : Gui.Main) (endpoints : list string) :
  (0 <= Gui._hpwl_net self endpoints)%Q.
Proof.
  unfold Gui._hpwl_net. destruct (_ <? 2)%nat; [apply Qle_refl |].
  pose proof (spread_nonneg (map fst (Gui.points self endpoints))).
  pose proof (spread_nonneg (map snd (Gui.points self endpoints))). lra.
Qed.

(** The greatest and the least value depend on the members only. *)
Lemma is_max_unique (m m' : Q) (l l' : list Q) :
  l ≡ₚ l' -> Claimed.is_max m l -> Claimed.is_max m' l' -> (m == m')%Q.
Proof.
  intros Hp [(v & Hv & Hve) Hub] [(v' & Hv' & Hve') Hub'].
  rewrite Hp in Hv. apply Hub' in Hv. rewrite <- Hp in Hv'. apply Hub in Hv'. lra.
Qed.

Lemma is_min_unique (m m' : Q) (l l' : list Q) :
  l ≡ₚ l' -> Claimed.is_min m l -> Claimed.is_min m' l' -> (m == m')%Q.
Proof.
  intros Hp [(v & Hv & Hve) Hlb] [(v' & Hv' & Hve') Hlb'].
  rewrite Hp in Hv. apply Hlb' in Hv. rewrite <- Hp in Hv'. apply Hlb in Hv'. lra.
Qed.

Lemma spread_Permutation (l l' : list Q) : l ≡ₚ l' -> (Gui.spread l == Gui.spread l')%Q.
Proof.
  intros Hp. destruct l as [|v vs], l' as [|v' vs'].
  - reflexivity.
  - apply Permutation_nil_l in Hp. discriminate.
  - apply Permutation_nil_r in Hp. discriminate.
  - cbn [Gui.spread].
    pose proof (is_max_unique _ _ _ _ Hp (max_list_spec vs v) (max_list_spec vs' v')).
    pose proof (is_min_unique _ _ _ _ Hp (min_list_spec vs v) (min_list_spec vs' v')).
    lra.
Qed.

(** The HPWL of a net is never negative, does not depend on the order
    of the endpoints, and the total is never negative. *)
Theorem hpwl_nonnegative_and_order_free (self : Gui.Main) :
  (forall endpoints, (0 <= Gui._hpwl_net self endpoints)%Q) /\
  (forall endpoints endpoints',
     endpoints ≡ₚ endpoints' ->
     (Gui._hpwl_net self endpoints == Gui._hpwl_net self endpoints')%Q) /\
  (0 <= Gui._update_hpwl self)%Q.
Proof.
  split; [apply hpwl_net_nonneg |]. split.
  - intros eps eps' Hp. unfold Gui._hpwl_net.
    assert (Hpts : Gui.points self eps ≡ₚ Gui.points self eps').
    { unfold Gui.points. rewrite Hp. reflexivity. }
    rewrite (Permutation_length Hpts).
    destruct (_ <? 2)%nat; [reflexivity |].
    assert (H1 : map fst (Gui.points self eps) ≡ₚ map fst (Gui.points self eps')).
    { change (map ?f ?l) with (f <$> l). rewrite Hpts. reflexivity. }
    assert (H2 : map snd (Gui.points self eps) ≡ₚ map snd (Gui.points self eps')).
    { change (map ?f ?l) with (f <$> l). rewrite Hpts. reflexivity. }
    rewrite (spread_Permutation _ _ H1), (spread_Permutation _ _ H2). reflexivity.
  - unfold Gui._update_hpwl. rewrite fold_total.
    generalize (take 500 (Gui.nets self)). intros l.
    induction l as [|n l IH]; cbn [map Claimed.sum_Q fold_right]; [lra |].
    fold (Claimed.sum_Q (map (fun net => Gui._hpwl_net self (Design.endpoints net)) l)).
    pose proof (hpwl_net_nonneg self (Design.endpoints n)). 
    fold (Claimed.sum_Q (map (fun net => Gui._hpwl_net self (Design.endpoints net)) l)) in IH.
    lra.
Qed.

(** ** Export: coordinates, groups and lines *)

Lemma gui_to_ll_eq (self : Gui.Main) (x_gui y_gui h_box : Z) :
  Gui._gui_to_ll self x_gui y_gui h_box
  = (x_gui, (Gui.h self - (y_gui + h_box))%Z).
Proof.
  unfold Gui._gui_to_ll.
  destruct (Z.eqb_spec h_box 0) as [->|Hne]; cbn [negb];
    rewrite !to_um_id; f_equal; lia.
Qed.


(** Sorting by key: the same items, in non-decreasing order of the key. *)
Lemma insert_by_key_Permutation {A : Type} (key : A -> Z) (a : A) (l : list A) :
  Py.insert_by_key key a l ≡ₚ a :: l.
Proof.
  induction l as [|b l IH]; cbn [Py.insert_by_key]; [reflexivity |].
  destruct (key a <=? key b)%Z; [reflexivity |].
  rewrite IH. apply Permutation_swap.
Qed.

Lemma sort_by_key_Permutation {A : Type} (key : A -> Z) (l : list A) :
  Py.sort_by_key key l ≡ₚ l.
Proof.
  unfold Py.sort_by_key. induction l as [|a l IH]; cbn [fold_right]; [reflexivity |].
  rewrite insert_by_key_Permutation, IH. reflexivity.
Qed.



(** The groups before they are sorted: each pin in the group of its
    inferred side, in the order of the dictionary. *)
Lemma groups_fold (self : Gui.Main) (side : Design.Side)
    (pins : list (string * Gui.PinItem)) :
  forall acc : Gui.Groups,
    Gui.group
      (fold_left
         (fun groups '(name, it) =>
            let side := Gui._infer_pin_side self it in
            let '(x_ll, y_ll) :=
              Gui._gui_to_ll self (Py.int (fst (Gui.pin_pos it)))
                             (Py.int (snd (Gui.pin_pos it))) 0 in
            let key_um :=
              match side with
              | Design.SideN | Design.SideS =>
                  (x_ll - Gui.to_um (Qt.left (Gui.core_rect self)))%Z
              | _ => (y_ll - Gui.to_um (Gui.h self - Qt.bottom (Gui.core_rect self)))%Z
              end in
            Gui.group_append groups side (name, key_um))
         pins acc) side
    = Gui.group acc side
      ++ omap (fun '(name, it) =>
                 if decide (Gui._infer_pin_side self it = side)
                 then Some (name, Tables.along_key self it) else None) pins.
Proof.
  induction pins as [|[name it] pins IH]; intros acc; cbn [fold_left omap list_omap].
  - rewrite app_nil_r. reflexivity.
  - rewrite IH. clear IH.
    destruct (Gui._gui_to_ll self _ _ 0) as [x_ll y_ll] eqn:Hll.
    pose proof (gui_to_ll_eq self (Py.int (fst (Gui.pin_pos it)))
                  (Py.int (snd (Gui.pin_pos it))) 0) as Hf.
    rewrite Hll in Hf. injection Hf as -> ->.
    rewrite !to_um_id.
    match goal with
    | |- context [Gui.group_append acc ?s (name, ?k)] =>
        assert (Hkey : k = Tables.along_key self it)
          by (unfold Tables.along_key, Qt.bottom, Qt.left;
              destruct (Gui._infer_pin_side self it); lia);
        rewrite Hkey; clear Hkey
    end.
    destruct (Gui._infer_pin_side self it) eqn:Hs, side;
      cbn [Gui.group_append Gui.group];
      repeat match goal with
             | |- context [decide (?a = ?b)] => destruct (decide (a = b)); try congruence
             end;
      cbn [Gui.group_N Gui.group_S Gui.group_E Gui.group_W];
      rewrite <- ?app_assoc; reflexivity.
Qed.

Lemma pins_grouped_sorted_eq (self : Gui.Main) (side : Design.Side) :
  Gui.group (Gui._pins_grouped_sorted self) side
  = Py.sort_by_key snd (Tables.entries_of_side self side).
Proof.
  unfold Gui._pins_grouped_sorted, Tables.entries_of_side.
  pose proof (groups_fold self side (Gui.pin_items self) (Gui.mkGroups [] [] [] []))
    as Hg.
  destruct side; cbn [Gui.group] in *; rewrite Hg; reflexivity.
Qed.

Lemma pins_grouped_sorted_groups_perm (self : Gui.Main) (side : Design.Side) :
  Gui.group (Gui._pins_grouped_sorted self) side ≡ₚ Tables.entries_of_side self side.
Proof. rewrite pins_grouped_sorted_eq. apply sort_by_key_Permutation. Qed.




(** The names written for a pin are those of its bus, in order. *)
Lemma place_bits_names (side : Design.Side) (step mn mx start : Z) (bits : list string) :
  forall i cursor,
    map Gui.bit_name (fst (Gui.place_bits side step mn mx start i bits cursor)) = bits.
Proof.
  induction bits as [|b bits IH]; intros i cursor; cbn [Gui.place_bits]; [reflexivity |].
  match goal with
  | |- context [Gui.place_bits ?s ?st ?a ?b' ?c ?d ?e ?f] =>
      specialize (IH d f); destruct (Gui.place_bits s st a b' c d e f) as [lines c']
  end.
  cbn [fst map Gui.bit_name] in *. rewrite IH. reflexivity.
Qed.

Lemma place_pins_names (ports : list Design.Port) (side : Design.Side)
    (step mn mx : Z) (pins : list (string * Z)) :
  forall cursor,
    map Gui.bit_name (Gui.place_pins ports side step mn mx pins cursor)
    = Tables.bus_names ports pins.
Proof.
  unfold Tables.bus_names.
  induction pins as [|[name base] pins IH]; intros cursor;
    cbn [Gui.place_pins flat_map]; [reflexivity |].
  match goal with
  | |- context [Gui.place_bits ?s ?st ?a ?b' ?c ?d ?e ?f] =>
      pose proof (place_bits_names s st a b' c e d f) as Hb;
      destruct (Gui.place_bits s st a b' c d e f) as [lines c']
  end.
  cbn [fst] in Hb. rewrite map_app, Hb, IH. reflexivity.
Qed.

Lemma bus_names_length_Permutation (ports : list Design.Port) (l l' : list (string * Z)) :
  l ≡ₚ l' -> length (Tables.bus_names ports l) = length (Tables.bus_names ports l').
Proof.
  unfold Tables.bus_names.
  induction 1 as [|x l l' Hp IH|x y l|l l' l'' H1 IH1 H2 IH2];
    cbn [flat_map]; rewrite ?length_app; lia.
Qed.

(** The four groups together hold every pin once. *)
Lemma entries_partition (self : Gui.Main) :
  Tables.entries_of_side self Design.SideN
    ++ Tables.entries_of_side self Design.SideS
    ++ Tables.entries_of_side self Design.SideE
    ++ Tables.entries_of_side self Design.SideW
  ≡ₚ map (fun '(name, it) => (name, Tables.along_key self it)) (Gui.pin_items self).
Proof.
  unfold Tables.entries_of_side.
  induction (Gui.pin_items self) as [|[name it] pins IH]; cbn [omap list_omap map];
    [reflexivity |].
  destruct (Gui._infer_pin_side self it);
    repeat match goal with
           | |- context [decide (?a = ?b)] => destruct (decide (a = b)); try congruence
           end;
    cbn [app]; rewrite <- IH.
  - reflexivity.
  - symmetry. apply Permutation_middle.
  - rewrite !app_assoc. symmetry. rewrite <- !app_assoc.
    rewrite (app_assoc (omap _ pins) (omap _ pins) (omap _ pins ++ _ :: _)).
    rewrite (app_assoc (omap _ pins ++ omap _ pins) (omap _ pins) (_ :: _)).
    rewrite <- Permutation_middle. rewrite <- !app_assoc. reflexivity.
  - rewrite (app_assoc (omap _ pins) (omap _ pins) (_ :: omap _ pins ++ _)).
    rewrite <- Permutation_middle. rewrite <- !app_assoc. reflexivity.
Qed.

(** The file names, side by side, the bits of each pin of the side in
    the sorted order, bus by bus from bit 0; every pin of the design thus
    gets one line for a scalar and [width] lines for a bus. *)
Theorem pin_placement_lines (self : Gui.Main) :
  (forall side,
     map Gui.bit_name (Gui.side_lines self side)
     = Tables.bus_names (Gui.ports self)
         (Gui.group (Gui._pins_grouped_sorted self) side)) /\
  length (Gui._write_pin_placement_cfg self)
  = sum_list (map (fun '(name, _) =>
                     Z.to_nat (Z.max 1 (Gui.port_width (Gui.ports self) name)))
                  (Gui.pin_items self)).
Proof.
  assert (Hnames : forall side,
    map Gui.bit_name (Gui.side_lines self side)
    = Tables.bus_names (Gui.ports self)
        (Gui.group (Gui._pins_grouped_sorted self) side)).
  { intros side. unfold Gui.side_lines. apply place_pins_names. }
  split; [exact Hnames |].
  assert (Hlen : forall side,
    length (Gui.side_lines self side)
    = length (Tables.bus_names (Gui.ports self) (Tables.entries_of_side self side))).
  { intros side. rewrite <- (length_map Gui.bit_name), Hnames.
    apply bus_names_length_Permutation, pins_grouped_sorted_groups_perm. }
  unfold Gui._write_pin_placement_cfg. cbn [flat_map].
  rewrite !length_app, !Hlen. cbn [length].
  transitivity (length (Tables.bus_names (Gui.ports self)
     (Tables.entries_of_side self Design.SideN
      ++ Tables.entries_of_side self Design.SideS
      ++ Tables.entries_of_side self Design.SideE
      ++ Tables.entries_of_side self Design.SideW))).
  { unfold Tables.bus_names. rewrite !flat_map_app, !length_app. lia. }
  rewrite (bus_names_length_Permutation _ _ _ (entries_partition self)).
  unfold Tables.bus_names.
  induction (Gui.pin_items self) as [|[name it] pins IH]; cbn [map flat_map sum_list];
    [reflexivity |].
  rewrite length_app, IH. f_equal.
  apply (proj1 (expand_bus_length name (Gui.port_width (Gui.ports self) name))).
Qed.




(** ** More on the ingestion *)

(** What a successful [build_design] went through. *)
Lemma build_design_inv (modules : list (string * Ingest.YosysModule)) (top : string)
    (die_w die_h grid core_margin : Z) (max_side_frac : float) (min_side_px : Z)
    (d : Ingest.DesignOut) :
  Ingest.build_design modules top die_w die_h grid core_margin max_side_frac min_side_px
    = Some d ->
  exists topm mods_base sc,
    Py.dict_get modules top = Some topm /\
    Ingest.mods_base_of modules (Ingest.cells topm) = Some mods_base /\
    Ingest.scale_of mods_base die_w die_h grid core_margin max_side_frac min_side_px
      = Some sc /\
    Ingest.pack sc die_w grid core_margin mods_base
      (core_margin + grid) (core_margin + grid) 0 = Some (Ingest.modules_out d) /\
    Ingest.die d = Ingest.mkDie die_w die_h grid core_margin /\
    Ingest.top d = top /\
    Ingest.ports d = Ingest.ports_of topm.
Proof.
  intros Hb. unfold Ingest.build_design in Hb.
  destruct (Py.dict_get modules top) as [topm|]; [| discriminate].
  cbn [mbind option_bind] in Hb.
  destruct (Ingest.mods_base_of modules (Ingest.cells topm)) as [mb|] eqn:Hmb;
    [| discriminate].
  cbn [mbind option_bind] in Hb.
  destruct (Ingest.scale_of mb die_w die_h grid core_margin max_side_frac min_side_px)
    as [sc|] eqn:Hsc; [| discriminate].
  cbn [mbind option_bind] in Hb.
  destruct (Ingest.pack sc die_w grid core_margin mb (core_margin + grid)
              (core_margin + grid) 0) as [mo|] eqn:Hp; [| discriminate].
  cbn [mbind option_bind] in Hb. injection Hb as <-.
  exists topm, mb, sc. cbn. repeat split; assumption || reflexivity.
Qed.

Lemma mods_base_of_names (modules : list (string * Ingest.YosysModule))
    (cells : list (string * Ingest.Cell)) :
  forall mb, Ingest.mods_base_of modules cells = Some mb ->
    map Ingest.mb_inst mb = map fst cells /\
    map Ingest.mb_type mb = map (fun c => Ingest.cell_type (snd c)) cells.
Proof.
  induction cells as [|[inst cobj] cells IH]; intros mb H; cbn [Ingest.mods_base_of] in H.
  - injection H as <-. split; reflexivity.
  - destruct (Ingest.math_sqrt _) as [s|]; [| discriminate]. cbn [mbind option_bind] in H.
    destruct (Ingest.mods_base_of modules cells) as [rest|]; [| discriminate].
    cbn [mbind option_bind] in H. injection H as <-.
    destruct (IH rest eq_refl) as [H1 H2]. cbn [map Ingest.mb_inst Ingest.mb_type fst snd].
    rewrite H1, H2. split; reflexivity.
Qed.

(** The packing loop: what it keeps for every module it places, and
    between the modules. *)
Lemma pack_modules (sc : Ingest.Scale) (die_w grid core_margin : Z)
    (mods_base : list Ingest.ModBase) :
  (0 <= grid)%Z -> (0 <= Ingest.min_side sc)%Z ->
  forall (x y row_h : Z) (ms : list Design.Module_),
    (core_margin + grid <= x)%Z -> (0 <= row_h)%Z ->
    Ingest.pack sc die_w grid core_margin mods_base x y row_h = Some ms ->
    map Design.inst ms = map Ingest.mb_inst mods_base /\
    map Design.type ms = map Ingest.mb_type mods_base /\
    Forall (fun m =>
      Design.orient m = "N"%string /\ Design.h m = Design.w m /\
      (Ingest.min_side sc <= Design.w m)%Z /\
      (core_margin + grid <= Design.x m)%Z /\ (y <= Design.y m)%Z /\
      (Design.x m = core_margin + grid \/ Design.x m + Design.w m <= die_w - core_margin)%Z /\
      ((Design.y m = y /\ x <= Design.x m) \/ (y + row_h + grid <= Design.y m))%Z) ms /\
    StronglySorted (fun a b =>
      (Design.y a = Design.y b /\ Design.x a + Design.w a + grid <= Design.x b) \/
      (Design.y a + Design.h a + grid <= Design.y b))%Z ms.
Proof.
  intros Hgrid Hmin.
  induction mods_base as [|m mods IH]; intros x y row_h ms Hx Hrow Hp;
    cbn [Ingest.pack] in Hp.
  - injection Hp as <-. repeat split; constructor.
  - destruct (Ingest.side_of sc m) as [side|] eqn:Hside; [| discriminate].
    cbn [mbind option_bind] in Hp.
    assert (Hs : (Ingest.min_side sc <= side)%Z).
    { unfold Ingest.side_of in Hside.
      destruct (Ingest.round_float _); [| discriminate].
      cbn [mbind option_bind] in Hside. injection Hside as <-. lia. }
    destruct (Z.ltb_spec (die_w - core_margin) (x + side)) as [Hwrap|Hfit].
    + destruct (Ingest.pack sc die_w grid core_margin mods
                  (core_margin + grid + (side + grid)) (y + (row_h + grid))
                  (Z.max 0 side)) as [rest|] eqn:Hrest; [| discriminate].
      cbn [mbind option_bind] in Hp. injection Hp as <-.
      assert (Hx' : (core_margin + grid <= core_margin + grid + (side + grid))%Z) by lia.
      assert (Hr' : (0 <= Z.max 0 side)%Z) by lia.
      destruct (IH _ _ _ rest Hx' Hr' Hrest) as (H1 & H2 & H3 & H4).
      cbn [map Design.inst Design.type]. rewrite H1, H2.
      split; [reflexivity |]. split; [reflexivity |]. split.
      * constructor.
        -- cbn. repeat split; try reflexivity; lia.
        -- eapply Forall_impl; [exact H3 |]. cbv beta. intros a Ha. intuition lia.
      * constructor; [exact H4 |].
        eapply Forall_impl; [exact H3 |]. cbv beta. cbn. intros a Ha. intuition lia.
    + destruct (Ingest.pack sc die_w grid core_margin mods (x + (side + grid)) y
                  (Z.max row_h side)) as [rest|] eqn:Hrest; [| discriminate].
      cbn [mbind option_bind] in Hp. injection Hp as <-.
      assert (Hx' : (core_margin + grid <= x + (side + grid))%Z) by lia.
      assert (Hr' : (0 <= Z.max row_h side)%Z) by lia.
      destruct (IH _ _ _ rest Hx' Hr' Hrest) as (H1 & H2 & H3 & H4).
      cbn [map Design.inst Design.type]. rewrite H1, H2.
      split; [reflexivity |]. split; [reflexivity |]. split.
      * constructor.
        -- cbn. repeat split; try reflexivity; lia.
        -- eapply Forall_impl; [exact H3 |]. cbv beta. intros a Ha. intuition lia.
      * constructor; [exact H4 |].
        eapply Forall_impl; [exact H3 |]. cbv beta. cbn. intros a Ha. intuition lia.
Qed.

Lemma scale_of_min_side (mods_base : list Ingest.ModBase)
    (die_w die_h grid core_margin : Z) (max_side_frac : float) (min_side_px : Z)
    (sc : Ingest.Scale) :
  Ingest.scale_of mods_base die_w die_h grid core_margin max_side_frac min_side_px
    = Some sc ->
  Ingest.min_side sc = Z.max (2 * grid) min_side_px.
Proof.
  unfold Ingest.scale_of.
  destruct (Ingest.float_of_Z (Z.min _ _)); [| discriminate]. cbn [mbind option_bind].
  destruct (Ingest.round_float _); [| discriminate]. cbn [mbind option_bind].
  destruct (Ingest.float_of_Z _); [| discriminate]. cbn [mbind option_bind].
  destruct (_ =? _)%float; [discriminate |].
  intros H. injection H as <-. reflexivity.
Qed.

Lemma pack_names (sc : Ingest.Scale) (die_w grid core_margin : Z)
    (mods_base : list Ingest.ModBase) :
  forall (x y row_h : Z) (ms : list Design.Module_),
    Ingest.pack sc die_w grid core_margin mods_base x y row_h = Some ms ->
    map Design.inst ms = map Ingest.mb_inst mods_base /\
    map Design.type ms = map Ingest.mb_type mods_base /\
    Forall (fun m => Design.orient m = "N"%string /\ Design.h m = Design.w m) ms.
Proof.
  induction mods_base as [|m mods IH]; intros x y row_h ms Hp; cbn [Ingest.pack] in Hp.
  - injection Hp as <-. repeat split; constructor.
  - destruct (Ingest.side_of sc m) as [side|]; [| discriminate].
    cbn [mbind option_bind] in Hp.
    destruct (_ <? _)%Z;
      match type of Hp with
      | context [Ingest.pack ?a ?b ?c ?d ?e ?f ?g ?h] =>
          destruct (Ingest.pack a b c d e f g h) as [rest|] eqn:Hrest; [| discriminate]
      end;
      cbn [mbind option_bind] in Hp; injection Hp as <-;
      destruct (IH _ _ _ rest Hrest) as (H1 & H2 & H3);
      cbn [map Design.inst Design.type]; rewrite H1, H2;
      (split; [reflexivity |]); (split; [reflexivity |]);
      (constructor; [split; reflexivity | exact H3]).
Qed.

(** [build_design] stops when the top module is not in the netlist; a
    design it returns records the die parameters and the top name, and
    has one square module per cell of the top module, in the order of
    the cells, with the cell's instance name and type and the
    orientation N. *)
Theorem build_design_outline (modules : list (string * Ingest.YosysModule)) (top : string)
    (die_w die_h grid core_margin : Z) (max_side_frac : float) (min_side_px : Z) :
  (Py.dict_get modules top = None ->
   Ingest.build_design modules top die_w die_h grid core_margin max_side_frac min_side_px
   = None) /\
  forall d,
    Ingest.build_design modules top die_w die_h grid core_margin max_side_frac min_side_px
      = Some d ->
    exists topm,
      Py.dict_get modules top = Some topm /\
      Ingest.die d = Ingest.mkDie die_w die_h grid core_margin /\
      Ingest.top d = top /\
      map Design.inst (Ingest.modules_out d) = map fst (Ingest.cells topm) /\
      map Design.type (Ingest.modules_out d)
        = map (fun c => Ingest.cell_type (snd c)) (Ingest.cells topm) /\
      Forall (fun m => Design.orient m = "N"%string /\ Design.h m = Design.w m)
             (Ingest.modules_out d).
Proof.
  split.
  - intros Hnone. unfold Ingest.build_design. rewrite Hnone. reflexivity.
  - intros d Hb.
    destruct (build_design_inv _ _ _ _ _ _ _ _ _ Hb)
      as (topm & mb & sc & Htop & Hmb & _ & Hpack & Hdie & Htopn & _).
    exists topm. split; [exact Htop |]. split; [exact Hdie |]. split; [exact Htopn |].
    destruct (pack_names _ _ _ _ _ _ _ _ _ Hpack) as (H1 & H2 & H3).
    destruct (mods_base_of_names _ _ _ Hmb) as [H4 H5].
    rewrite H1, H2, H4, H5. repeat split; try reflexivity. exact H3.
Qed.

(** The ports of an ingested design are the ports of the top module, in
    their order; the width of each is the number of its bits, and 1 when
    it has none, so it is never below 1. *)
Theorem ingested_port_widths (modules : list (string * Ingest.YosysModule)) (top : string)
    (die_w die_h grid core_margin : Z) (max_side_frac : float) (min_side_px : Z)
    (d : Ingest.DesignOut) (topm : Ingest.YosysModule)
    (Htop : Py.dict_get modules top = Some topm)
    (Hbuild : Ingest.build_design modules top die_w die_h grid core_margin
                max_side_frac min_side_px = Some d) :
  map Design.port_name (Ingest.ports d) = map fst (Ingest.ym_ports topm) /\
  map Design.width (Ingest.ports d)
  = map (fun p => Some (Z.max 1 (Z.of_nat (length (Ingest.port_bits (snd p))))))
        (Ingest.ym_ports topm) /\
  Forall (fun p => exists wd, Design.width p = Some wd /\ (1 <= wd)%Z) (Ingest.ports d).
Proof.
  destruct (build_design_inv _ _ _ _ _ _ _ _ _ Hbuild)
    as (topm' & _ & _ & Htop' & _ & _ & _ & _ & _ & Hports).
  rewrite Htop in Htop'. injection Htop' as <-. rewrite Hports.
  unfold Ingest.ports_of. generalize (Ingest.ym_ports topm). intros ps.
  induction ps as [|[pname pobj] ps (IH1 & IH2 & IH3)]; cbn [map];
    [repeat split; constructor |].
  cbn [Design.port_name Design.width fst snd]. rewrite IH1, IH2.
  assert (Hwd : (if (Z.of_nat (length (Ingest.port_bits pobj)) =? 0)%Z then 1%Z
                 else Z.of_nat (length (Ingest.port_bits pobj)))
                = Z.max 1 (Z.of_nat (length (Ingest.port_bits pobj)))).
  { destruct (Z.eqb_spec (Z.of_nat (length (Ingest.port_bits pobj))) 0); lia. }
  rewrite Hwd. repeat split; try reflexivity.
  constructor; [| exact IH3]. eexists. split; [reflexivity | lia].
Qed.

Lemma ingested_port_widths_witness :
  exists d : Ingest.DesignOut,
    Ingest.build_design Examples.netlist "top" 200 200 5 0 0.5%float 10 = Some d /\
    map Design.width (Ingest.ports d) = [Some 1%Z].
Proof.
  assert (Hb : exists d, Ingest.build_design Examples.netlist "top" 200 200 5 0 0.5%float 10
                         = Some d) by (eexists; vm_compute; reflexivity).
  destruct Hb as [d Hb]. exists d. split; [exact Hb |].
  assert (Htop : Py.dict_get Examples.netlist "top" = Some Examples.netlist_top)
    by reflexivity.
  destruct (ingested_port_widths Examples.netlist "top" 200 200 5 0 0.5%float 10 d
              Examples.netlist_top Htop Hb) as (_ & -> & _).
  reflexivity.
Defined.

(** Row packing is free of overlap by construction: of two modules of
    the ingested design the later one starts at least one grid step to
    the right of the earlier one in the same row, or at least one grid
    step below it. *)
Theorem initial_packing_disjoint (modules : list (string * Ingest.YosysModule))
    (top : string) (die_w die_h grid core_margin : Z) (max_side_frac : float)
    (min_side_px : Z) (d : Ingest.DesignOut)
    (Hgrid : (0 <= grid)%Z)
    (Hbuild : Ingest.build_design modules top die_w die_h grid core_margin
                max_side_frac min_side_px = Some d) :
  forall (i j : nat) (a b : Design.Module_),
    (i < j)%nat ->
    Ingest.modules_out d !! i = Some a -> Ingest.modules_out d !! j = Some b ->
    ((Design.y a = Design.y b /\ Design.x a + Design.w a + grid <= Design.x b) \/
     (Design.y a + Design.h a + grid <= Design.y b))%Z /\
    ~ Geometry.overlap (Gui.module_rect a) (Gui.module_rect b).
Proof.
  destruct (build_design_inv _ _ _ _ _ _ _ _ _ Hbuild)
    as (topm & mb & sc & _ & _ & Hsc & Hpack & _).
  pose proof (scale_of_min_side _ _ _ _ _ _ _ _ Hsc) as Hms.
  assert (Hmin : (0 <= Ingest.min_side sc)%Z) by lia.
  destruct (pack_modules sc die_w grid core_margin mb Hgrid Hmin _ _ _ _
              (Z.le_refl _) (Z.le_refl 0) Hpack) as (_ & _ & Hall & Hsorted).
  intros i j a b Hij Hi Hj.
  pose proof (StronglySorted_lookup _ _ Hsorted i j a b Hij Hi Hj) as Hsep.
  split; [exact Hsep |].
  rewrite Forall_forall in Hall.
  pose proof (Hall a (list_elem_of_lookup_2 _ _ _ Hi)) as Ha.
  pose proof (Hall b (list_elem_of_lookup_2 _ _ _ Hj)) as Hb.
  unfold Geometry.overlap, Gui.module_rect, Qt.left, Qt.right, Qt.top, Qt.bottom.
  cbn [Qt.rx Qt.ry Qt.rwidth Qt.rheight]. cbv beta in *. lia.
Qed.

Lemma initial_packing_disjoint_witness :
  (0 <= 5)%Z /\
  exists (d : Ingest.DesignOut) (a b : Design.Module_),
    Ingest.build_design Examples.netlist "top" 200 200 5 0 0.5%float 10 = Some d /\
    Ingest.modules_out d !! 0%nat = Some a /\ Ingest.modules_out d !! 1%nat = Some b /\
    ~ Geometry.overlap (Gui.module_rect a) (Gui.module_rect b).
Proof.
  assert (H5 : (0 <= 5)%Z) by lia. split; [exact H5 |].
  assert (Hb : exists d a b,
             Ingest.build_design Examples.netlist "top" 200 200 5 0 0.5%float 10 = Some d /\
             Ingest.modules_out d !! 0%nat = Some a /\
             Ingest.modules_out d !! 1%nat = Some b)
    by (eexists _, _, _; vm_compute; repeat split; reflexivity).
  destruct Hb as (d & a & b & Hb & Ha & Hb').
  exists d, a, b. split; [exact Hb |]. split; [exact Ha |]. split; [exact Hb' |].
  apply (initial_packing_disjoint Examples.netlist "top" 200 200 5 0 0.5%float 10 d
           H5 Hb 0%nat 1%nat a b ltac:(lia) Ha Hb').
Defined.

(** Every module of the ingested design is at least [max(2 grid,
    min_side_px)] wide, starts at or after the first packing position in
    both directions, and ends within the right bound of the Core unless
    it is the first of its row. *)
Theorem initial_packing_bounds (modules : list (string * Ingest.YosysModule))
    (top : string) (die_w die_h grid core_margin : Z) (max_side_frac : float)
    (min_side_px : Z) (d : Ingest.DesignOut)
    (Hgrid : (0 <= grid)%Z)
    (Hbuild : Ingest.build_design modules top die_w die_h grid core_margin
                max_side_frac min_side_px = Some d) :
  Forall (fun m =>
    (Z.max (2 * grid) min_side_px <= Design.w m)%Z /\
    (core_margin + grid <= Design.x m)%Z /\
    (core_margin + grid <= Design.y m)%Z /\
    (Design.x m = core_margin + grid \/
     Design.x m + Design.w m <= die_w - core_margin)%Z)
    (Ingest.modules_out d).
Proof.
  destruct (build_design_inv _ _ _ _ _ _ _ _ _ Hbuild)
    as (topm & mb & sc & _ & _ & Hsc & Hpack & _).
  pose proof (scale_of_min_side _ _ _ _ _ _ _ _ Hsc) as Hms.
  assert (Hmin : (0 <= Ingest.min_side sc)%Z) by lia.
  destruct (pack_modules sc die_w grid core_margin mb Hgrid Hmin _ _ _ _
              (Z.le_refl _) (Z.le_refl 0) Hpack) as (_ & _ & Hall & _).
  eapply Forall_impl; [exact Hall |]. cbv beta. intros m Hm. rewrite <- Hms. tauto.
Qed.

Lemma initial_packing_bounds_witness :
  (0 <= 5)%Z /\
  exists d : Ingest.DesignOut,
    Ingest.build_design Examples.netlist "top" 200 200 5 0 0.5%float 10 = Some d /\
    Forall (fun m => (10 <= Design.w m)%Z) (Ingest.modules_out d).
Proof.
  assert (H5 : (0 <= 5)%Z) by lia. split; [exact H5 |].
  assert (Hb : exists d, Ingest.build_design Examples.netlist "top" 200 200 5 0 0.5%float 10
                         = Some d) by (eexists; vm_compute; reflexivity).
  destruct Hb as [d Hb]. exists d. split; [exact Hb |].
  eapply Forall_impl;
    [exact (initial_packing_bounds Examples.netlist "top" 200 200 5 0 0.5%float 10 d
              H5 Hb) |].
  cbv beta. intros m Hm. lia.
Defined.

(** Endpoints written by the ingestion, read back by the GUI. *)
Lemma prefix_cons (a b : ascii) (s1 s2 : string) :
  String.prefix (String a s1) (String b s2) = true <-> a = b /\ String.prefix s1 s2 = true.
Proof.
  cbn [String.prefix]. destruct (ascii_dec a b) as [->|Hne]; intuition congruence.
Qed.

Lemma append_cons (c : ascii) (s r : string) :
  (String c s ++ r)%string = String c (s ++ r)%string.
Proof. reflexivity. Qed.

Lemma append_empty (r : string) : (EmptyString ++ r)%string = r.
Proof. reflexivity. Qed.

Lemma split_dot_dotless (inst rest : string) :
  Tables.dotless inst = true ->
  Py.split_dot (inst ++ "." ++ rest) = (inst, Some rest).
Proof.
  induction inst as [|c inst IH]; intros H.
  - reflexivity.
  - cbn [Tables.dotless] in H.
    apply andb_true_iff in H as [Hc Hd]. apply negb_true_iff in Hc.
    rewrite append_cons. cbn [Py.split_dot]. rewrite Hc, (IH Hd). reflexivity.
Qed.

Lemma prefix_top (r : string) : String.prefix "top." ("top." ++ r) = true.
Proof.
  rewrite !append_cons, append_empty.
  repeat (apply prefix_cons; split; [reflexivity |]). destruct r; reflexivity.
Qed.

(** The GUI reads an endpoint [top.<port>] of the ingestion as the pin
    [<port>], and an endpoint [<inst>.<port>] of a cell whose instance
    name has no dot as the module [<inst>], except that a cell named
    [top] is taken for pins. *)
Theorem ingested_endpoint_read_back :
  (forall pname : string,
     Py.startswith ("top." ++ pname) "top." = true /\
     Gui.pin_of ("top." ++ pname) = pname) /\
  (forall inst port : string,
     Tables.dotless inst = true ->
     Gui.mod_of (inst ++ "." ++ port) = inst /\
     (Py.startswith (inst ++ "." ++ port) "top." = true <-> inst = "top"%string)).
Proof.
  split.
  - intros pname. split.
    + unfold Py.startswith. apply prefix_top.
    + unfold Gui.pin_of.
      change ("top." ++ pname)%string with ("top" ++ "." ++ pname)%string.
      rewrite (split_dot_dotless "top" pname eq_refl). reflexivity.
  - intros inst port Hd. split.
    + unfold Gui.mod_of. rewrite (split_dot_dotless inst port Hd). reflexivity.
    + unfold Py.startswith. split.
      * intros Hp.
        destruct inst as [|c1 inst];
          [rewrite append_empty, append_cons in Hp;
           apply prefix_cons in Hp as [Hc _]; discriminate |].
        rewrite append_cons in Hp. apply prefix_cons in Hp as [<- Hp].
        destruct inst as [|c2 inst];
          [rewrite append_empty, append_cons in Hp;
           apply prefix_cons in Hp as [Hc _]; discriminate |].
        rewrite append_cons in Hp. apply prefix_cons in Hp as [<- Hp].
        destruct inst as [|c3 inst];
          [rewrite append_empty, append_cons in Hp;
           apply prefix_cons in Hp as [Hc _]; discriminate |].
        rewrite append_cons in Hp. apply prefix_cons in Hp as [<- Hp].
        destruct inst as [|c4 inst]; [reflexivity |].
        rewrite append_cons in Hp. apply prefix_cons in Hp as [<- _].
        cbn in Hd. discriminate.
      * intros ->. apply (prefix_top port).
Qed.

(** ** Wirelength over the centres of blocks and pins *)

Lemma startswith_top_dotless (inst port : string) :
  Tables.dotless inst = true -> inst <> "top"%string ->
  Py.startswith (inst ++ "." ++ port) "top." = false.
Proof.
  intros Hd Hne. unfold Py.startswith.
  destruct (String.prefix "top." (inst ++ "." ++ port)) eqn:Hp; [| reflexivity].
  exfalso. apply Hne.
  destruct inst as [|c1 inst];
    [rewrite append_empty, append_cons in Hp;
     apply prefix_cons in Hp as [Hc _]; discriminate |].
  rewrite append_cons in Hp. apply prefix_cons in Hp as [<- Hp].
  destruct inst as [|c2 inst];
    [rewrite append_empty, append_cons in Hp;
     apply prefix_cons in Hp as [Hc _]; discriminate |].
  rewrite append_cons in Hp. apply prefix_cons in Hp as [<- Hp].
  destruct inst as [|c3 inst];
    [rewrite append_empty, append_cons in Hp;
     apply prefix_cons in Hp as [Hc _]; discriminate |].
  rewrite append_cons in Hp. apply prefix_cons in Hp as [<- Hp].
  destruct inst as [|c4 inst]; [reflexivity |].
  rewrite append_cons in Hp. apply prefix_cons in Hp as [<- _].
  cbn in Hd. discriminate.
Qed.

(** C9: an endpoint [top.<pin>] resolves to the centre of the pin item of
    that name, an endpoint [<inst>.<port>] to the centre of the block of
    that instance, the centre being the position plus half the width and
    half the height; an endpoint whose pin or block is unknown is
    skipped.  With fewer than two resolved points the HPWL of a net is
    exactly 0, and otherwise it is (max x - min x) + (max y - min y) over
    the resolved centres; the total is the sum of the HPWL of the first
    500 nets at most, in the order of the list.  Centres at (0, 0) and
    (10, 6) give 16, for two blocks and for a block and a pin alike. *)
Theorem hpwl_of_resolved_points (self : Gui.Main) :
  (forall p : string,
     Gui.resolve self ("top." ++ p)
     = match Py.dict_get (Gui.pin_items self) p with
       | Some it => Some (Claimed.centre (Gui.pin_pos it) (Gui.size it) (Gui.size it))
       | None => None
       end) /\
  (forall inst port : string,
     Tables.dotless inst = true -> inst <> "top"%string ->
     Gui.resolve self (inst ++ "." ++ port)
     = match Gui.items self !! inst with
       | Some it => Some (Claimed.centre (Gui.pos it) (Gui.rect_w it) (Gui.rect_h it))
       | None => None
       end) /\
  (forall endpoints : list string,
     Gui.points self endpoints = omap (Gui.resolve self) endpoints) /\
  (forall (eps1 eps2 : list string) (ep : string),
     Gui.resolve self ep = None ->
     Gui._hpwl_net self (eps1 ++ ep :: eps2) = Gui._hpwl_net self (eps1 ++ eps2)) /\
  (forall endpoints : list string,
     (length (omap (Gui.resolve self) endpoints) < 2)%nat ->
     Gui._hpwl_net self endpoints = 0%Q) /\
  (forall endpoints : list string,
     (2 <= length (omap (Gui.resolve self) endpoints))%nat ->
     exists xmax xmin ymax ymin : Q,
       Claimed.is_max xmax (map fst (omap (Gui.resolve self) endpoints)) /\
       Claimed.is_min xmin (map fst (omap (Gui.resolve self) endpoints)) /\
       Claimed.is_max ymax (map snd (omap (Gui.resolve self) endpoints)) /\
       Claimed.is_min ymin (map snd (omap (Gui.resolve self) endpoints)) /\
       Gui._hpwl_net self endpoints = ((xmax - xmin) + (ymax - ymin))%Q) /\
  (Gui._update_hpwl self
   == Claimed.sum_Q (map (fun net => Gui._hpwl_net self (Design.endpoints net))
                         (take 500 (Gui.nets self))))%Q /\
  (Gui._hpwl_net Examples.main_two ["a.q"; "b.d"]%string == 16)%Q /\
  (Gui._hpwl_net Examples.main_pin ["a.q"; "zz.x"; "top.p"]%string == 16)%Q /\
  (Gui._hpwl_net Examples.main_pin ["a.q"; "top.zz"]%string == 0)%Q.
Proof.
  split; [| split; [| split; [| split; [| split; [| split; [| split; [| split; [| split]]]]]]]].
  - intros p. unfold Gui.resolve, Py.startswith. rewrite prefix_top.
    unfold Gui.pin_of.
    change ("top." ++ p)%string with ("top" ++ "." ++ p)%string.
    rewrite (split_dot_dotless "top" p eq_refl). cbn [snd].
    unfold Gui._center_pin, Claimed.centre.
    destruct (Py.dict_get (Gui.pin_items self) p); reflexivity.
  - intros inst port Hd Hne. unfold Gui.resolve.
    rewrite (startswith_top_dotless inst port Hd Hne).
    unfold Gui.mod_of. rewrite (split_dot_dotless inst port Hd). cbn [fst].
    unfold Gui._center_block, Claimed.centre.
    destruct (Gui.items self !! inst); reflexivity.
  - reflexivity.
  - intros eps1 eps2 ep Hnone. unfold Gui._hpwl_net.
    rewrite (points_skip self eps1 eps2 ep Hnone). reflexivity.
  - intros endpoints Hlen. unfold Gui._hpwl_net, Gui.points.
    apply Nat.ltb_lt in Hlen. rewrite Hlen. reflexivity.
  - intros endpoints Hlen. unfold Gui._hpwl_net, Gui.points.
    set (pts := omap (Gui.resolve self) endpoints) in *.
    destruct (Nat.ltb_spec (length pts) 2) as [Hlt|_]; [lia |].
    assert (Hne : pts <> []).
    { intros He. rewrite He in Hlen. cbn in Hlen. lia. }
    destruct (spread_spec (map fst pts)) as (xmax & xmin & H1 & H2 & ->).
    { intros He. apply map_eq_nil in He. contradiction. }
    destruct (spread_spec (map snd pts)) as (ymax & ymin & H3 & H4 & ->).
    { intros He. apply map_eq_nil in He. contradiction. }
    exists xmax, xmin, ymax, ymin. repeat (split; [assumption |]). reflexivity.
  - unfold Gui._update_hpwl. rewrite fold_total. lra.
  - vm_compute. reflexivity.
  - vm_compute. reflexivity.
  - vm_compute. reflexivity.
Qed.

(** The nets of the design follow the order of the declared nets, each
    declared net giving one net at most. *)
Theorem nets_in_declaration_order (modules : list (string * Ingest.YosysModule))
    (top : string) (die_w die_h grid core_margin : Z) (max_side_frac : float)
    (min_side_px : Z) (d : Ingest.DesignOut) (topm : Ingest.YosysModule)
    (Htop : Py.dict_get modules top = Some topm)
    (Hbuild : Ingest.build_design modules top die_w die_h grid core_margin
                max_side_frac min_side_px = Some d) :
  map Design.name (Ingest.nets_out d) `sublist_of` map fst (Ingest.netnames topm) /\
  (length (Ingest.nets_out d) <= length (Ingest.netnames topm))%nat.
Proof.
  rewrite (build_design_nets_out _ _ _ _ _ _ _ _ _ _ Htop Hbuild).
  assert (H : map Design.name
                (omap (Ingest.net_of (Ingest.bit_eps_of topm)) (Ingest.netnames topm))
              `sublist_of` map fst (Ingest.netnames topm)).
  { induction (Ingest.netnames topm) as [|n ns IH]; cbn [omap list_omap map];
      [constructor |].
    rewrite net_of_spec. destruct (decide _).
    - cbn [map Design.name]. apply sublist_skip. exact IH.
    - apply sublist_cons. exact IH. }
  split; [exact H |].
  apply sublist_length in H. rewrite !length_map in H. exact H.
Qed.

Lemma nets_in_declaration_order_witness :
  exists d : Ingest.DesignOut,
    Ingest.build_design Examples.netlist "top" 200 200 5 0 0.5%float 10 = Some d /\
    (length (Ingest.nets_out d) <= length (Ingest.netnames Examples.netlist_top))%nat.
Proof.
  assert (Hb : exists d, Ingest.build_design Examples.netlist "top" 200 200 5 0 0.5%float 10
                         = Some d) by (eexists; vm_compute; reflexivity).
  destruct Hb as [d Hb]. exists d. split; [exact Hb |].
  assert (Htop : Py.dict_get Examples.netlist "top" = Some Examples.netlist_top)
    by reflexivity.
  apply (nets_in_declaration_order Examples.netlist "top" 200 200 5 0 0.5%float 10 d
           Examples.netlist_top Htop Hb).
Defined.

Lemma ingested_endpoint_read_back_witness :
  Tables.dotless "u1" = true /\ Gui.mod_of ("u1" ++ "." ++ "a") = "u1"%string.
Proof.
  split; [reflexivity |].
  apply (proj2 ingested_endpoint_read_back "u1"%string "a"%string eq_refl).
Defined.

(** ** The export *)






(** The number of lines of pin_placement.cfg. *)
Lemma write_pin_placement_length (self : Gui.Main) :
  length (Gui._write_pin_placement_cfg self)
  = sum_list (map (fun name => Z.to_nat (Z.max 1 (Gui.port_width (Gui.ports self) name)))
                  (map fst (Gui.pin_items self))).
Proof.
  assert (Hlen : forall side,
    length (Gui.side_lines self side)
    = length (Tables.bus_names (Gui.ports self) (Tables.entries_of_side self side))).
  { intros side. rewrite <- (length_map Gui.bit_name).
    unfold Gui.side_lines. rewrite place_pins_names.
    apply bus_names_length_Permutation, pins_grouped_sorted_groups_perm. }
  unfold Gui._write_pin_placement_cfg. cbn [flat_map].
  rewrite !length_app, !Hlen. cbn [length].
  transitivity (length (Tables.bus_names (Gui.ports self)
     (Tables.entries_of_side self Design.SideN
      ++ Tables.entries_of_side self Design.SideS
      ++ Tables.entries_of_side self Design.SideE
      ++ Tables.entries_of_side self Design.SideW))).
  { unfold Tables.bus_names. rewrite !flat_map_app, !length_app. lia. }
  rewrite (bus_names_length_Permutation _ _ _ (entries_partition self)).
  unfold Tables.bus_names.
  induction (Gui.pin_items self) as [|[name it] pins IH]; cbn [map flat_map sum_list fst];
    [reflexivity |].
  rewrite length_app, IH. cbn [sum_list_with id]. f_equal.
  apply (proj1 (expand_bus_length name (Gui.port_width (Gui.ports self) name))).
Qed.

(** The width found for the name of a port is that port's own width when
    no other port has the name. *)
Lemma port_width_own (ports : list Design.Port) (p : Design.Port) :
  NoDup (map Design.port_name ports) -> p ∈ ports ->
  Gui.port_width ports (Design.port_name p) = default 1%Z (Design.width p).
Proof.
  unfold Gui.port_width.
  induction ports as [|q ports IH]; intros Hnd Hin; [inversion Hin |].
  cbn [map] in Hnd. apply NoDup_cons in Hnd as [Hq Hnd].
  cbn [find]. destruct (String.eqb_spec (Design.port_name q) (Design.port_name p)) as [Heq|Hne].
  - apply elem_of_cons in Hin as [->|Hin]; [reflexivity |].
    exfalso. apply Hq. rewrite Heq. apply list_elem_of_fmap. exists p. split; [reflexivity | exact Hin].
  - apply elem_of_cons in Hin as [->|Hin]; [congruence |]. exact (IH Hnd Hin).
Qed.

Lemma total_pin_bits_sum (ports : list Design.Port) :
  Forall (fun p => (1 <= default 1 (Design.width p))%Z) ports ->
  forall acc,
    fold_left (fun acc p => (acc + default 1 (Design.width p))%Z) ports acc
    = (acc + Z.of_nat (sum_list (map (fun p => Z.to_nat (Z.max 1 (default 1 (Design.width p))))
                                     ports)))%Z.
Proof.
  induction 1 as [|p ports Hp Hps IH]; intros acc; cbn [fold_left map sum_list_with id].
  - lia.
  - rewrite IH. cbn [sum_list_with id]. lia.
Qed.

(** The count check of the export passes when the design is as the GUI
    builds it: one pin for each port, port names distinct, no width
    below 1. Then pin_placement.cfg has exactly [total_pin_bits] lines,
    and it is written whenever there is a port. *)
Theorem export_pin_line_count (self : Gui.Main)
    (Hnd : NoDup (map Design.port_name (Gui.ports self)))
    (Hpins : map fst (Gui.pin_items self) ≡ₚ map Design.port_name (Gui.ports self))
    (Hw : Forall (fun p => (1 <= default 1 (Design.width p))%Z) (Gui.ports self)) :
  Z.of_nat (length (Gui._write_pin_placement_cfg self)) = Gui.total_pin_bits self /\
  (Z.of_nat (length (Gui.ports self)) <= Gui.total_pin_bits self)%Z /\
  (Gui.ports self <> [] ->
   Gui.pin_placement_cfg (Gui._on_export_clicked self)
   = Some (Gui._write_pin_placement_cfg self)).
Proof.
  assert (Htot : Z.of_nat (length (Gui._write_pin_placement_cfg self))
                 = Gui.total_pin_bits self).
  { rewrite write_pin_placement_length. rewrite Hpins.
    unfold Gui.total_pin_bits. rewrite (total_pin_bits_sum _ Hw 0). rewrite Z.add_0_l.
    f_equal. rewrite map_map. f_equal. apply map_ext_in. intros p Hp.
    rewrite (port_width_own _ p Hnd); [reflexivity |]. apply list_elem_of_In. exact Hp. }
  assert (Hge : (Z.of_nat (length (Gui.ports self)) <= Gui.total_pin_bits self)%Z).
  { unfold Gui.total_pin_bits. rewrite (total_pin_bits_sum _ Hw 0). rewrite Z.add_0_l.
    clear -Hw. induction Hw as [|p ports Hp Hps IH]; cbn [map length sum_list_with id]; lia. }
  split; [exact Htot |]. split; [exact Hge |].
  intros Hne. unfold Gui._on_export_clicked. cbn [Gui.pin_placement_cfg].
  assert (Hpos : (0 <? Gui.total_pin_bits self)%Z = true).
  { apply Z.ltb_lt. destruct (Gui.ports self); [congruence |]. cbn [length] in Hge. lia. }
  rewrite Hpos. reflexivity.
Qed.

Lemma export_pin_line_count_witness :
  Z.of_nat (length (Gui._write_pin_placement_cfg Examples.main_floor)) = 4%Z.
Proof.
  assert (Hnd : NoDup (map Design.port_name (Gui.ports Examples.main_floor))).
  { cbn. apply NoDup_singleton. }
  assert (Hpins : map fst (Gui.pin_items Examples.main_floor)
                  ≡ₚ map Design.port_name (Gui.ports Examples.main_floor))
    by reflexivity.
  assert (Hw : Forall (fun p => (1 <= default 1 (Design.width p))%Z)
                      (Gui.ports Examples.main_floor)).
  { repeat constructor. cbn. lia. }
  exact (proj1 (export_pin_line_count Examples.main_floor Hnd Hpins Hw)).
Defined.

(** ** A pin at rest *)




(** ** Autoscale *)

Lemma slide_spec (modules : list Design.Module_) (inst : string)
    (grid cx cw side y : Z) :
  (1 <= grid)%Z ->
  forall (fuel : nat) (x : Z),
    (cx + cw - side - x < Z.of_nat fuel)%Z ->
    exists x',
      Autoscale.slide fuel modules inst grid cx cw side y x = Some x' /\
      (exists n, (0 <= n)%Z /\ x' = (x + n * grid)%Z) /\
      (x' = x \/ x' + side <= cx + cw)%Z /\
      (Gui._occupied modules (Qt.mkRect x' y side side) (Some inst) Gui.HALO_PX = false \/
       (cx + cw < x' + side + grid)%Z) /\
      (forall p, Autoscale.tried grid x x' p ->
         Gui._occupied modules (Qt.mkRect p y side side) (Some inst) Gui.HALO_PX = true).
Proof.
  intros Hgrid. induction fuel as [|fuel IH]; intros x Hfuel; cbn [Autoscale.slide].
  - destruct (Z.leb_spec (x + side + grid) (cx + cw)); [lia |].
    rewrite andb_false_r. exists x. split; [reflexivity |].
    split; [exists 0%Z; lia |]. split; [left; reflexivity |]. split; [right; lia |].
    intros p (j & Hj & -> & Hlt). nia.
  - destruct (Gui._occupied modules (Qt.mkRect x y side side) (Some inst) Gui.HALO_PX)
      eqn:Hocc; cbn [andb].
    + destruct (Z.leb_spec (x + side + grid) (cx + cw)) as [Hroom|Hroom].
      * assert (Hf : (cx + cw - side - (x + grid) < Z.of_nat fuel)%Z) by lia.
        destruct (IH (x + grid)%Z Hf)
          as (x' & Hs & (n & Hn & Hx') & Hin & Hend & Htried).
        exists x'. split; [exact Hs |].
        split; [exists (n + 1)%Z; split; [lia | nia] |].
        split; [right; nia |]. split; [exact Hend |].
        intros p (j & Hj & -> & Hlt).
        destruct (Z.eq_dec j 0%Z) as [->|Hj0].
        -- rewrite Z.mul_0_l, Z.add_0_r. exact Hocc.
        -- apply Htried. exists (j - 1)%Z. split; [lia |]. split; [nia | lia].
      * exists x. split; [reflexivity |].
        split; [exists 0%Z; lia |]. split; [left; reflexivity |]. split; [right; lia |].
        intros p (j & Hj & -> & Hlt). nia.
    + exists x. split; [reflexivity |].
      split; [exists 0%Z; lia |]. split; [left; reflexivity |].
      split; [left; exact Hocc |].
      intros p (j & Hj & -> & Hlt). nia.
Qed.

(** The block slides to the first free place: with a positive grid and
    fuel for every step that fits, the loop ends at a whole number of
    grid steps to the right; every place passed was taken; the block
    still ends inside the Core's right bound if it moved; and at the end
    the place is free or one more step would leave the Core. *)
Theorem slide_stops_at_first_free (modules : list Design.Module_) (inst : string)
    (grid cx cw side y x : Z) (fuel : nat)
    (Hgrid : (1 <= grid)%Z)
    (Hfuel : (cx + cw - side - x < Z.of_nat fuel)%Z) :
  exists x',
    Autoscale.slide fuel modules inst grid cx cw side y x = Some x' /\
    (exists n, (0 <= n)%Z /\ x' = (x + n * grid)%Z) /\
    (x' = x \/ x' + side <= cx + cw)%Z /\
    (Gui._occupied modules (Qt.mkRect x' y side side) (Some inst) Gui.HALO_PX = false \/
     (cx + cw < x' + side + grid)%Z) /\
    (forall p, Autoscale.tried grid x x' p ->
       Gui._occupied modules (Qt.mkRect p y side side) (Some inst) Gui.HALO_PX = true).
Proof. exact (slide_spec modules inst grid cx cw side y Hgrid fuel x Hfuel). Qed.

Lemma slide_stops_at_first_free_witness :
  exists x',
    Autoscale.slide 200 [Examples.u1; Examples.u2] "u1" 20 40 200 70 40 40 = Some x' /\
    (x' = 40 \/ x' + 70 <= 40 + 200)%Z.
Proof.
  assert (Hg : (1 <= 20)%Z) by lia.
  assert (Hf : (40 + 200 - 70 - 40 < Z.of_nat 200)%Z) by lia.
  destruct (slide_stops_at_first_free [Examples.u1; Examples.u2] "u1" 20 40 200 70 40 40 200
              Hg Hf) as (x' & Hs & _ & Hin & _).
  exists x'. split; assumption.
Defined.

Lemma new_rect_bounds (it : Gui.BlockItem) (value : Qt.QPointF) (r : Qt.QRectF) :
  Gui.new_rect it value = Some r ->
  (Gui.rect_w it <= Qt.rwidth (Gui.block_core_rect it) ->
   Qt.left (Gui.block_core_rect it) <= Qt.rx r /\
   Qt.rx r + Gui.rect_w it <= Qt.right (Gui.block_core_rect it))%Z /\
  (Gui.rect_h it <= Qt.rheight (Gui.block_core_rect it) ->
   Qt.top (Gui.block_core_rect it) <= Qt.ry r /\
   Qt.ry r + Gui.rect_h it <= Qt.bottom (Gui.block_core_rect it))%Z.
Proof.
  unfold Gui.new_rect. intros H.
  destruct (Gui._snap (fst value) _) as [sx|]; [| discriminate].
  destruct (Gui._snap (snd value) _) as [sy|]; [| discriminate].
  cbn [mbind option_bind] in H. cbv zeta in H. injection H as <-.
  unfold Qt.left, Qt.right, Qt.top, Qt.bottom. cbn [Qt.rx Qt.ry]. lia.
Qed.

(** What [setPos] leaves behind: the item refers to the same module and
    Core, and the module dictionaries are untouched or hold, for the
    item's module, the corner of the snapped and clamped rectangle. *)
Lemma setPos_result (modules modules' : list Design.Module_)
    (it it' : Gui.BlockItem) (value : Qt.QPointF) :
  Gui.setPos modules it value = Some (modules', it') ->
  Gui.module_ref it' = Gui.module_ref it /\
  Gui.block_core_rect it' = Gui.block_core_rect it /\
  (modules' = modules \/
   exists m r,
     modules !! Gui.module_ref it = Some m /\
     Gui.new_rect it value = Some r /\
     modules' = <[Gui.module_ref it := Design.set_xy m (Qt.rx r) (Qt.ry r)]> modules).
Proof.
  unfold Gui.setPos. intros H.
  destruct (Qt.point_eqb value (Gui.pos it)).
  { injection H as <- <-. auto. }
  destruct (modules !! Gui.module_ref it) as [m|] eqn:Hm; [| discriminate].
  cbn [mbind option_bind] in H.
  unfold Gui.itemChange_ItemPositionChange in H.
  destruct (Gui.new_rect it value) as [r|] eqn:Hr; [| discriminate].
  cbn [mbind option_bind] in H.
  destruct (Gui.can_place_fn modules r (Design.inst m)); cbn [negb mbind option_bind] in H.
  - destruct (Qt.point_eqb _ (Gui.pos it)).
    { injection H as <- <-. auto. }
    injection H as <- <-. cbn [Gui.set_pos Gui.module_ref Gui.block_core_rect].
    split; [reflexivity |]. split; [reflexivity |].
    unfold Gui.itemChange_ItemPositionHasChanged.
    cbn [Gui.set_pos Gui._constructed Gui.module_ref Gui.pos fst snd].
    destruct (Gui._constructed it); [| auto].
    rewrite Hm, !int_inject_Z. right. exists m, r. auto.
  - destruct (Qt.point_eqb _ (Gui.pos it)).
    { injection H as <- <-. auto. }
    injection H as <- <-. cbn [Gui.set_pos Gui.module_ref Gui.block_core_rect].
    split; [reflexivity |]. split; [reflexivity |].
    unfold Gui.itemChange_ItemPositionHasChanged.
    cbn [Gui.set_pos Gui._constructed Gui.module_ref Gui.pos fst snd].
    destruct (Gui._constructed it); [| auto].
    rewrite Hm, !int_inject_Z, set_xy_same. left. apply list_insert_id. exact Hm.
Qed.

Lemma slide_bounds (modules : list Design.Module_) (inst : string)
    (grid cx cw side y : Z) :
  (0 <= grid)%Z ->
  forall (fuel : nat) (x x' : Z),
    Autoscale.slide fuel modules inst grid cx cw side y x = Some x' ->
    (x <= x' /\ (x' = x \/ x' + side <= cx + cw))%Z.
Proof.
  intros Hgrid. induction fuel as [|fuel IH]; intros x x'; cbn [Autoscale.slide].
  - destruct (_ && _); [discriminate |]. intros [= <-]. lia.
  - destruct (Gui._occupied _ _ _ _); cbn [andb].
    + destruct (Z.leb_spec (x + side + grid) (cx + cw)) as [Hroom|Hroom].
      * intros Hs. apply IH in Hs. lia.
      * intros [= <-]. lia.
    + intros [= <-]. lia.
Qed.

(** One turn of the loop rescales the module of its index and leaves
    the others alone. *)
Lemma rescale_step (fuel : nat) (self : Gui.Main) (sc : Ingest.Scale)
    (st st' : Autoscale.State) (i : nat) (b : float) (m : Design.Module_) :
  (0 <= Gui.grid self)%Z ->
  Autoscale.in_step self st ->
  fst st !! i = Some m ->
  Autoscale.rescale fuel self sc st i b = Autoscale.Returns st' ->
  exists m',
    fst st' = <[i := m']> (fst st) /\
    Autoscale.rescaled self (Ingest.min_side sc) m m' /\
    Autoscale.in_step self st'.
Proof.
  intros Hgrid Hstep Hm Hrun.
  destruct st as [modules items]. cbn [fst snd] in *.
  destruct (Hstep i m Hm) as (it & Hit & Href & Hcore). cbn [fst snd] in Hit.
  unfold Autoscale.rescale, Autoscale._core_rect_tuple in Hrun. cbn [fst snd] in Hrun.
  destruct (Ingest.round_float _) as [r|]; [| discriminate].
  rewrite Hm, Hit in Hrun.
  set (side := Z.max (Ingest.min_side sc) r) in *.
  set (cx := Gui.margin self) in *.
  set (cw := (Gui.w self - 2 * Gui.margin self)%Z) in *.
  set (ch := (Gui.h self - 2 * Gui.margin self)%Z) in *.
  set (x := Z.max cx (Z.min (Design.x m) (cx + cw - side))) in *.
  set (y := Z.max cx (Z.min (Design.y m) (cx + ch - side))) in *.
  destruct (Autoscale.slide _ _ _ _ _ _ _ _ _) as [x'|] eqn:Hs; [| discriminate].
  apply (slide_bounds _ _ _ _ _ _ _ Hgrid) in Hs.
  rewrite list_insert_insert_eq in Hrun.
  set (m2 := Design.set_xy (Autoscale.set_wh m side) x' y) in *.
  destruct (Gui.setPos _ _ _) as [[modules3 it2]|] eqn:Hsp; [| discriminate].
  injection Hrun as <-.
  apply setPos_result in Hsp. cbn [Autoscale.setRect Gui.module_ref Gui.block_core_rect] in Hsp.
  destruct Hsp as (Href2 & Hcore2 & Hmods).
  assert (Hlen : (i < length modules)%nat) by (eapply lookup_lt_Some; exact Hm).
  assert (Hin : forall m', modules3 = <[i := m']> modules ->
                  Design.inst m' = Design.inst m ->
                  Autoscale.in_step self (modules3, <[Design.inst m := it2]> items)).
  { intros m' -> Hinst j mj Hj. cbn [fst snd] in *.
    destruct (decide (j = i)) as [->|Hne].
    - rewrite list_lookup_insert_eq in Hj by exact Hlen. injection Hj as <-.
      exists it2. rewrite Hinst, lookup_insert_eq. repeat split; congruence.
    - rewrite list_lookup_insert_ne in Hj by congruence.
      destruct (Hstep j mj Hj) as (itj & Hitj & Hrefj & Hcorej). cbn [fst snd] in Hitj.
      exists itj. rewrite lookup_insert_ne; [auto |].
      intros Heq. rewrite <- Heq in Hitj. congruence. }
  assert (Hcr : Qt.left (Gui.core_rect self) = cx /\ Qt.top (Gui.core_rect self) = cx /\
                Qt.right (Gui.core_rect self) = (cx + cw)%Z /\
                Qt.bottom (Gui.core_rect self) = (cx + ch)%Z /\
                Qt.rwidth (Gui.core_rect self) = cw /\ Qt.rheight (Gui.core_rect self) = ch).
  { unfold Gui.core_rect, Qt.left, Qt.top, Qt.right, Qt.bottom.
    cbn [Qt.rx Qt.ry Qt.rwidth Qt.rheight]. subst cx cw ch. repeat split; reflexivity. }
  destruct Hcr as (Hl & Ht & Hr & Hb & Hw & Hh).
  destruct Hmods as [->|(m0 & r0 & Hm0 & Hr0 & ->)].
  - exists m2. split; [reflexivity |]. split; [| apply (Hin m2); reflexivity].
    unfold Autoscale.rescaled. rewrite Hl, Ht, Hr, Hb, Hw, Hh.
    subst m2. cbn. repeat split; try reflexivity; try lia.
  - rewrite Href in *. rewrite list_lookup_insert_eq in Hm0 by exact Hlen.
    injection Hm0 as <-. rewrite !list_insert_insert_eq in Hin |- *.
    eexists. split; [reflexivity |]. split; [| eapply Hin; reflexivity].
    apply new_rect_bounds in Hr0.
    cbn [Autoscale.setRect Gui.rect_w Gui.rect_h Gui.block_core_rect] in Hr0.
    rewrite Hcore in Hr0.
    unfold Autoscale.rescaled. rewrite Hl, Ht, Hr, Hb, Hw, Hh in *.
    subst m2. cbn. repeat split; try reflexivity; try lia.
Qed.

Lemma rescale_lookup (fuel : nat) (self : Gui.Main) (sc : Ingest.Scale)
    (st st' : Autoscale.State) (i : nat) (b : float) :
  Autoscale.rescale fuel self sc st i b = Autoscale.Returns st' ->
  exists m, fst st !! i = Some m.
Proof.
  unfold Autoscale.rescale, Autoscale._core_rect_tuple.
  destruct (Ingest.round_float _); [| discriminate].
  destruct (fst st !! i) as [m|]; [eauto | discriminate].
Qed.

(** The loop rescales the modules of its range, each once. *)
Lemma rescale_all_inv (fuel : nat) (self : Gui.Main) (sc : Ingest.Scale) :
  (0 <= Gui.grid self)%Z ->
  forall (bases : list float) (i : nat) (st st' : Autoscale.State),
    Autoscale.in_step self st ->
    Autoscale.rescale_all fuel self sc i bases st = Autoscale.Returns st' ->
    Autoscale.in_step self st' /\
    length (fst st') = length (fst st) /\
    forall j m, fst st !! j = Some m ->
      exists m', fst st' !! j = Some m' /\
        ((i <= j < i + length bases)%nat ->
         Autoscale.rescaled self (Ingest.min_side sc) m m') /\
        (~ (i <= j < i + length bases)%nat -> m' = m).
Proof.
  intros Hgrid. induction bases as [|b bases IH]; intros i st st' Hstep Hrun;
    cbn [Autoscale.rescale_all length] in *.
  - injection Hrun as <-. split; [exact Hstep |]. split; [reflexivity |].
    intros j m Hj. exists m. split; [exact Hj |]. split; [lia | reflexivity].
  - destruct (Autoscale.rescale fuel self sc st i b) as [st1| |] eqn:H1; try discriminate.
    destruct (rescale_lookup _ _ _ _ _ _ _ H1) as [mi Hmi].
    destruct (rescale_step _ _ _ _ _ _ _ _ Hgrid Hstep Hmi H1) as (m1 & Hst1 & Hres & Hstep1).
    destruct (IH (S i) st1 st' Hstep1 Hrun) as (Hstep' & Hlen & Hall).
    assert (Hi : (i < length (fst st))%nat) by (eapply lookup_lt_Some; exact Hmi).
    split; [exact Hstep' |].
    split; [rewrite Hlen, Hst1; apply length_insert |].
    intros j m Hj. rewrite Hst1 in Hall.
    destruct (decide (j = i)) as [->|Hne].
    + rewrite Hmi in Hj. injection Hj as <-.
      destruct (Hall i m1) as (m' & Hm' & _ & Hsame);
        [apply list_lookup_insert_eq; exact Hi |].
      rewrite (Hsame ltac:(lia)) in Hm'.
      exists m1. split; [exact Hm' |]. split; [intros _; exact Hres | lia].
    + destruct (Hall j m) as (m' & Hm' & Hin & Hout);
        [rewrite list_lookup_insert_ne by congruence; exact Hj |].
      exists m'. split; [exact Hm' |].
      split; [intros Hr; apply Hin; lia | intros Hr; apply Hout; lia].
Qed.

(** Autoscale turns every module into a square of at least [max(2 grid,
    min_side_px)], keeps its instance, type, area and orientation, and
    leaves it inside the Core whenever the Core is at least as wide and
    as high as the square, whether or not the final [setPos] was
    accepted; every module still has its block. *)
Theorem autoscale_squares_inside_core (fuel : nat) (self self' : Gui.Main)
    (max_side_frac : float) (min_side_px : Z)
    (Hgrid : (0 <= Gui.grid self)%Z)
    (Hstep : Autoscale.in_step self (Gui.modules self, Gui.items self))
    (Hrun : Autoscale.autoscale_modules fuel self max_side_frac min_side_px
            = Autoscale.Returns self') :
  Forall2 (Autoscale.rescaled self (Z.max (2 * Gui.grid self) min_side_px))
          (Gui.modules self) (Gui.modules self') /\
  Autoscale.in_step self (Gui.modules self', Gui.items self') /\
  Gui.core_rect self' = Gui.core_rect self /\ Gui.grid self' = Gui.grid self /\
  Gui.pin_items self' = Gui.pin_items self.
Proof.
  unfold Autoscale.autoscale_modules in Hrun.
  destruct (Autoscale.bases_of (Gui.modules self)) as [bases|] eqn:Hb; [| discriminate].
  apply length_mapM in Hb.
  destruct bases as [|b bases].
  { injection Hrun as <-. destruct (Gui.modules self); [| discriminate].
    split; [constructor |]. auto. }
  destruct (Autoscale.scale_of self (b :: bases) max_side_frac min_side_px)
    as [sc|] eqn:Hsc; [| discriminate].
  assert (Hmin : Ingest.min_side sc = Z.max (2 * Gui.grid self) min_side_px).
  { unfold Autoscale.scale_of, Autoscale._core_rect_tuple in Hsc.
    destruct (Ingest.float_of_Z (Z.min _ _)); [| discriminate]. cbn [mbind option_bind] in Hsc.
    destruct (Ingest.round_float _); [| discriminate]. cbn [mbind option_bind] in Hsc.
    destruct (Ingest.float_of_Z _); [| discriminate]. cbn [mbind option_bind] in Hsc.
    destruct (_ =? _)%float; [discriminate |]. injection Hsc as <-. reflexivity. }
  destruct (Autoscale.rescale_all fuel self sc 0 (b :: bases) _) as [[modules' items']| |]
    eqn:Hall; try discriminate.
  cbv zeta in Hrun. destruct (Autoscale._utilization _); [| discriminate].
  injection Hrun as <-. cbn [Gui.modules Gui.items Gui.grid Gui.pin_items].
  destruct (rescale_all_inv fuel self sc Hgrid _ _ _ _ Hstep Hall) as (Hstep' & Hlen & Hmods).
  cbn [fst snd] in *.
  split; [| split; [exact Hstep' | repeat split]].
  apply Forall2_same_length_lookup. split; [congruence |].
  intros j m m' Hj Hj'. destruct (Hmods j m Hj) as (m'' & Hm'' & Hin & _).
  rewrite Hj' in Hm''. injection Hm'' as <-. rewrite <- Hmin. apply Hin.
  apply lookup_lt_Some in Hj. lia.
Qed.

Lemma rescale_fuel (fuel : nat) (self : Gui.Main) (sc : Ingest.Scale)
    (st : Autoscale.State) (i : nat) (b : float) :
  (1 <= Gui.grid self)%Z -> (0 <= Ingest.min_side sc)%Z ->
  (Gui.w self - 2 * Gui.margin self < Z.of_nat fuel)%Z ->
  Autoscale.rescale fuel self sc st i b <> Autoscale.OutOfFuel.
Proof.
  intros Hgrid Hmin Hfuel. unfold Autoscale.rescale, Autoscale._core_rect_tuple.
  destruct (Ingest.round_float _) as [r|]; [| discriminate].
  destruct (fst st !! i) as [m|]; [| discriminate].
  destruct (snd st !! Design.inst m) as [it|]; [| discriminate].
  match goal with
  | |- context [Autoscale.slide fuel ?ms ?inst ?g ?cx ?cw ?side ?y ?x] =>
      assert (Hf : (cx + cw - side - x < Z.of_nat fuel)%Z) by lia;
      destruct (slide_spec ms inst g cx cw side y Hgrid fuel x Hf) as (x' & -> & _)
  end.
  destruct (Gui.setPos _ _ _) as [[? ?]|]; discriminate.
Qed.

(** With a positive grid the sliding loops end: given one unit of fuel
    for every pixel of the Core's width, autoscale is never cut short; it
    returns, or stops at an exception. *)
Theorem autoscale_terminates (fuel : nat) (self : Gui.Main)
    (max_side_frac : float) (min_side_px : Z)
    (Hgrid : (1 <= Gui.grid self)%Z)
    (Hfuel : (Gui.w self - 2 * Gui.margin self < Z.of_nat fuel)%Z) :
  Autoscale.autoscale_modules fuel self max_side_frac min_side_px
  <> Autoscale.OutOfFuel.
Proof.
  unfold Autoscale.autoscale_modules.
  destruct (Autoscale.bases_of (Gui.modules self)) as [[|b bases]|]; try discriminate.
  destruct (Autoscale.scale_of self (b :: bases) max_side_frac min_side_px)
    as [sc|] eqn:Hsc; [| discriminate].
  assert (Hmin : (0 <= Ingest.min_side sc)%Z).
  { unfold Autoscale.scale_of, Autoscale._core_rect_tuple in Hsc.
    destruct (Ingest.float_of_Z (Z.min _ _)); [| discriminate]. cbn [mbind option_bind] in Hsc.
    destruct (Ingest.round_float _); [| discriminate]. cbn [mbind option_bind] in Hsc.
    destruct (Ingest.float_of_Z _); [| discriminate]. cbn [mbind option_bind] in Hsc.
    destruct (_ =? _)%float; [discriminate |]. injection Hsc as <-.
    cbn [Ingest.min_side]. lia. }
  assert (Hall : forall bs i st,
             Autoscale.rescale_all fuel self sc i bs st <> Autoscale.OutOfFuel).
  { induction bs as [|b' bs IH]; intros i st; cbn [Autoscale.rescale_all];
      [discriminate |].
    pose proof (rescale_fuel fuel self sc st i b' Hgrid Hmin Hfuel) as Hr.
    destruct (Autoscale.rescale fuel self sc st i b'); [apply IH | discriminate | congruence]. }
  specialize (Hall (b :: bases) 0%nat (Gui.modules self, Gui.items self)).
  destruct (Autoscale.rescale_all _ _ _ _ _ _) as [[? ?]| |];
    [cbv zeta; destruct (Autoscale._utilization _); discriminate
    | discriminate | congruence].
Qed.

Lemma autoscale_squares_inside_core_witness :
  exists self',
    Autoscale.autoscale_modules 200 Examples.main_auto 0x1.6666666666666p-2%float 32
      = Autoscale.Returns self' /\
    Forall2 (Autoscale.rescaled Examples.main_auto 40)
            (Gui.modules Examples.main_auto) (Gui.modules self').
Proof.
  assert (Hgrid : (0 <= Gui.grid Examples.main_auto)%Z) by (cbn; lia).
  assert (Hstep : Autoscale.in_step Examples.main_auto
                    (Gui.modules Examples.main_auto, Gui.items Examples.main_auto)).
  { intros [|[|i]] m Hm; cbn [fst Gui.modules Examples.main_auto] in Hm;
      try discriminate Hm; injection Hm as <-;
      eexists; (split; [vm_compute; reflexivity |]); split; reflexivity. }
  assert (Hret : match Autoscale.autoscale_modules 200 Examples.main_auto
                         0x1.6666666666666p-2%float 32 with
                 | Autoscale.Returns _ => true | _ => false end = true)
    by (vm_compute; reflexivity).
  destruct (Autoscale.autoscale_modules 200 Examples.main_auto
              0x1.6666666666666p-2%float 32) as [self'| |] eqn:Hrun;
    [| discriminate Hret | discriminate Hret].
  exists self'. split; [reflexivity |].
  exact (proj1 (autoscale_squares_inside_core 200 Examples.main_auto self'
                  0x1.6666666666666p-2%float 32 Hgrid Hstep Hrun)).
Defined.

Lemma autoscale_terminates_witness :
  Autoscale.autoscale_modules 201 Examples.main_auto 0x1.6666666666666p-2%float 32
  <> Autoscale.OutOfFuel.
Proof.
  apply autoscale_terminates; [cbn; lia | vm_compute; reflexivity].
Defined.
